(** * vtop: the metrics acquisition and aggregation pipeline

    A shallow embedding of [vtop/providers/apple_silicon.py],
    [vtop/providers/intel.py], [vtop/providers/factory.py] and of the
    aggregation part of the session loop of [vtop/vtop.py].

    Conventions of the embedding.
    - Python exceptions are explicit: a computation yields [Ret v] or
      [Raise e]; [try ... except] is [try_except].
    - A Python float is modelled by the rational ([Q]) it denotes, and
      equality of floats is [Qeq] ([==]).  Comparisons, [max]/[min] and
      the flow of values are as in the source.  Where the code derives a
      number from its operands (the percentages, the averages of a
      window and of a cluster, the capacity of a window, the uptime, the
      I/O rates), each operation yields the exact result rounded to the
      nearest double ([fl]), as IEEE 754 arithmetic does; infinities and
      NaN are not represented, and an [int] that is converted to a double
      (a table constant, a list length, a difference of 64-bit counters)
      is in the range of doubles.  The quotient of a reading by the
      sampling interval is carried as the exact quotient.
    - Python [int]s are [Z]; [int(x)] on a float truncates toward zero.
    - A Python [str] is a [string] of ASCII characters.
    - A [dict] with string keys is a [gmap string pyval].
    - Effects that a caller can observe (a blob handed to the decoder, a
      frame pushed to the display, a restart of the sampling process) are
      recorded in an event log carried next to the result. *)

From Stdlib Require Import ZArith QArith Qround Qabs Qpower Lqa Lia Sorted.
From Stdlib Require Import Init.Byte Ascii String.
From stdpp Require Import gmap strings list pretty.
Import ListNotations.

Local Open Scope Z_scope.

(** ** Python values, exceptions and the effect monad *)

Inductive exn : Type :=
  | IOError
  | InvalidFileException
  | KeyError (key : string)
  | IndexError
  | TypeError
  | ValueError
  | ZeroDivisionError
  | OverflowError
  | RuntimeError (msg : string)
  | OtherError (msg : string).

Inductive outcome (A : Type) : Type :=
  | Ret (a : A)
  | Raise (e : exn).
Arguments Ret {A} a.
Arguments Raise {A} e.

Inductive pyval : Type :=
  | VInt (z : Z)
  | VFloat (q : Q)
  | VList (l : list Z)
  | VStr (s : string).

Abbreviation pydict := (gmap string pyval).

(** ** Doubles: rounding to the nearest, ties to even *)

Definition pow2 (e : Z) : Q := (2 ^ e)%Q.

(** The exponent of the binade of a positive rational:
    [2^(ilog2 x) <= x < 2^(ilog2 x + 1)]. *)
Definition ilog2 (x : Q) : Z :=
  let k := Z.log2 (Qnum x) - Z.log2 (Zpos (Qden x)) in
  if Qle_bool (pow2 k) x then k else k - 1.

(** The nearest integer, the even one of two that are equally near. *)
Definition rne (x : Q) : Z :=
  let f := Qfloor x in
  match (x - inject_Z f ?= 1 # 2)%Q with
  | Lt => f
  | Gt => f + 1
  | Eq => if Z.even f then f else f + 1
  end.

(** The double nearest to a positive rational: 53 significant bits, and
    no bit below [2^-1074]. *)
Definition fl_pos (x : Q) : Q :=
  let e := Z.max (ilog2 x - 52) (-1074) in
  (inject_Z (rne (x / pow2 e)) * pow2 e)%Q.

(** The double nearest to a rational. *)
Definition fl (x : Q) : Q :=
  match (x ?= 0)%Q with
  | Eq => 0%Q
  | Gt => fl_pos x
  | Lt => (- fl_pos (- x))%Q
  end.

Module Py.

(** [M E A]: a computation that logs events of type [E] and either
    returns an [A] or raises.  Effects logged before a raise persist. *)
Definition M (E A : Type) : Type := (list E * outcome A)%type.

Definition ret {E A} (a : A) : M E A := ([], Ret a).
Definition raise {E A} (e : exn) : M E A := ([], Raise e).
Definition emit {E} (ev : E) : M E unit := ([ev], Ret tt).
Definition lift {E A} (o : outcome A) : M E A := ([], o).

Definition bind {E A B} (m : M E A) (k : A -> M E B) : M E B :=
  match m with
  | (log, Ret a) => let (log', r) := k a in (log ++ log', r)
  | (log, Raise e) => (log, Raise e)
  end.

(** [try: body except Exception: handler] *)
Definition try_except {E A} (body : M E A) (handler : exn -> M E A) : M E A :=
  match body with
  | (log, Ret a) => (log, Ret a)
  | (log, Raise e) => let (log', r) := handler e in (log ++ log', r)
  end.

Definition events {E A} (m : M E A) : list E := fst m.
Definition result {E A} (m : M E A) : outcome A := snd m.

(** [l[i]] with Python's negative indices. *)
Definition getitem {A} (l : list A) (i : Z) : outcome A :=
  let n := Z.of_nat (length l) in
  let j := if i <? 0 then i + n else i in
  if (j <? 0) || (n <=? j) then Raise IndexError
  else match nth_error l (Z.to_nat j) with
       | Some x => Ret x
       | None => Raise IndexError
       end.

(** [d[k]] *)
Definition dict_getitem (d : pydict) (k : string) : outcome pyval :=
  match d !! k with
  | Some v => Ret v
  | None => Raise (KeyError k)
  end.

(** The float a numeric operand of [/] stands for. *)
Definition as_number (v : pyval) : outcome Q :=
  match v with
  | VInt z => Ret (inject_Z z)
  | VFloat q => Ret q
  | _ => Raise TypeError
  end.

(** [x / i] for a float and an [int]. *)
Definition truediv (x : Q) (i : Z) : outcome Q :=
  if i =? 0 then Raise ZeroDivisionError else Ret (x / inject_Z i)%Q.

(** [float(i)], and [x + y], [x * y], [x / y] on doubles. *)
Definition float_of_int (i : Z) : Q := fl (inject_Z i).
Definition fadd (x y : Q) : Q := fl (x + y).
Definition fmul (x y : Q) : Q := fl (x * y).
Definition fdiv (x y : Q) : Q := fl (x / y).

(** [x / i] for a double and an [int], as a double. *)
Definition float_truediv (x : Q) (i : Z) : outcome Q :=
  if i =? 0 then Raise ZeroDivisionError else Ret (fdiv x (float_of_int i)).

(** [a / b] for two [int]s: the double nearest to the quotient, and an
    [OverflowError] when there is none below [2^1024]. *)
Definition int_truediv (a b : Z) : outcome Q :=
  if b =? 0 then Raise ZeroDivisionError
  else let q := fl (inject_Z a / inject_Z b) in
       if Qle_bool (pow2 1024) (Qabs q) then Raise OverflowError else Ret q.

(** [a / b] for two [int]s where [a] is a sum of [b] integer parts of
    doubles: the quotient is below [2^1024] as the doubles are, and the
    division does not overflow. *)
Definition int_truediv_in_range (a b : Z) : outcome Q :=
  if b =? 0 then Raise ZeroDivisionError else Ret (fl (inject_Z a / inject_Z b)).

(** [int(x)]: truncation toward zero. *)
Definition int_of_float (x : Q) : Z := Z.quot (Qnum x) (Zpos (Qden x)).

(** [o or d] for an optional integer: [None] and [0] are falsy. *)
Definition or_default (o : option Z) (d : Z) : Z :=
  match o with
  | Some v => if v =? 0 then d else v
  | None => d
  end.

End Py.

Notation "'do' x <- m ;; k" := (Py.bind m (fun x => k))
  (at level 10, x name, m at level 99, k at level 200).

(** ** Byte buffers: [bytes.split] and [bytes.join] *)

Abbreviation bytes := (list byte).

Definition is_sep (sep b : byte) : bool := Byte.eqb b sep.

(** [data.split(sep)] for a one-byte separator: one more piece than there
    are separators, so the result is never empty. *)
Fixpoint split (sep : byte) (data : bytes) : list bytes :=
  match data with
  | [] => [[]]
  | b :: rest =>
      if is_sep sep b then [] :: split sep rest
      else match split sep rest with
           | cur :: more => (b :: cur) :: more
           | [] => [[b]]
           end
  end.

(** [sep.join(records)] *)
Fixpoint join (sep : byte) (records : list bytes) : bytes :=
  match records with
  | [] => []
  | [r] => r
  | r :: rest => r ++ sep :: join sep rest
  end.

Definition sep_free (sep : byte) (r : bytes) : Prop :=
  Forall (fun b => is_sep sep b = false) r.

(** ** The reading a provider returns (base.py, [get_metrics]) *)

Record reading : Type := mkReading {
  cpu_metrics : pydict;
  gpu_metrics : pydict;
  thermal_pressure : string;
  bandwidth : option Q;        (* reserved slot, always [None] *)
  timestamp : Q
}.

(** ** apple_silicon.py: [AppleSiliconProvider.get_metrics] *)

Section AppleSilicon.

(** The decoded property list, [plistlib.loads] and the field
    extractors of [vtop/parsers.py] are taken as given: each may raise. *)
Variable Plist : Type.
Variable plistlib_loads : bytes -> outcome Plist.
Variable parse_thermal_pressure : Plist -> outcome string.
Variable parse_cpu_metrics : Plist -> outcome pydict.
Variable parse_gpu_metrics : Plist -> outcome pydict.
Variable plist_timestamp : Plist -> outcome Q.

(** The four extractions that follow a successful [plistlib.loads]. *)
Definition extract (powermetrics_parse : Plist) : outcome reading :=
  match parse_thermal_pressure powermetrics_parse with
  | Raise e => Raise e
  | Ret thermal =>
  match parse_cpu_metrics powermetrics_parse with
  | Raise e => Raise e
  | Ret cpu_metrics_dict =>
  match parse_gpu_metrics powermetrics_parse with
  | Raise e => Raise e
  | Ret gpu_metrics_dict =>
  match plist_timestamp powermetrics_parse with
  | Raise e => Raise e
  | Ret ts => Ret (mkReading cpu_metrics_dict gpu_metrics_dict thermal None ts)
  end end end end.

(** Decoding one blob, without the log. *)
Definition parse_record (blob : bytes) : outcome reading :=
  match plistlib_loads blob with
  | Raise e => Raise e
  | Ret powermetrics_parse => extract powermetrics_parse
  end.

(** One decode attempt: the blob handed to [plistlib.loads] is logged. *)
Definition decode_attempt (blob : bytes) : Py.M bytes reading :=
  do _ <- Py.emit blob ;; Py.lift (parse_record blob).

(** [get_metrics].  [file] is the outcome of opening and reading
    [/tmp/vtop_powermetrics{timecode}]; when that raises, [data] is
    still [None] in the handler. *)
Definition get_metrics (file : outcome bytes) : Py.M bytes (option reading) :=
  match file with
  | Raise _ => Py.ret None
  | Ret raw =>
      let data := split x00 raw in
      Py.try_except
        (do last_blob <- Py.lift (Py.getitem data (-1)) ;;
         do r <- decode_attempt last_blob ;;
         Py.ret (Some r))
        (fun _ =>
           if 1 <? Z.of_nat (length data) then
             Py.try_except
               (do entry <- Py.lift (Py.getitem data (-2)) ;;
                if 0 <? Z.of_nat (length entry) then
                  do r <- decode_attempt entry ;;
                  Py.ret (Some r)
                else Py.ret None)
               (fun _ => Py.ret None)
           else Py.ret None)
  end.

End AppleSilicon.

(** ** collections.deque with [maxlen] *)

Record deque : Type := mkDeque {
  items : list Q;
  maxlen : Z
}.

(** [deque([], maxlen=n)]: a [maxlen] that does not fit a machine word
    ([Py_ssize_t], 64 bits) is an [OverflowError], a negative one a
    [ValueError]. *)
Definition deque_new (n : Z) : outcome deque :=
  if (n <? - 2 ^ 63) || (2 ^ 63 <=? n) then Raise OverflowError
  else if n <? 0 then Raise ValueError
  else Ret (mkDeque [] n).

(** [d.append(x)]: the item is added on the right and, when the deque has
    grown past [maxlen], one item is dropped on the left. *)
Definition deque_append (d : deque) (x : Q) : deque :=
  let grown := items d ++ [x] in
  if maxlen d <? Z.of_nat (length grown)
  then mkDeque (tail grown) (maxlen d)
  else mkDeque grown (maxlen d).

(** ** vtop.py: the aggregation part of [main] *)

(** The command line ([argparse], all [type=int]). *)
Record Args : Type := mkArgs {
  interval : Z;     (* --interval, default 1 *)
  color : Z;        (* --color, default 2 *)
  avg : Z;          (* --avg, default 30 *)
  max_count : Z     (* --max_count, default 0 *)
}.

(** The dict [get_soc_info] returns.  The two core counts and the GPU core
    count are [None] where the source stores the string ["?"]. *)
Record soc_info : Type := mkSoc {
  soc_name : string;
  soc_core_count : Z;
  soc_cpu_max_power : option Z;
  soc_gpu_max_power : option Z;
  soc_cpu_max_bw : option Z;
  soc_gpu_max_bw : option Z;
  soc_e_core_count : option Z;
  soc_p_core_count : option Z;
  soc_gpu_core_count : option Z
}.

(** [x > y] on floats. *)
Definition float_gt (x y : Q) : bool :=
  match (x ?= y)%Q with Gt => true | _ => false end.

(** [sum(l)] for floats: the doubles are added left to right, starting
    from [0] (the accumulation loop of CPython up to 3.11). *)
Definition py_sum (l : list Q) : Q := fold_left Py.fadd l 0%Q.

(** [main.get_avg] *)
Definition get_avg (inlist : deque) : Q :=
  match items inlist with
  | [] => 0%Q
  | _ => Py.fdiv (py_sum (items inlist))
                 (Py.float_of_int (Z.of_nat (length (items inlist))))
  end.

(** The locals of [main] that live across iterations of the loop. *)
Record state : Type := mkState {
  cpu_max_power : Z;
  gpu_max_power : Z;
  cpu_peak_power : Q;
  gpu_peak_power : Q;
  package_peak_power : Q;
  last_timestamp : Q;
  avg_cpu_power_list : deque;
  avg_gpu_power_list : deque;
  count : Z
}.

(** What one accepted reading pushes to the power row of the display
    (chart titles, chart samples and the totals text), with the timestamp
    of the reading it was computed from. *)
Record frame : Type := mkFrame {
  f_timestamp : Q;
  f_cpu_w : Q;
  f_avg_cpu_w : Q;
  f_cpu_peak_power : Q;
  f_cpu_power_pct : Z;
  f_gpu_w : Q;
  f_avg_gpu_w : Q;
  f_gpu_peak_power : Q;
  f_gpu_power_pct : Z;
  f_pkg_w : Q;
  f_package_peak_power : Q
}.

Inductive event : Type :=
  | Restart            (* provider.cleanup + provider.start_monitoring *)
  | Display (f : frame).

(** [int(args.avg / args.interval)]: the quotient of two [int]s as a
    double, truncated toward zero. *)
Definition window_capacity (args : Args) : outcome Z :=
  match Py.int_truediv (avg args) (interval args) with
  | Raise e => Raise e
  | Ret q => Ret (Py.int_of_float q)
  end.

(** [cpu_metrics[key] / args.interval] *)
Definition power_reading (args : Args) (r : reading) (key : string) : outcome Q :=
  match Py.dict_getitem (cpu_metrics r) key with
  | Raise e => Raise e
  | Ret v =>
      match Py.as_number v with
      | Raise e => Raise e
      | Ret raw => Py.truediv raw (interval args)
      end
  end.

(** [min(100, int(w / max_power * 100))] *)
Definition power_pct (w : Q) (max_power : Z) : outcome Z :=
  match Py.float_truediv w max_power with
  | Raise e => Raise e
  | Ret ratio => Ret (Z.min 100 (Py.int_of_float (Py.fmul ratio 100)))
  end.

(** [if w > peak: peak = w] *)
Definition update_peak (peak w : Q) : Q :=
  if float_gt w peak then w else peak.

(** Lines 352-376 and 387: the state the loop starts from, given the first
    reading [get_reading] obtained. *)
Definition main_init (args : Args) (soc : soc_info) (first : reading) : outcome state :=
  let cpu_max := Py.or_default (soc_cpu_max_power soc) 50 in
  let gpu_max := Py.or_default (soc_gpu_max_power soc) 25 in
  match window_capacity args with
  | Raise e => Raise e
  | Ret cap =>
      match deque_new cap with
      | Raise e => Raise e
      | Ret empty =>
          Ret (mkState cpu_max gpu_max 0 0 0 (timestamp first) empty empty 0)
      end
  end.

(** Lines 401-407: restart of the sampling process every [max_count]
    iterations; yields the new [count].  The restart itself
    ([provider.cleanup], a new [timecode], [provider.start_monitoring]) is
    an event; a failure to spawn the process is not modelled. *)
Definition restart_policy (args : Args) (cnt : Z) : Py.M event Z :=
  if 0 <? max_count args then
    if max_count args <=? cnt then
      do _ <- Py.emit Restart ;; Py.ret (0 + 1)
    else Py.ret (cnt + 1)
  else Py.ret cnt.

(** Lines 483-508 for an accepted reading [r]. *)
Definition aggregate (args : Args) (st : state) (r : reading) : Py.M event state :=
  do cpu_w <- Py.lift (power_reading args r "cpu_W") ;;
  do gpu_w <- Py.lift (power_reading args r "gpu_W") ;;
  do pkg_w <- Py.lift (power_reading args r "package_W") ;;
  let cpu_peak := update_peak (cpu_peak_power st) cpu_w in
  let gpu_peak := update_peak (gpu_peak_power st) gpu_w in
  let package_peak := update_peak (package_peak_power st) pkg_w in
  let cpu_list := deque_append (avg_cpu_power_list st) cpu_w in
  let gpu_list := deque_append (avg_gpu_power_list st) gpu_w in
  let avg_cpu_w := get_avg cpu_list in
  let avg_gpu_w := get_avg gpu_list in
  do cpu_power_pct <- Py.lift (power_pct cpu_w (cpu_max_power st)) ;;
  do gpu_power_pct <- Py.lift (power_pct gpu_w (gpu_max_power st)) ;;
  do _ <- Py.emit (Display (mkFrame (timestamp r)
                              cpu_w avg_cpu_w cpu_peak cpu_power_pct
                              gpu_w avg_gpu_w gpu_peak gpu_power_pct
                              pkg_w package_peak)) ;;
  Py.ret (mkState (cpu_max_power st) (gpu_max_power st)
            cpu_peak gpu_peak package_peak (timestamp r)
            cpu_list gpu_list (count st)).

(** [time.sleep(args.interval)]: a negative length is a [ValueError]. *)
Definition sleep (args : Args) : Py.M event unit :=
  if interval args <? 0 then Py.raise ValueError else Py.ret tt.

(** One iteration of [while True] (lines 389-555); [ready] is what
    [provider.get_metrics] returned.  The rows of the display other than
    the power row (lines 418-480 and 510-551) read the reading and the
    operating system and write widgets; they are not modelled, so the
    model covers the readings that carry the keys those rows read, as the
    [get_metrics] contract of base.py promises. *)
Definition loop_body (args : Args) (st : state) (ready : option reading)
  : Py.M event state :=
  do cnt <- restart_policy args (count st) ;;
  let st0 := mkState (cpu_max_power st) (gpu_max_power st)
               (cpu_peak_power st) (gpu_peak_power st) (package_peak_power st)
               (last_timestamp st)
               (avg_cpu_power_list st) (avg_gpu_power_list st) cnt in
  do st1 <- match ready with
            | None => Py.ret st0
            | Some r =>
                if float_gt (timestamp r) (last_timestamp st0)
                then aggregate args st0 r
                else Py.ret st0
            end ;;
  do _ <- sleep args ;;
  Py.ret st1.

(** The loop over a finite sequence of polls. *)
Fixpoint run (args : Args) (st : state) (polls : list (option reading))
  : Py.M event state :=
  match polls with
  | [] => Py.ret st
  | ready :: rest => do st' <- loop_body args st ready ;; run args st' rest
  end.

(** [main.get_reading]: poll until the provider has a reading.  [None] when
    the given polls are exhausted before one arrives. *)
Fixpoint get_reading (polls : list (option reading))
  : option (reading * list (option reading)) :=
  match polls with
  | [] => None
  | None :: rest => get_reading rest
  | Some r :: rest => Some (r, rest)
  end.

(** [main] from line 352 on, over a finite sequence of polls. *)
Definition session (args : Args) (soc : soc_info) (polls : list (option reading))
  : Py.M event (option state) :=
  match get_reading polls with
  | None => Py.ret None
  | Some (first, rest) =>
      do st <- Py.lift (main_init args soc first) ;;
      do st' <- run args st rest ;;
      Py.ret (Some st')
  end.

(** The frames and the timestamps of the accepted readings in a log. *)
Definition frames (log : list event) : list frame :=
  omap (fun ev => match ev with Display f => Some f | Restart => None end) log.

Definition accepted_timestamps (log : list event) : list Q :=
  map f_timestamp (frames log).

(** ** String helpers ([in], [str.lower], [str.strip], [str.split]) *)

(** [needle in hay] *)
Fixpoint contains (needle hay : string) : bool :=
  String.prefix needle hay ||
  match hay with
  | EmptyString => false
  | String _ rest => contains needle rest
  end.

Definition lower_ascii (c : ascii) : ascii :=
  let n := nat_of_ascii c in
  if (65 <=? n)%nat && (n <=? 90)%nat then ascii_of_nat (n + 32) else c.

(** [s.lower()] on ASCII letters. *)
Fixpoint lower (s : string) : string :=
  match s with
  | EmptyString => EmptyString
  | String c rest => String (lower_ascii c) (lower rest)
  end.

(** The ASCII characters [str.isspace] accepts. *)
Definition isspace (c : ascii) : bool :=
  let n := nat_of_ascii c in
  ((9 <=? n)%nat && (n <=? 13)%nat) || ((28 <=? n)%nat && (n <=? 32)%nat).

Fixpoint lstrip (s : string) : string :=
  match s with
  | EmptyString => EmptyString
  | String c rest => if isspace c then lstrip rest else s
  end.

Fixpoint rstrip (s : string) : string :=
  match s with
  | EmptyString => EmptyString
  | String c rest =>
      match rstrip rest with
      | EmptyString => if isspace c then EmptyString else String c EmptyString
      | kept => String c kept
      end
  end.

(** [s.strip()] *)
Definition strip (s : string) : string := rstrip (lstrip s).

Fixpoint has_char (sep : ascii) (s : string) : bool :=
  match s with
  | EmptyString => false
  | String c rest => Ascii.eqb c sep || has_char sep rest
  end.

(** [s.split(sep)[-1]] for a one-character separator. *)
Fixpoint last_field (sep : ascii) (s : string) : string :=
  match s with
  | EmptyString => EmptyString
  | String c rest =>
      if has_char sep rest then last_field sep rest
      else if Ascii.eqb c sep then rest else s
  end.

(** ** apple_silicon.py: the static per-chip tables *)

Definition with_power_limits (soc : soc_info) (cpu gpu : Z) : soc_info :=
  mkSoc (soc_name soc) (soc_core_count soc) (Some cpu) (Some gpu)
    (soc_cpu_max_bw soc) (soc_gpu_max_bw soc)
    (soc_e_core_count soc) (soc_p_core_count soc) (soc_gpu_core_count soc).

Definition with_bandwidth_limits (soc : soc_info) (cpu gpu : Z) : soc_info :=
  mkSoc (soc_name soc) (soc_core_count soc)
    (soc_cpu_max_power soc) (soc_gpu_max_power soc) (Some cpu) (Some gpu)
    (soc_e_core_count soc) (soc_p_core_count soc) (soc_gpu_core_count soc).

(** [AppleSiliconProvider._set_power_limits] *)
Definition _set_power_limits (soc : soc_info) : soc_info :=
  let name := soc_name soc in
  if String.eqb name "Apple M1 Max" then with_power_limits soc 30 60
  else if String.eqb name "Apple M1 Pro" then with_power_limits soc 30 30
  else if String.eqb name "Apple M1" then with_power_limits soc 20 20
  else if String.eqb name "Apple M1 Ultra" then with_power_limits soc 60 120
  else if String.eqb name "Apple M2" then with_power_limits soc 25 15
  else if contains "M3" name then with_power_limits soc 30 30
  else if contains "M4" name then with_power_limits soc 35 35
  else with_power_limits soc 20 20.

(** [AppleSiliconProvider._set_bandwidth_limits] *)
Definition _set_bandwidth_limits (soc : soc_info) : soc_info :=
  let name := soc_name soc in
  if String.eqb name "Apple M1 Max" then with_bandwidth_limits soc 250 400
  else if String.eqb name "Apple M1 Pro" then with_bandwidth_limits soc 200 200
  else if String.eqb name "Apple M1" then with_bandwidth_limits soc 70 70
  else if String.eqb name "Apple M1 Ultra" then with_bandwidth_limits soc 500 800
  else if String.eqb name "Apple M2" then with_bandwidth_limits soc 100 100
  else with_bandwidth_limits soc 70 70.

(** [AppleSiliconProvider.get_soc_info], from the values the probes
    ([sysctl], [system_profiler]) delivered. *)
Definition apple_get_soc_info (brand_string : string) (core_count : Z)
    (e_core_count p_core_count gpu_core_count : option Z) : soc_info :=
  let soc := mkSoc brand_string core_count None None None None
               e_core_count p_core_count gpu_core_count in
  _set_bandwidth_limits (_set_power_limits soc).

(** ** intel.py: [IntelProvider] *)

(** [IntelProvider._estimate_tdp], on the brand string found by [sysctl]
    ([None]: the key is absent and [.get] falls back to the empty string). *)
Definition _estimate_tdp (brand_string : option string) : option Z :=
  let brand := lower (default EmptyString brand_string) in
  if contains "i9" brand then Some 45
  else if contains "i7" brand then Some 35
  else if contains "i5" brand then Some 28
  else if contains "i3" brand then Some 15
  else if contains "xeon" brand then Some 65
  else Some 25.

(** [IntelProvider.get_soc_info] *)
Definition intel_get_soc_info (brand_string : option string) (core_count : Z) : soc_info :=
  mkSoc (default "Intel CPU"%string brand_string) core_count
    (_estimate_tdp brand_string) None None None
    (Some 0) (Some core_count) None.

(** What the operating system answers during one [get_metrics] call. *)
Record intel_env : Type := mkIntelEnv {
  time_time : Q;                        (* time.time() *)
  cpu_percent : outcome (list Q);       (* psutil.cpu_percent(percpu=True, interval=0.1) *)
  cpu_freq_percpu : outcome (list Q);   (* psutil.cpu_freq(percpu=True): [current] of each entry *)
  cpu_freq_all : outcome (option Q);    (* psutil.cpu_freq(): [current], or [None] *)
  thermal_sysctl : outcome string       (* os.popen('sysctl machdep.xcpm.cpu_thermal_level').read() *)
}.

(** [IntelProvider._get_thermal_status] *)
Definition _get_thermal_status (env : intel_env) : string :=
  match thermal_sysctl env with
  | Ret (String c rest) =>
      ("Thermal Level " +:+ strip (last_field ":" (String c rest)))%string
  | _ => "Nominal"%string
  end.

(** The per-core loop of [get_metrics], from index [i] on. *)
Fixpoint add_per_core (i : nat) (cores : list (Q * Q)) (d : pydict) : pydict :=
  match cores with
  | [] => d
  | (percent, freq) :: rest =>
      let d1 := <[ ("P-Cluster" +:+ pretty i +:+ "_active")%string
                   := VInt (Py.int_of_float percent) ]> d in
      let d2 := <[ ("P-Cluster" +:+ pretty i +:+ "_freq_Mhz")%string
                   := VInt (Py.int_of_float freq) ]> d1 in
      add_per_core (S i) rest d2
  end.

(** The list of per-core frequencies [get_metrics] settles on. *)
Definition settle_cpu_freq (env : intel_env) (n : nat) (cpu_freq : list Q)
  : outcome (list Q) :=
  match cpu_freq with
  | [] =>
      match cpu_freq_all env with
      | Raise e => Raise e
      | Ret (Some freq_all) => Ret (replicate n freq_all)
      | Ret None => Ret (replicate n 0%Q)
      end
  | [single] => if (1 <? n)%nat then Ret (replicate n single) else Ret cpu_freq
  | _ => Ret cpu_freq
  end.

(** The body of the [try] of [IntelProvider.get_metrics]. *)
Definition intel_metrics_body (env : intel_env) : outcome reading :=
  let ts := time_time env in
  match cpu_percent env with
  | Raise e => Raise e
  | Ret per_cpu_percent =>
  match cpu_freq_percpu env with
  | Raise e => Raise e
  | Ret cpu_freq0 =>
  match settle_cpu_freq env (length per_cpu_percent) cpu_freq0 with
  | Raise e => Raise e
  | Ret cpu_freq =>
      let base : pydict :=
        <[ "ane_W"%string := VFloat 0 ]>
        (<[ "package_W"%string := VFloat 0 ]>
        (<[ "gpu_W"%string := VFloat 0 ]>
        (<[ "cpu_W"%string := VFloat 0 ]>
        (<[ "p_core"%string := VList (map Z.of_nat (seq 0 (length per_cpu_percent))) ]>
        (<[ "e_core"%string := VList [] ]> ∅))))) in
      let per_core := add_per_core 0 (zip per_cpu_percent cpu_freq) base in
      let gpu : pydict :=
        <[ "active"%string := VInt 0 ]> (<[ "freq_MHz"%string := VInt 0 ]> ∅) in
      match per_cpu_percent with
      | [] =>
          let cpu := <[ "P-Cluster_freq_Mhz"%string := VInt 0 ]>
                     (<[ "P-Cluster_active"%string := VInt 0 ]> per_core) in
          Ret (mkReading cpu gpu (_get_thermal_status env) None ts)
      | _ =>
          let n := Z.of_nat (length per_cpu_percent) in
          match Py.float_truediv (py_sum per_cpu_percent) n with
          | Raise e => Raise e
          | Ret avg_active =>
              let total := fold_left Z.add (map Py.int_of_float cpu_freq) 0 in
              match Py.int_truediv_in_range total (Z.of_nat (length cpu_freq)) with
              | Raise e => Raise e
              | Ret avg_freq =>
                  let cpu := <[ "P-Cluster_freq_Mhz"%string := VInt (Py.int_of_float avg_freq) ]>
                             (<[ "P-Cluster_active"%string := VInt (Py.int_of_float avg_active) ]>
                              per_core) in
                  Ret (mkReading cpu gpu (_get_thermal_status env) None ts)
              end
          end
      end
  end end end.

(** [IntelProvider.get_metrics]: any exception is printed and turned
    into [None]. *)
Definition intel_get_metrics (env : intel_env) : Py.M string (option reading) :=
  Py.try_except
    (do r <- Py.lift (intel_metrics_body env) ;; Py.ret (Some r))
    (fun _ => do _ <- Py.emit "Error getting Intel metrics"%string ;; Py.ret None).

(** ** factory.py *)

Inductive provider : Type :=
  | AppleSiliconProvider
  | IntelProvider.

(** What the host answers to the probes of [detect_architecture]. *)
Record host : Type := mkHost {
  platform_system : string;           (* platform.system() *)
  brand_string : outcome string;      (* os.popen('sysctl -n machdep.cpu.brand_string').read() *)
  platform_machine : string           (* platform.machine() *)
}.

(** [detect_architecture] *)
Definition detect_architecture (h : host) : Py.M string string :=
  do found <- Py.try_except
      (if negb (String.eqb (platform_system h) "Darwin") then Py.ret (Some "unknown"%string)
       else
         do raw <- Py.lift (brand_string h) ;;
         let result := strip raw in
         if contains "Apple" result then Py.ret (Some "apple_silicon"%string)
         else if contains "Intel" result then Py.ret (Some "intel"%string)
         else
           let machine := lower (platform_machine h) in
           if String.eqb machine "arm64" || String.eqb machine "aarch64"
           then Py.ret (Some "apple_silicon"%string)
           else if String.eqb machine "x86_64" || String.eqb machine "i386"
                   || String.eqb machine "i686"
           then Py.ret (Some "intel"%string)
           else Py.ret None)
      (fun _ =>
         do _ <- Py.emit "Warning: Could not detect architecture"%string ;;
         Py.ret None) ;;
  match found with
  | Some arch => Py.ret arch
  | None => Py.ret "unknown"%string
  end.

(** The message of the [RuntimeError] of [get_system_provider]. *)
Definition unsupported_message (arch : string) (h : host) : string :=
  ("Unsupported or unknown architecture: " +:+ arch +:+ String "010" (
   "vtop currently supports Apple Silicon and Intel CPUs on macOS." +:+ String "010" (
   "Detected system: " +:+ platform_system h +:+ " " +:+ platform_machine h)))%string.

(** [get_system_provider]; [force] is the optional override, where the
    empty string is falsy like [None]. *)
Definition get_system_provider (force : option string) (h : host)
  : Py.M string provider :=
  do arch <- match force with
             | Some (String c rest) => Py.ret (String c rest)
             | _ => detect_architecture h
             end ;;
  if String.eqb arch "apple_silicon" then Py.ret AppleSiliconProvider
  else if String.eqb arch "intel" then Py.ret IntelProvider
  else Py.raise (RuntimeError (unsupported_message arch h)).

(** ** Notions used to state the properties *)


(** The last [n] elements of a list. *)
Definition last_n {A} (n : nat) (l : list A) : list A :=
  drop (length l - n) l.

(** The peaks a tracker starting at [p] shows after each of the pushes. *)
Fixpoint peak_trace (p : Q) (ws : list Q) : list Q :=
  match ws with
  | [] => []
  | w :: rest => update_peak p w :: peak_trace (update_peak p w) rest
  end.

(** The aggregation state of the loop: everything but the restart counter. *)
Definition same_aggregation (s1 s2 : state) : Prop :=
  cpu_max_power s1 = cpu_max_power s2 /\
  gpu_max_power s1 = gpu_max_power s2 /\
  cpu_peak_power s1 = cpu_peak_power s2 /\
  gpu_peak_power s1 = gpu_peak_power s2 /\
  package_peak_power s1 = package_peak_power s2 /\
  last_timestamp s1 = last_timestamp s2 /\
  avg_cpu_power_list s1 = avg_cpu_power_list s2 /\
  avg_gpu_power_list s1 = avg_gpu_power_list s2.

(** A reading of the uniform-core provider: what some successful call of
    [IntelProvider.get_metrics] returned. *)
Definition intel_reading (r : reading) : Prop :=
  exists env, Py.result (intel_get_metrics env) = Ret (Some r).

(** The power limits [_set_power_limits] stores for a chip name. *)
Definition power_limits_of (name : string) : option Z * option Z :=
  let soc := _set_power_limits (mkSoc name 0 None None None None None None None) in
  (soc_cpu_max_power soc, soc_gpu_max_power soc).

(** The five names [_set_power_limits] compares with [==]. *)
Definition exact_names : list string :=
  ["Apple M1 Max"; "Apple M1 Pro"; "Apple M1"; "Apple M1 Ultra"; "Apple M2"]%string.

(** The state after a frame [f] was displayed from state [st]. *)
Definition after_frame (st : state) (f : frame) : state :=
  mkState (cpu_max_power st) (gpu_max_power st)
    (f_cpu_peak_power f) (f_gpu_peak_power f) (f_package_peak_power f)
    (f_timestamp f)
    (deque_append (avg_cpu_power_list st) (f_cpu_w f))
    (deque_append (avg_gpu_power_list st) (f_gpu_w f))
    (count st).

(** The instantaneous watt values of a frame are those read from [r]. *)
Definition frame_reads (args : Args) (r : reading) (f : frame) : Prop :=
  f_timestamp f = timestamp r /\
  power_reading args r "cpu_W" = Ret (f_cpu_w f) /\
  power_reading args r "gpu_W" = Ret (f_gpu_w f) /\
  power_reading args r "package_W" = Ret (f_pkg_w f).

(** A frame that shows no power at all. *)
Definition zero_frame (f : frame) : Prop :=
  (f_cpu_w f == 0 /\ f_avg_cpu_w f == 0 /\ f_cpu_peak_power f == 0)%Q /\
  f_cpu_power_pct f = 0 /\
  (f_gpu_w f == 0 /\ f_avg_gpu_w f == 0 /\ f_gpu_peak_power f == 0)%Q /\
  f_gpu_power_pct f = 0 /\
  (f_pkg_w f == 0 /\ f_package_peak_power f == 0)%Q.

(** A state whose peaks and windows hold nothing but zeros. *)
Definition zero_state (st : state) : Prop :=
  (cpu_peak_power st == 0 /\ gpu_peak_power st == 0 /\ package_peak_power st == 0)%Q /\
  Forall (fun x => x == 0)%Q (items (avg_cpu_power_list st)) /\
  Forall (fun x => x == 0)%Q (items (avg_gpu_power_list st)).

(** The numbers of a frame computed from state [st], as functions of the
    state and of the three instantaneous watt values. *)
Definition frame_values (st : state) (f : frame) : Prop :=
  f_cpu_peak_power f = update_peak (cpu_peak_power st) (f_cpu_w f) /\
  f_gpu_peak_power f = update_peak (gpu_peak_power st) (f_gpu_w f) /\
  f_package_peak_power f = update_peak (package_peak_power st) (f_pkg_w f) /\
  f_avg_cpu_w f = get_avg (deque_append (avg_cpu_power_list st) (f_cpu_w f)) /\
  f_avg_gpu_w f = get_avg (deque_append (avg_gpu_power_list st) (f_gpu_w f)) /\
  power_pct (f_cpu_w f) (cpu_max_power st) = Ret (f_cpu_power_pct f) /\
  power_pct (f_gpu_w f) (gpu_max_power st) = Ret (f_gpu_power_pct f).

(** One frame displayed from state [st]: its reading is newer than the
    last accepted one. *)
Definition frame_from (st : state) (f : frame) : Prop :=
  float_gt (f_timestamp f) (last_timestamp st) = true /\ frame_values st f.

(** A sequence of frames displayed one after the other from state [st]. *)
Fixpoint frames_follow (st : state) (fs : list frame) : Prop :=
  match fs with
  | [] => True
  | f :: rest => frame_from st f /\ frames_follow (after_frame st f) rest
  end.

(** A name made of [n] letters x, and the longest key of a table. *)
Fixpoint padding (n : nat) : string :=
  match n with
  | O => EmptyString
  | S k => String "x" (padding k)
  end.

Definition max_key_length {V} (table : list (string * V)) : nat :=
  fold_right (fun kv m => Nat.max (String.length (fst kv)) m) 0%nat table.

(** ** The statements of the specification, as written there *)

Module Spec.

(** "round": to the nearest integer (ties upward). *)
Definition round (x : Q) : Z := Qfloor (x + (1 # 2)).

(** "min(100, round(instantaneous / max_draw * 100))" *)
Definition power_pct (instantaneous : Q) (max_draw : Z) : Z :=
  Z.min 100 (round (instantaneous / inject_Z max_draw * 100)).

(** "capacity = averaging_interval / sampling_interval, minimum 1" *)
Definition window_capacity (averaging_interval sampling_interval : Z) : Z :=
  Z.max 1 (Z.quot averaging_interval sampling_interval).

(** "keyed by exact chip name with a conservative default for unrecognized
    names": a finite table searched for a key equal to the name. *)
Fixpoint table_lookup (table : list (string * (option Z * option Z)))
    (dflt : option Z * option Z) (name : string) : option Z * option Z :=
  match table with
  | [] => dflt
  | (key, limits) :: rest =>
      if String.eqb key name then limits else table_lookup rest dflt name
  end.

(** "explicit override wins; otherwise probe host CPU identification
    string for known vendor substrings; fall back to machine-type string
    (normalizing known synonym pairs)": the architecture tag, with no
    regard to the operating system. *)
Definition architecture_tag (override : option string) (brand machine : string)
  : string :=
  match override with
  | Some tag => tag
  | None =>
      if contains "Apple" brand then "apple_silicon"
      else if contains "Intel" brand then "intel"
      else if String.eqb (lower machine) "arm64" || String.eqb (lower machine) "aarch64"
      then "apple_silicon"
      else if String.eqb (lower machine) "x86_64" || String.eqb (lower machine) "i386"
              || String.eqb (lower machine) "i686"
      then "intel"
      else "unknown"
  end%string.

(** "resets to the first pushed value only immediately after an explicit
    session restart": the frame displayed right after a restart shows the
    pushed values as the peaks. *)
Fixpoint peaks_reset_on_restart (log : list event) : Prop :=
  match log with
  | Restart :: ((Display f :: _) as rest) =>
      (f_cpu_peak_power f == f_cpu_w f /\
       f_gpu_peak_power f == f_gpu_w f /\
       f_package_peak_power f == f_pkg_w f)%Q /\
      peaks_reset_on_restart rest
  | _ :: rest => peaks_reset_on_restart rest
  | [] => True
  end.

End Spec.

(** ** A small decoder and sample data for the worked examples *)

Module Demo.

(** A record is one byte, holding the timestamp; anything else is
    malformed. *)
Definition loads (blob : bytes) : outcome Z :=
  match blob with
  | [b] => Ret (Z.of_N (Byte.to_N b))
  | _ => Raise InvalidFileException
  end.

Definition thermal (_ : Z) : outcome string := Ret "Nominal"%string.
Definition no_metrics (_ : Z) : outcome pydict := Ret ∅.
Definition stamp (p : Z) : outcome Q := Ret (inject_Z p).

Definition get_metrics := get_metrics Z loads thermal no_metrics no_metrics stamp.
Definition parse_record := parse_record Z loads thermal no_metrics no_metrics stamp.

(** A reading with the given timestamp and the same raw watts in the
    three power fields. *)
Definition sample (ts w : Q) : reading :=
  mkReading
    (<[ "cpu_W"%string := VFloat w ]>
     (<[ "gpu_W"%string := VFloat w ]>
      (<[ "package_W"%string := VFloat w ]> ∅)))
    ∅ "Nominal" None ts.

Definition m1_max : soc_info :=
  apple_get_soc_info "Apple M1 Max" 10 (Some 2) (Some 8) (Some 32).

Definition args_default : Args := mkArgs 1 2 30 0.

Definition state0 : state :=
  mkState 30 60 0 0 0 0 (mkDeque [] 2) (mkDeque [] 2) 0.

(** A run that restarts the sampling process before every iteration but
    the first, fed a reading of 9 W and then one of 5 W. *)
Definition restart_args : Args := mkArgs 1 2 30 1.

Definition restart_polls : list (option reading) :=
  [Some (sample 1 9); Some (sample 2 5)].

Definition no_frame : frame := mkFrame 0 0 0 0 0 0 0 0 0 0 0.

Definition frame_9W : frame :=
  Eval vm_compute in
    nth 0 (frames (Py.events (run restart_args state0 restart_polls))) no_frame.

Definition frame_5W : frame :=
  Eval vm_compute in
    nth 1 (frames (Py.events (run restart_args state0 restart_polls))) no_frame.

(** A Linux machine on 64-bit ARM: [sysctl] prints nothing there. *)
Definition linux_aarch64 : host := mkHost "Linux" (Ret ""%string) "aarch64".

(** A Mac whose brand string names no vendor. *)
Definition darwin_arm64 : host := mkHost "Darwin" (Ret ""%string) "arm64".

Definition idle_env : intel_env :=
  mkIntelEnv 5 (Ret [10#1; 55#2]) (Ret [2400#1]) (Ret None) (Ret ""%string).

(** What [IntelProvider.get_metrics] returns in that environment. *)
Definition idle_reading : reading :=
  Eval vm_compute in
    match Py.result (intel_get_metrics idle_env) with
    | Ret (Some r) => r
    | _ => sample 0 0
    end.

(** The same machine polled at another time, with other loads. *)
Definition busy_env (t : Q) : intel_env :=
  mkIntelEnv t (Ret [40#1; 80#1]) (Ret [2400#1]) (Ret None) (Ret ""%string).

Definition busy_reading (t : Q) : reading :=
  match Py.result (intel_get_metrics (busy_env t)) with
  | Ret (Some r) => r
  | _ => sample 0 0
  end.

(** A session on that machine: the first reading is stamped 5, and two
    later ones, stamped 6 and 7, arrive around an idle poll. *)
Definition intel_polls : list (option reading) :=
  [Some idle_reading; None; Some (busy_reading 6); None; Some (busy_reading 7)].

End Demo.

(** ** Further notions used to state properties *)

(** The number of separators in a buffer. *)
Fixpoint count_sep (sep : byte) (data : bytes) : nat :=
  match data with
  | [] => O
  | b :: rest => if is_sep sep b then S (count_sep sep rest) else count_sep sep rest
  end.

(** The readings among the polls, in order. *)
Definition readings_of (polls : list (option reading)) : list reading :=
  omap (fun p => p) polls.

(** The part of an iteration that follows the restart decision, for the
    counter value [cnt] the decision left. *)
Definition loop_after_restart (args : Args) (st : state) (cnt : Z)
    (ready : option reading) : Py.M event state :=
  let st0 := mkState (cpu_max_power st) (gpu_max_power st)
               (cpu_peak_power st) (gpu_peak_power st) (package_peak_power st)
               (last_timestamp st)
               (avg_cpu_power_list st) (avg_gpu_power_list st) cnt in
  do st1 <- match ready with
            | None => Py.ret st0
            | Some r =>
                if float_gt (timestamp r) (last_timestamp st0)
                then aggregate args st0 r
                else Py.ret st0
            end ;;
  do _ <- sleep args ;;
  Py.ret st1.

(** The number of restarts of the sampling process in a log. *)
Fixpoint restart_count (log : list event) : Z :=
  match log with
  | [] => 0
  | Restart :: rest => 1 + restart_count rest
  | Display _ :: rest => restart_count rest
  end.

(** The bandwidth limits [_set_bandwidth_limits] stores for a chip name,
    and the table it amounts to. *)
Definition bandwidth_limits_of (name : string) : option Z * option Z :=
  let soc := _set_bandwidth_limits (mkSoc name 0 None None None None None None None) in
  (soc_cpu_max_bw soc, soc_gpu_max_bw soc).

Definition bandwidth_table : list (string * (option Z * option Z)) :=
  [("Apple M1 Max", (Some 250, Some 400));
   ("Apple M1 Pro", (Some 200, Some 200));
   ("Apple M1", (Some 70, Some 70));
   ("Apple M1 Ultra", (Some 500, Some 800));
   ("Apple M2", (Some 100, Some 100))]%string.

(** factory.py: [list_supported_architectures] *)
Definition list_supported_architectures : list string :=
  ["apple_silicon"; "intel"]%string.

(** The architecture tag [get_system_provider] decides on. *)
Definition selected_tag (force : option string) (h : host) : outcome string :=
  match force with
  | Some (String c rest) => Ret (String c rest)
  | _ => Py.result (detect_architecture h)
  end.

(** Decimal digits, and strings made of them. *)
Definition is_digit (c : ascii) : bool :=
  let n := nat_of_ascii c in (48 <=? n)%nat && (n <=? 57)%nat.

Fixpoint all_digits (s : string) : bool :=
  match s with
  | EmptyString => true
  | String c rest => is_digit c && all_digits rest
  end.

(** The texts whose characters are all ASCII: on these [isspace],
    [is_digit] and [lower] are [str.isspace], [str.isdigit] and
    [str.lower]. *)
Fixpoint is_ascii (s : string) : bool :=
  match s with
  | EmptyString => true
  | String c rest => (nat_of_ascii c <? 128)%nat && is_ascii rest
  end.

(** The key of a per-core entry of [cpu_metrics]. *)
Definition core_key (i : nat) (suffix : string) : string :=
  ("P-Cluster" +:+ pretty i +:+ suffix)%string.

(** Whether a string ends with a character [str.strip] keeps. *)
Fixpoint ends_nonspace (s : string) : bool :=
  match s with
  | EmptyString => false
  | String c EmptyString => negb (isspace c)
  | String _ rest => ends_nonspace rest
  end.

Definition starts_nonspace (s : string) : bool :=
  match s with
  | EmptyString => false
  | String c _ => negb (isspace c)
  end.

(** The entries [IntelProvider.get_metrics] starts [cpu_metrics] with, for
    [n] cores, and its [gpu_metrics]. *)
Definition intel_base_metrics (n : nat) : pydict :=
  <[ "ane_W"%string := VFloat 0 ]>
  (<[ "package_W"%string := VFloat 0 ]>
  (<[ "gpu_W"%string := VFloat 0 ]>
  (<[ "cpu_W"%string := VFloat 0 ]>
  (<[ "p_core"%string := VList (map Z.of_nat (seq 0 n)) ]>
  (<[ "e_core"%string := VList [] ]> ∅))))).

Definition intel_gpu_metrics : pydict :=
  <[ "active"%string := VInt 0 ]> (<[ "freq_MHz"%string := VInt 0 ]> ∅).

(** The cluster figures [IntelProvider.get_metrics] computes. *)
Definition intel_cluster_active (per_cpu_percent : list Q) : Z :=
  match per_cpu_percent with
  | [] => 0
  | _ => Py.int_of_float
           (Py.fdiv (py_sum per_cpu_percent)
                    (Py.float_of_int (Z.of_nat (length per_cpu_percent))))
  end.

Definition intel_cluster_freq (per_cpu_percent cpu_freq : list Q) : Z :=
  match per_cpu_percent with
  | [] => 0
  | _ => Py.int_of_float
           (fl (inject_Z (fold_left Z.add (map Py.int_of_float cpu_freq) 0)
                / inject_Z (Z.of_nat (length cpu_freq))))
  end.

(** The probes of [IntelProvider.get_metrics] that can make it fail. *)
Definition intel_probe_fails (env : intel_env) : Prop :=
  (exists e, cpu_percent env = Raise e) \/
  (exists e, cpu_freq_percpu env = Raise e) \/
  (cpu_freq_percpu env = Ret [] /\ exists e, cpu_freq_all env = Raise e).

(** vtop.py line 511: the thermal part of the system text. *)
Definition throttle (thermal_pressure : string) : string :=
  if String.eqb thermal_pressure "Nominal" then "OK"%string
  else ("THROTTLE: " +:+ thermal_pressure)%string.

(** The tag [detect_architecture] settles on for a Mac, from the brand
    string and the machine type. *)
Definition darwin_tag (brand machine : string) : string :=
  (if contains "Apple" brand then "apple_silicon"
   else if contains "Intel" brand then "intel"
   else if String.eqb (lower machine) "arm64" || String.eqb (lower machine) "aarch64"
   then "apple_silicon"
   else if String.eqb (lower machine) "x86_64" || String.eqb (lower machine) "i386"
           || String.eqb (lower machine) "i686"
   then "intel"
   else "unknown")%string.

(** ** vtop.py: the layout of the core charts (lines 241-278) *)

(** The titles of [HChart(title=f"E{i}") for i in range(n)]. *)
Definition core_charts (label : string) (n : Z) : list string :=
  map (fun i : nat => (label +:+ pretty i)%string) (seq 0 (Z.to_nat n)).

(** The rows of the [CPU Cores] column, each row the titles of its
    charts.  A core count is [None] when the provider reports ["?"]:
    comparing it with [0], like [range] of it, is a [TypeError]. *)
Definition cpu_cores_layout (e_core_count p_core_count : option Z)
  : outcome (list (list string)) :=
  match e_core_count with
  | None => Raise TypeError
  | Some e =>
      let e_core_charts := if 0 <? e then core_charts "E" e else [] in
      match p_core_count with
      | None => Raise TypeError
      | Some p =>
          let p_core_charts := core_charts "P" p in
          let half := Z.to_nat ((p + 1) / 2) in
          if e =? 0 then
            if p <=? 8 then Ret [p_core_charts]
            else Ret [firstn half p_core_charts; skipn half p_core_charts]
          else if p <=? 4 then Ret [e_core_charts; p_core_charts]
          else Ret [e_core_charts; firstn half p_core_charts; skipn half p_core_charts]
      end
  end.

(** ** vtop.py: the helpers of the system column *)

(** [x // d] and [x % d] for a double [x] with [0 <= x < 2^53] and a
    positive [int] constant: the floor of the quotient, as a float, and
    what is left of [x].  On this range both are exact: the remainder of
    two doubles is a double, and the multiple of [d] below [x] is an
    integer below [2^53]. *)
Definition floordiv (x : Q) (d : Z) : Q := inject_Z (Qfloor (x / inject_Z d)).

Definition pymod (x : Q) (d : Z) : Q := (x - inject_Z d * floordiv x d)%Q.

(** The three numbers [get_uptime] prints. *)
Definition uptime_fields (uptime_seconds : Q) : Z * Z * Z :=
  let days := Py.int_of_float (floordiv uptime_seconds 86400) in
  let hours := Py.int_of_float (floordiv (pymod uptime_seconds 86400) 3600) in
  let mins := Py.int_of_float (floordiv (pymod uptime_seconds 3600) 60) in
  (days, hours, mins).

(** [get_uptime], from the answers of [psutil.boot_time()] and
    [time.time()]. *)
Definition get_uptime (boot_time : outcome Q) (now : Q) : string :=
  match boot_time with
  | Raise _ => "N/A"%string
  | Ret boot =>
      let '(days, hours, mins) := uptime_fields (fl (now - boot)) in
      if 0 <? days
      then (pretty days +:+ "d " +:+ pretty hours +:+ "h " +:+ pretty mins +:+ "m")%string
      else if 0 <? hours
      then (pretty hours +:+ "h " +:+ pretty mins +:+ "m")%string
      else (pretty mins +:+ "m")%string
  end.

(** What [psutil.sensors_battery()] reports. *)
Record battery : Type := mkBattery {
  bat_percent : Q;
  power_plugged : bool;
  secsleft : Z
}.

(** The dictionary [get_battery_info] returns when a battery is there. *)
Record battery_info : Type := mkBatteryInfo {
  bi_percent : Q;
  bi_status : string;
  bi_time : string;
  bi_plugged : bool
}.

Section Battery.

(** The two sentinels of [psutil] for [secsleft]. *)
Variables POWER_TIME_UNLIMITED POWER_TIME_UNKNOWN : Z.

Definition battery_time (secs_left : Z) : string :=
  if secs_left =? POWER_TIME_UNLIMITED then "Unlimited"%string
  else if (secs_left =? POWER_TIME_UNKNOWN) || (secs_left <? 0)
  then "Calculating..."%string
  else (pretty (secs_left / 3600) +:+ "h "
        +:+ pretty ((secs_left mod 3600) / 60) +:+ "m left")%string.

(** [get_battery_info]; [None] stands for [{"available": False}]. *)
Definition get_battery_info (sensors_battery : outcome (option battery))
  : option battery_info :=
  match sensors_battery with
  | Ret (Some b) =>
      Some (mkBatteryInfo (bat_percent b)
              (if power_plugged b then "Charging" else "Discharging")
              (battery_time (secsleft b)) (power_plugged b))
  | _ => None
  end.

End Battery.

(** One entry of [psutil.process_iter(['pid', 'name', 'cpu_percent'])];
    [cpu_percent] is [None] when the process could not be read. *)
Record pinfo : Type := mkPinfo {
  pid : Z;
  pname : string;
  p_cpu_percent : option Q
}.

(** [pinfo['cpu_percent'] > 0], where comparing [None] raises and the
    process is skipped. *)
Definition busy (p : pinfo) : bool :=
  match p_cpu_percent p with
  | Some c => float_gt c 0
  | None => false
  end.

Definition sort_key (p : pinfo) : Q := default 0%Q (p_cpu_percent p).

(** [procs.sort(key=..., reverse=True)]: descending and stable, entries
    with equal keys keep their order. *)
Fixpoint insert_desc (x : pinfo) (l : list pinfo) : list pinfo :=
  match l with
  | [] => [x]
  | y :: rest =>
      if float_gt (sort_key y) (sort_key x) then y :: insert_desc x rest
      else x :: l
  end.

Definition sort_desc (l : list pinfo) : list pinfo := foldr insert_desc [] l.

(** [l[:n]] *)
Definition slice_to {A} (n : Z) (l : list A) : list A :=
  if 0 <=? n then firstn (Z.to_nat n) l
  else firstn (length l - Z.to_nat (- n)) l.

(** [get_top_processes] *)
Definition get_top_processes (n : Z) (process_iter : outcome (list pinfo))
  : list pinfo :=
  match process_iter with
  | Raise _ => []
  | Ret ps => slice_to n (sort_desc (filter (fun p => busy p = true) ps))
  end.

(** [s.split(sep)] for a one-character separator. *)
Fixpoint split_on (sep : ascii) (s : string) : list string :=
  match s with
  | EmptyString => [EmptyString]
  | String c rest =>
      if Ascii.eqb c sep then EmptyString :: split_on sep rest
      else match split_on sep rest with
           | [] => [String c EmptyString]
           | field :: fields => String c field :: fields
           end
  end.

(** [''.join(filter(str.isdigit, s))] on ASCII text. *)
Fixpoint keep_digits (s : string) : string :=
  match s with
  | EmptyString => EmptyString
  | String c rest => if is_digit c then String c (keep_digits rest) else keep_digits rest
  end.

Definition digit_value (c : ascii) : Z := Z.of_nat (nat_of_ascii c) - 48.

Fixpoint digits_value (acc : Z) (s : string) : Z :=
  match s with
  | EmptyString => acc
  | String c rest => digits_value (10 * acc + digit_value c) rest
  end.

(** [int(s)] for a string of decimal digits; the empty string is a
    [ValueError]. *)
Definition int_of_digits (s : string) : outcome Z :=
  match s with
  | EmptyString => Raise ValueError
  | _ => Ret (digits_value 0 s)
  end.

(** The dictionary [get_memory_pressure] returns. *)
Record pressure : Type := mkPressure {
  pr_level : string;
  pr_percent : Z;
  pr_color : string
}.

Definition pressure_of_free (pct : Z) : pressure :=
  if 75 <? pct then mkPressure "Normal" (100 - pct) "green"
  else if 50 <? pct then mkPressure "Moderate" (100 - pct) "yellow"
  else mkPressure "High" (100 - pct) "red".

(** The loop over the lines of the output: the first line that mentions
    the free percentage decides. *)
Fixpoint pressure_of_lines (lines : list string) : outcome (option pressure) :=
  match lines with
  | [] => Ret None
  | line :: rest =>
      if contains "free percentage" (lower line) then
        match int_of_digits (keep_digits (last_field ":" line)) with
        | Raise e => Raise e
        | Ret pct => Ret (Some (pressure_of_free pct))
        end
      else pressure_of_lines rest
  end.

Definition pressure_unavailable : pressure := mkPressure "N/A" 0 "gray".

(** [get_memory_pressure], from the output of the [memory_pressure]
    command, or the exception running it raised. *)
Definition get_memory_pressure (stdout : outcome string) : pressure :=
  match stdout with
  | Raise _ => pressure_unavailable
  | Ret output =>
      match pressure_of_lines (split_on "010" output) with
      | Ret (Some p) => p
      | _ => pressure_unavailable
      end
  end.

(** A descending order on the keys, and the entries tied with a key. *)
Definition key_ge (a b : pinfo) : Prop := (sort_key b <= sort_key a)%Q.

Definition tied (k : Q) (p : pinfo) : bool := Qeq_bool (sort_key p) k.

(** [sep.join(fields)], to put a text together from its lines. *)
Fixpoint join_on (sep : ascii) (fields : list string) : string :=
  match fields with
  | [] => EmptyString
  | [field] => field
  | field :: rest => (field +:+ String sep (join_on sep rest))%string
  end.



(** ** vtop.py: updating the core charts (lines 419-433) *)

(** The title of a chart: the text it was created with, or what the
    f-string [f"{core_label} {active}% {freq}M"] is built from. *)
Inductive chart_title : Type :=
  | Static (text : string)
  | CoreTitle (core_label : string) (active freq : pyval).

(** An [HChart]: its title and the values appended to it, oldest first. *)
Record hchart : Type := mkChart {
  chart_title_of : chart_title;
  chart_data : list pyval
}.

(** The charts as the layout creates them. *)
Definition new_charts (titles : list string) : list hchart :=
  map (fun t => mkChart (Static t) []) titles.

(** What [f"{i}"] gives for the elements [i] of [cpu_metrics["e_core"]]
    or [cpu_metrics["p_core"]]: a list yields its numbers, a string its
    characters, and a number cannot be iterated. *)
Definition as_core_names (v : pyval) : outcome (list string) :=
  match v with
  | VList l => Ret (map (fun i : Z => pretty i) l)
  | VStr s => Ret (map (fun c => String c EmptyString) (list_ascii_of_string s))
  | _ => Raise TypeError
  end.

(** One [for idx, i in enumerate(...)] loop, from index [idx] on. *)
Fixpoint update_core_charts (cluster label : string) (cpu_metrics : pydict)
    (idx : nat) (names : list string) (charts : list hchart)
  : outcome (list hchart) :=
  match names with
  | [] => Ret charts
  | i :: rest =>
      match Py.dict_getitem cpu_metrics (cluster +:+ i +:+ "_active") with
      | Raise e => Raise e
      | Ret active =>
      match Py.dict_getitem cpu_metrics (cluster +:+ i +:+ "_freq_Mhz") with
      | Raise e => Raise e
      | Ret freq =>
      match charts !! idx with
      | None => Raise IndexError
      | Some c =>
          update_core_charts cluster label cpu_metrics (S idx) rest
            (<[ idx := mkChart (CoreTitle (label +:+ i) active freq)
                         (chart_data c ++ [active]) ]> charts)
      end end end
  end.

(** Both loops: the efficiency charts, when there are efficiency cores,
    then the performance charts, labelled [C] on a machine without
    efficiency cores. *)
Definition update_cpu_charts (e_core_count : option Z) (cpu_metrics : pydict)
    (e_core_charts p_core_charts : list hchart)
  : outcome (list hchart * list hchart) :=
  match e_core_count with
  | None => Raise TypeError
  | Some e =>
      let e_updated :=
        if 0 <? e then
          match Py.dict_getitem cpu_metrics "e_core" with
          | Raise err => Raise err
          | Ret v =>
              match as_core_names v with
              | Raise err => Raise err
              | Ret names =>
                  update_core_charts "E-Cluster" "E" cpu_metrics 0 names e_core_charts
              end
          end
        else Ret e_core_charts in
      match e_updated with
      | Raise err => Raise err
      | Ret e_charts =>
          match Py.dict_getitem cpu_metrics "p_core" with
          | Raise err => Raise err
          | Ret v =>
              match as_core_names v with
              | Raise err => Raise err
              | Ret names =>
                  match update_core_charts "P-Cluster" (if 0 <? e then "P" else "C")
                          cpu_metrics 0 names p_core_charts with
                  | Raise err => Raise err
                  | Ret p_charts => Ret (e_charts, p_charts)
                  end
              end
          end
      end
  end.

(** The chart of core [i] after an update that read [active] and [freq]. *)
Definition updated_chart (label : string) (i : nat) (active freq : pyval)
    (c : hchart) : hchart :=
  mkChart (CoreTitle (label +:+ pretty i) active freq) (chart_data c ++ [active]).

(** The [cpu_metrics] of [IntelProvider.get_metrics] for the given
    per-core usages and frequencies. *)
Definition intel_cpu_metrics (per_cpu_percent cpu_freq : list Q) : pydict :=
  <[ "P-Cluster_freq_Mhz"%string
     := VInt (intel_cluster_freq per_cpu_percent cpu_freq) ]>
  (<[ "P-Cluster_active"%string := VInt (intel_cluster_active per_cpu_percent) ]>
   (add_per_core 0 (zip per_cpu_percent cpu_freq)
      (intel_base_metrics (length per_cpu_percent)))).

(** ** apple_silicon.py, intel.py: [_get_cpu_info] *)

(** [l.split(":")[1]] *)
Definition second_field (l : string) : outcome string :=
  match split_on ":" l with
  | _ :: value :: _ => Ret value
  | _ => Raise IndexError
  end.

(** The inner loop [for h in data_fields] on one line. *)
Fixpoint scan_line (data_fields : list string) (l : string) (d : gmap string string)
  : outcome (gmap string string) :=
  match data_fields with
  | [] => Ret d
  | h :: rest =>
      if contains h l then
        match second_field l with
        | Raise e => Raise e
        | Ret value => scan_line rest l (<[ h := strip value ]> d)
        end
      else scan_line rest l d
  end.

(** The outer loop [for l in cpu_info_lines]. *)
Fixpoint scan_lines (data_fields : list string) (lines : list string)
    (d : gmap string string) : outcome (gmap string string) :=
  match lines with
  | [] => Ret d
  | l :: rest =>
      match scan_line data_fields l d with
      | Raise e => Raise e
      | Ret d1 => scan_lines data_fields rest d1
      end
  end.

(** [_get_cpu_info], from what [sysctl -a | grep machdep.cpu] printed. *)
Definition _get_cpu_info (data_fields : list string) (cpu_info : string)
  : outcome (gmap string string) :=
  scan_lines data_fields (split_on "010" cpu_info) ∅.

Definition apple_data_fields : list string :=
  ["machdep.cpu.brand_string"; "machdep.cpu.core_count"]%string.

Definition intel_data_fields : list string :=
  ["machdep.cpu.brand_string"; "machdep.cpu.core_count";
   "machdep.cpu.model"; "machdep.cpu.family"]%string.

(** The last of the lines that mention a field. *)
Fixpoint last_mention (h : string) (lines : list string) : option string :=
  match lines with
  | [] => None
  | l :: rest =>
      match last_mention h rest with
      | Some later => Some later
      | None => if contains h l then Some l else None
      end
  end.

(** Whether a line mentions one of the fields. *)
Definition mentions_any (data_fields : list string) (l : string) : bool :=
  existsb (fun h => contains h l) data_fields.

(** The text between the first and the second colon of a line, stripped. *)
Definition field_text (l : string) : string :=
  match split_on ":" l with
  | _ :: value :: _ => strip value
  | _ => EmptyString
  end.

(** ** vtop.py: the disk and network rates (lines 36-51, 83-92, 416, 513-521) *)

(** [get_disk_io] and [get_network_io]: the two counters [psutil] reports,
    or zeros when it raises. *)
Definition get_io_counters (probe : outcome (Z * Z)) : Z * Z :=
  match probe with
  | Ret counters => counters
  | Raise _ => (0, 0)
  end.

(** [max(a, b)] on floats. *)
Definition py_max (a b : Q) : Q := if float_gt b a then b else a.

(** Line 416: [max(current_time - last_time, 0.1)] *)
Definition time_delta (current_time last_time : Q) : Q :=
  py_max (fl (current_time - last_time)) (fl (1 # 10)).

(** [(curr - last) / time_delta]: an [int] divided by a double.  The
    counters are 64-bit, so the conversion of their difference to a
    double does not overflow. *)
Definition io_rate (curr last : Z) (dt : Q) : Q :=
  Py.fdiv (Py.float_of_int (curr - last)) dt.

Inductive speed_unit : Type := B_s | KB_s | MB_s | GB_s.

(** [f"{x:.0f}"] and [f"{x:.1f}"], as numbers: the integer, or the
    multiple of a tenth, nearest to the double, ties to even. *)
Definition fmt_0f (x : Q) : Q := inject_Z (rne x).
Definition fmt_1f (x : Q) : Q := (inject_Z (rne (x * 10)) / 10)%Q.

(** [format_speed]: the number that is printed and the unit behind it. *)
Definition format_speed (b : Q) : Q * speed_unit :=
  if float_gt 1024 b then (fmt_0f b, B_s)
  else if float_gt (1024 * 1024) b then (fmt_1f (Py.fdiv b 1024), KB_s)
  else if float_gt (1024 * 1024 * 1024) b
       then (fmt_1f (Py.fdiv (Py.fdiv b 1024) 1024), MB_s)
  else (fmt_1f (Py.fdiv (Py.fdiv (Py.fdiv b 1024) 1024) 1024), GB_s).

(** ** apple_silicon.py: the core counts of [get_soc_info] (lines 34-39) *)

(** The [try] around the two look-ups: when either key is missing both
    counts become ["?"], here [None]. *)
Definition core_counts_of (core_counts_dict : gmap string Z) : option Z * option Z :=
  match core_counts_dict !! "hw.perflevel1.logicalcpu"%string with
  | None => (None, None)
  | Some e_core_count =>
      match core_counts_dict !! "hw.perflevel0.logicalcpu"%string with
      | None => (None, None)
      | Some p_core_count => (Some e_core_count, Some p_core_count)
      end
  end.

(** The double [w / max_power * 100] of [power_pct]. *)
Definition power_ratio (w : Q) (max_power : Z) : Q :=
  Py.fmul (Py.fdiv w (Py.float_of_int max_power)) 100.

(** * Properties *)

(** ** Doubles *)

Lemma pow2_pos e : (0 < pow2 e)%Q.
Proof. apply Qpower_0_lt. reflexivity. Qed.

Lemma pow2_add a b : (pow2 (a + b) == pow2 a * pow2 b)%Q.
Proof. apply Qpower_plus. discriminate. Qed.

Lemma pow2_inject e : 0 <= e -> (pow2 e == inject_Z (2 ^ e))%Q.
Proof. intros H. unfold pow2. rewrite Zpower_Qpower by exact H. reflexivity. Qed.

Lemma pow2_ge_1 e : 0 <= e -> (1 <= pow2 e)%Q.
Proof. intros H. apply Qpower_1_le; [discriminate|exact H]. Qed.

Lemma pow2_le a b : a <= b -> (pow2 a <= pow2 b)%Q.
Proof.
  intros H. replace b with (a + (b - a)) by lia. rewrite pow2_add.
  pose proof (pow2_pos a). pose proof (pow2_ge_1 (b - a) ltac:(lia)).
  nra.
Qed.

Lemma pow2_lt_inv a b : (pow2 a < pow2 b)%Q -> a < b.
Proof.
  intros H. destruct (Z.lt_ge_cases a b) as [Hlt|Hge]; [exact Hlt|].
  pose proof (pow2_le b a Hge). lra.
Qed.

Lemma inject_Z_pow2_lt (n k : Z) : 0 <= k -> n < 2 ^ k -> (inject_Z n < pow2 k)%Q.
Proof. intros Hk H. rewrite (pow2_inject k Hk), <- Zlt_Qlt. exact H. Qed.

Lemma inject_Z_pow2_le (n k : Z) : 0 <= k -> 2 ^ k <= n -> (pow2 k <= inject_Z n)%Q.
Proof. intros Hk H. rewrite (pow2_inject k Hk), <- Zle_Qle. exact H. Qed.

(** [ilog2 x] is the exponent of the binade of a positive [x]. *)
Lemma ilog2_spec (x : Q) :
  (0 < x)%Q -> (pow2 (ilog2 x) <= x)%Q /\ (x < pow2 (ilog2 x + 1))%Q.
Proof.
  intros Hx. destruct x as [n d]. unfold ilog2. cbn [Qnum Qden].
  assert (Hn : 0 < n) by (unfold Qlt in Hx; simpl in Hx; lia).
  set (ln := Z.log2 n). set (ld := Z.log2 (Z.pos d)).
  assert (Hln : 0 <= ln) by apply Z.log2_nonneg.
  assert (Hld : 0 <= ld) by apply Z.log2_nonneg.
  destruct (Z.log2_spec n Hn) as [Hn1 Hn2]. fold ln in Hn1, Hn2.
  destruct (Z.log2_spec (Z.pos d) ltac:(lia)) as [Hd1 Hd2]. fold ld in Hd1, Hd2.
  unfold Z.succ in Hn2, Hd2.
  assert (HA : (0 < pow2 ln)%Q) by apply pow2_pos.
  assert (HB : (0 < pow2 ld)%Q) by apply pow2_pos.
  assert (Hk : (pow2 (ln - ld) * pow2 ld == pow2 ln)%Q).
  { rewrite <- pow2_add. replace (ln - ld + ld) with ln by lia. reflexivity. }
  assert (Hk1 : (pow2 (ln - ld + 1) == 2 * pow2 (ln - ld))%Q).
  { rewrite pow2_add. change (pow2 1) with 2%Q. ring. }
  assert (Hk2 : (2 * pow2 (ln - ld - 1) == pow2 (ln - ld))%Q).
  { replace (ln - ld) with (1 + (ln - ld - 1)) at 2 by lia.
    rewrite pow2_add. change (pow2 1) with 2%Q. ring. }
  assert (HN1 : (pow2 ln <= inject_Z n)%Q) by (apply inject_Z_pow2_le; lia).
  assert (HN2 : (inject_Z n < 2 * pow2 ln)%Q).
  { assert (H : (inject_Z n < pow2 (ln + 1))%Q) by (apply inject_Z_pow2_lt; lia).
    rewrite pow2_add in H. change (pow2 1) with 2%Q in H. lra. }
  assert (HD1 : (pow2 ld <= inject_Z (Z.pos d))%Q) by (apply inject_Z_pow2_le; lia).
  assert (HD2 : (inject_Z (Z.pos d) < 2 * pow2 ld)%Q).
  { assert (H : (inject_Z (Z.pos d) < pow2 (ld + 1))%Q) by (apply inject_Z_pow2_lt; lia).
    rewrite pow2_add in H. change (pow2 1) with 2%Q in H. lra. }
  assert (Hx' : (n # d == inject_Z n / inject_Z (Z.pos d))%Q) by apply Qmake_Qdiv.
  assert (HD : (0 < inject_Z (Z.pos d))%Q) by lra.
  assert (Hxd : ((n # d) * inject_Z (Z.pos d) == inject_Z n)%Q).
  { rewrite Hx'. field. lra. }
  set (x := (n # d)%Q) in *. set (K := pow2 (ln - ld)) in *.
  set (K' := pow2 (ln - ld - 1)) in *.
  set (A := pow2 ln) in *. set (B := pow2 ld) in *.
  set (N := inject_Z n) in *. set (D := inject_Z (Z.pos d)) in *.
  assert (HK : (0 < K)%Q) by apply pow2_pos.
  assert (HK' : (0 < K')%Q) by apply pow2_pos.
  destruct (Qle_bool K x) eqn:Hb.
  - apply Qle_bool_iff in Hb. split; [exact Hb|].
    rewrite Hk1. nra.
  - assert (Hlt : (x < K)%Q).
    { destruct (Qlt_le_dec x K) as [H|H]; [exact H|].
      apply Qle_bool_iff in H. congruence. }
    split.
    + fold K'. nra.
    + replace (ln - ld - 1 + 1) with (ln - ld) by lia. exact Hlt.
Qed.

Lemma ilog2_ub (x : Q) (k : Z) : (0 < x)%Q -> (x < pow2 k)%Q -> ilog2 x < k.
Proof.
  intros Hx H. destruct (ilog2_spec x Hx) as [H1 _].
  apply pow2_lt_inv. lra.
Qed.

Lemma ilog2_lb (x : Q) (k : Z) : (0 < x)%Q -> (pow2 k <= x)%Q -> k <= ilog2 x.
Proof.
  intros Hx H. destruct (ilog2_spec x Hx) as [_ H2].
  assert (k < ilog2 x + 1); [|lia]. apply pow2_lt_inv. lra.
Qed.

Lemma rne_ge (x : Q) (n : Z) : (inject_Z n <= x)%Q -> n <= rne x.
Proof.
  intros H. assert (Hf : n <= Qfloor x).
  { rewrite <- (Qfloor_Z n). apply Qfloor_resp_le, H. }
  unfold rne. destruct (_ ?= _)%Q; [destruct (Z.even _)| |]; lia.
Qed.

Lemma rne_le (x : Q) (n : Z) : (x <= inject_Z n)%Q -> rne x <= n.
Proof.
  intros H. assert (Hf : Qfloor x <= n).
  { rewrite <- (Qfloor_Z n). apply Qfloor_resp_le, H. }
  unfold rne. destruct (Z.eq_dec (Qfloor x) n) as [Heq|Hne].
  - pose proof (Qfloor_le x) as Hlo. rewrite Heq in *.
    assert (Hc : (x - inject_Z n ?= 1 # 2)%Q = Lt).
    { apply (proj1 (Qlt_alt _ _)). lra. }
    rewrite Hc. lia.
  - destruct (_ ?= _)%Q; [destruct (Z.even _)| |]; lia.
Qed.

Lemma fl_zero (x : Q) : (x == 0)%Q -> fl x = 0%Q.
Proof. intros H. unfold fl. apply (proj1 (Qeq_alt _ _)) in H. rewrite H. reflexivity. Qed.

Lemma fl_pos_nonneg (x : Q) : (0 < x)%Q -> (0 <= fl_pos x)%Q.
Proof.
  intros Hx. unfold fl_pos.
  set (e := Z.max (ilog2 x - 52) (-1074)).
  pose proof (pow2_pos e) as He.
  assert (0 <= rne (x / pow2 e)).
  { apply rne_ge. change (inject_Z 0) with 0%Q.
    apply Qle_shift_div_l; [exact He|]. lra. }
  assert (0 <= inject_Z (rne (x / pow2 e)))%Q.
  { change 0%Q with (inject_Z 0). rewrite <- Zle_Qle. assumption. }
  nra.
Qed.

Lemma fl_nonneg (x : Q) : (0 <= x)%Q -> (0 <= fl x)%Q.
Proof.
  intros Hx. unfold fl. destruct (x ?= 0)%Q eqn:Hc.
  - lra.
  - apply (proj2 (Qlt_alt _ _)) in Hc. lra.
  - apply fl_pos_nonneg. apply (proj2 (Qgt_alt _ _)) in Hc. exact Hc.
Qed.

Lemma fl_nonpos (x : Q) : (x <= 0)%Q -> (fl x <= 0)%Q.
Proof.
  intros Hx. unfold fl. destruct (x ?= 0)%Q eqn:Hc.
  - lra.
  - apply (proj2 (Qlt_alt _ _)) in Hc. pose proof (fl_pos_nonneg (- x) ltac:(lra)). lra.
  - apply (proj2 (Qgt_alt _ _)) in Hc. lra.
Qed.

(** A double: [m * 2^e] with [|m| < 2^53] and [e] not below the least
    exponent. *)
Lemma fl_pos_le (x : Q) (m e : Z) :
  (0 < x)%Q -> 0 < m < 2 ^ 53 -> -1074 <= e ->
  (x <= inject_Z m * pow2 e)%Q -> (fl_pos x <= inject_Z m * pow2 e)%Q.
Proof.
  intros Hx Hm He Hle. unfold fl_pos.
  set (E := Z.max (ilog2 x - 52) (-1074)).
  assert (Hg : (inject_Z m * pow2 e < pow2 (53 + e))%Q).
  { rewrite pow2_add. pose proof (pow2_pos e).
    assert (inject_Z m < pow2 53)%Q by (apply inject_Z_pow2_lt; lia). nra. }
  assert (HE : E <= e).
  { pose proof (ilog2_ub x (53 + e) Hx ltac:(lra)). lia. }
  pose proof (pow2_pos E) as HpE.
  assert (Hdec : (pow2 e == inject_Z (2 ^ (e - E)) * pow2 E)%Q).
  { rewrite <- pow2_inject by lia. rewrite <- pow2_add.
    replace (e - E + E) with e by lia. reflexivity. }
  assert (HM : (inject_Z m * pow2 e == inject_Z (m * 2 ^ (e - E)) * pow2 E)%Q).
  { rewrite Hdec, inject_Z_mult. ring. }
  rewrite HM in Hle |- *.
  assert (Hr : rne (x / pow2 E) <= m * 2 ^ (e - E)).
  { apply rne_le. apply Qle_shift_div_r; [exact HpE|]. exact Hle. }
  rewrite Zle_Qle in Hr. nra.
Qed.

Lemma fl_pos_ge (x : Q) (m e : Z) :
  0 < m < 2 ^ 53 -> -1074 <= e ->
  (inject_Z m * pow2 e <= x)%Q -> (inject_Z m * pow2 e <= fl_pos x)%Q.
Proof.
  intros Hm He Hle.
  assert (Hmq : (0 < inject_Z m)%Q).
  { change 0%Q with (inject_Z 0). rewrite <- Zlt_Qlt. lia. }
  pose proof (pow2_pos e) as Hpe.
  assert (Hx : (0 < x)%Q) by nra.
  unfold fl_pos. set (E := Z.max (ilog2 x - 52) (-1074)).
  pose proof (pow2_pos E) as HpE.
  destruct (Z.le_gt_cases E e) as [HE|HE].
  - assert (Hdec : (pow2 e == inject_Z (2 ^ (e - E)) * pow2 E)%Q).
    { rewrite <- pow2_inject by lia. rewrite <- pow2_add.
      replace (e - E + E) with e by lia. reflexivity. }
    assert (HM : (inject_Z m * pow2 e == inject_Z (m * 2 ^ (e - E)) * pow2 E)%Q).
    { rewrite Hdec, inject_Z_mult. ring. }
    rewrite HM in Hle |- *.
    assert (Hr : m * 2 ^ (e - E) <= rne (x / pow2 E)).
    { apply rne_ge. apply Qle_shift_div_l; [exact HpE|]. exact Hle. }
    rewrite Zle_Qle in Hr. nra.
  - assert (HEeq : E = ilog2 x - 52) by lia.
    destruct (ilog2_spec x Hx) as [Hlo _].
    assert (Hsplit : (pow2 (ilog2 x) == pow2 52 * pow2 E)%Q).
    { rewrite <- pow2_add. replace (52 + E) with (ilog2 x) by lia. reflexivity. }
    assert (Hr : 2 ^ 52 <= rne (x / pow2 E)).
    { apply rne_ge. rewrite <- pow2_inject by lia.
      apply Qle_shift_div_l; [exact HpE|]. lra. }
    rewrite Zle_Qle in Hr. rewrite <- pow2_inject in Hr by lia.
    assert (Hbig : (inject_Z m * pow2 e < pow2 52 * pow2 E)%Q).
    { rewrite <- pow2_add.
      assert (H1 : (inject_Z m < pow2 53)%Q) by (apply inject_Z_pow2_lt; lia).
      assert (H2 : (pow2 (53 + e) <= pow2 (52 + E))%Q) by (apply pow2_le; lia).
      rewrite pow2_add in H2. nra. }
    nra.
Qed.

(** Rounding never crosses a double. *)
Lemma fl_le_double (x : Q) (m e : Z) :
  0 <= m < 2 ^ 53 -> -1074 <= e ->
  (x <= inject_Z m * pow2 e)%Q -> (fl x <= inject_Z m * pow2 e)%Q.
Proof.
  intros Hm He Hle. pose proof (pow2_pos e) as Hpe.
  assert (Hg : (0 <= inject_Z m * pow2 e)%Q).
  { assert (0 <= inject_Z m)%Q by (change 0%Q with (inject_Z 0); rewrite <- Zle_Qle; lia).
    nra. }
  destruct (Qlt_le_dec 0 x) as [Hx|Hx].
  - assert (Hm0 : 0 < m).
    { destruct (Z.eq_dec m 0) as [->|]; [|lia].
      change (inject_Z 0) with 0%Q in Hle. lra. }
    unfold fl. rewrite (proj1 (Qgt_alt _ _) Hx).
    apply fl_pos_le; auto. lia.
  - pose proof (fl_nonpos x Hx). lra.
Qed.

Lemma fl_ge_double (x : Q) (m e : Z) :
  0 <= m < 2 ^ 53 -> -1074 <= e ->
  (inject_Z m * pow2 e <= x)%Q -> (inject_Z m * pow2 e <= fl x)%Q.
Proof.
  intros Hm He Hle. pose proof (pow2_pos e) as Hpe.
  destruct (Z.eq_dec m 0) as [->|Hm0].
  - change (inject_Z 0) with 0%Q in *.
    assert (0 <= x)%Q by lra. pose proof (fl_nonneg x H). lra.
  - assert (Hmq : (0 < inject_Z m)%Q).
    { change 0%Q with (inject_Z 0). rewrite <- Zlt_Qlt. lia. }
    assert (Hx : (0 < x)%Q) by nra.
    unfold fl. rewrite (proj1 (Qgt_alt _ _) Hx).
    apply fl_pos_ge; auto. lia.
Qed.

Lemma fl_le_int (x : Q) (n : Z) :
  0 <= n < 2 ^ 53 -> (x <= inject_Z n)%Q -> (fl x <= inject_Z n)%Q.
Proof.
  intros Hn H. pose proof (fl_le_double x n 0 Hn ltac:(lia)) as Hd.
  change (pow2 0) with 1%Q in Hd. rewrite Qmult_1_r in Hd. apply Hd, H.
Qed.

Lemma fl_ge_int (x : Q) (n : Z) :
  0 <= n < 2 ^ 53 -> (inject_Z n <= x)%Q -> (inject_Z n <= fl x)%Q.
Proof.
  intros Hn H. pose proof (fl_ge_double x n 0 Hn ltac:(lia)) as Hd.
  change (pow2 0) with 1%Q in Hd. rewrite Qmult_1_r in Hd. apply Hd, H.
Qed.

Lemma fl_int (n : Z) : 0 <= n < 2 ^ 53 -> (fl (inject_Z n) == inject_Z n)%Q.
Proof.
  intros Hn. apply Qle_antisym.
  - apply fl_le_int; [exact Hn|apply Qle_refl].
  - apply fl_ge_int; [exact Hn|apply Qle_refl].
Qed.


(** Rounding is a function of the value, not of the fraction that
    writes it. *)
Lemma ilog2_comp (x y : Q) : (0 < x)%Q -> (x == y)%Q -> ilog2 x = ilog2 y.
Proof.
  intros Hx Hxy. assert (Hy : (0 < y)%Q) by lra.
  destruct (ilog2_spec x Hx) as [Hx1 Hx2]. destruct (ilog2_spec y Hy) as [Hy1 Hy2].
  pose proof (ilog2_lb y (ilog2 x) Hy ltac:(lra)).
  pose proof (ilog2_lb x (ilog2 y) Hx ltac:(lra)). lia.
Qed.

Lemma rne_comp (x y : Q) : (x == y)%Q -> rne x = rne y.
Proof.
  intros Hxy. unfold rne. rewrite (Qfloor_comp x y Hxy).
  assert (Hc : (x - inject_Z (Qfloor y) ?= 1 # 2)%Q = (y - inject_Z (Qfloor y) ?= 1 # 2)%Q).
  { apply Qcompare_comp; [rewrite Hxy|]; reflexivity. }
  rewrite Hc. reflexivity.
Qed.

Lemma fl_pos_comp (x y : Q) : (0 < x)%Q -> (x == y)%Q -> (fl_pos x == fl_pos y)%Q.
Proof.
  intros Hx Hxy. unfold fl_pos. rewrite (ilog2_comp x y Hx Hxy).
  set (e := Z.max (ilog2 y - 52) (-1074)).
  rewrite (rne_comp (x / pow2 e) (y / pow2 e)); [reflexivity|].
  rewrite Hxy. reflexivity.
Qed.

#[global] Instance fl_comp : Proper (Qeq ==> Qeq) fl.
Proof.
  intros x y Hxy. unfold fl.
  assert (Hc : (x ?= 0)%Q = (y ?= 0)%Q) by (apply Qcompare_comp; [exact Hxy|reflexivity]).
  rewrite <- Hc. destruct (x ?= 0)%Q eqn:Hx.
  - reflexivity.
  - apply (proj2 (Qlt_alt _ _)) in Hx.
    rewrite (fl_pos_comp (- x) (- y)); [reflexivity|lra|]. rewrite Hxy. reflexivity.
  - apply (proj2 (Qgt_alt _ _)) in Hx. apply fl_pos_comp; assumption.
Qed.

Lemma int_of_float_between (x : Q) (k : Z) :
  0 <= k -> (inject_Z k <= x)%Q -> (x < inject_Z (k + 1))%Q -> Py.int_of_float x = k.
Proof.
  intros Hk Hlo Hhi. destruct x as [n d]. unfold Py.int_of_float. cbn [Qnum Qden].
  unfold Qle, Qlt in *. cbn [Qnum Qden inject_Z] in *.
  rewrite Z.quot_div_nonneg by nia.
  symmetry. apply (Z.div_unique n (Z.pos d) k (n - k * Z.pos d)); lia.
Qed.

(** The quotient of two non-negative [int]s whose sum is at most [2^52]
    is far enough from the next integer for its double to truncate to
    the integer quotient. *)
Lemma fl_div_exact (a b : Z) :
  0 <= a -> 0 < b -> a + b <= 2 ^ 52 ->
  (inject_Z (a / b) <= fl (inject_Z a / inject_Z b))%Q /\
  (fl (inject_Z a / inject_Z b) < inject_Z (a / b + 1))%Q.
Proof.
  intros Ha Hb Hsum.
  set (k := a / b).
  assert (Hk : 0 <= k) by (apply Z.div_pos; lia).
  assert (Hkb : k * b <= a < (k + 1) * b).
  { unfold k. pose proof (Z.mul_div_le a b Hb).
    pose proof (Z.mul_succ_div_gt a b Hb). lia. }
  assert (HB : (0 < inject_Z b)%Q).
  { change 0%Q with (inject_Z 0). rewrite <- Zlt_Qlt. exact Hb. }
  set (q := (inject_Z a / inject_Z b)%Q).
  assert (Hq1 : (inject_Z k <= q)%Q).
  { unfold q. apply Qle_shift_div_l; [exact HB|].
    rewrite <- inject_Z_mult, <- Zle_Qle. lia. }
  assert (Hk53 : k < 2 ^ 53).
  { assert (k <= a) by nia. change (2 ^ 53) with (2 * 2 ^ 52). lia. }
  split.
  - apply fl_ge_int; [lia|exact Hq1].
  - set (t := Z.log2_up b).
    assert (Ht0 : 0 <= t) by apply Z.log2_up_nonneg.
    assert (Hbt : b <= 2 ^ t).
    { destruct (Z.eq_dec b 1) as [->|Hne]; [reflexivity|].
      apply Z.log2_up_spec. lia. }
    assert (Hpow : 2 ^ t < 2 * b \/ b = 1 /\ t = 0).
    { destruct (Z.eq_dec b 1) as [->|Hne]; [right; split; reflexivity|left].
      pose proof (Z.log2_up_spec b ltac:(lia)) as [Hlo _]. fold t in Hlo.
      replace t with (Z.succ (Z.pred t)) by lia.
      rewrite Z.pow_succ_r; [lia|].
      assert (0 < t); [|lia]. apply Z.log2_up_pos. lia. }
    assert (Hpos : 0 < 2 ^ t) by (apply Z.pow_pos_nonneg; lia).
    assert (Hm : 0 <= (k + 1) * 2 ^ t - 1 < 2 ^ 53).
    { change (2 ^ 53) with (2 * 2 ^ 52). destruct Hpow as [Hp|[-> ->]]; nia. }
    assert (Ht : t <= 1074).
    { assert (b <= 2 ^ 52) by lia.
      assert (t <= 52); [|lia].
      unfold t. apply Z.log2_up_le_pow2; lia. }
    pose proof (pow2_pos (- t)) as Hpt.
    assert (Hinv : (pow2 (- t) * inject_Z (2 ^ t) == 1)%Q).
    { rewrite <- pow2_inject by lia. rewrite <- pow2_add.
      replace (- t + t) with 0 by lia. reflexivity. }
    assert (Hg : (inject_Z ((k + 1) * 2 ^ t - 1) * pow2 (- t)
                  == inject_Z (k + 1) - pow2 (- t))%Q).
    { unfold Z.sub at 1. rewrite inject_Z_plus, inject_Z_mult.
      change (inject_Z (- (1))) with (- (1))%Q.
      transitivity (inject_Z (k + 1) * (pow2 (- t) * inject_Z (2 ^ t)) - pow2 (- t))%Q;
        [ring|]. rewrite Hinv. ring. }
    assert (Hqg : (q <= inject_Z ((k + 1) * 2 ^ t - 1) * pow2 (- t))%Q).
    { rewrite Hg. unfold q. apply Qle_shift_div_r; [exact HB|].
      assert (H1 : (inject_Z a + 1 <= inject_Z (k + 1) * inject_Z b)%Q).
      { change 1%Q with (inject_Z 1).
        rewrite <- inject_Z_mult, <- inject_Z_plus, <- Zle_Qle. lia. }
      assert (H2 : (pow2 (- t) * inject_Z b <= 1)%Q).
      { rewrite <- Hinv.
        assert (inject_Z b <= inject_Z (2 ^ t))%Q by (rewrite <- Zle_Qle; exact Hbt).
        nra. }
      lra. }
    pose proof (fl_le_double q _ (- t) Hm ltac:(lia) Hqg) as Hfl.
    rewrite Hg in Hfl. lra.
Qed.

Lemma pow2_1024_above (x : Q) (n : Z) :
  0 <= n <= 2 ^ 63 -> (Qabs x <= inject_Z n)%Q -> Qle_bool (pow2 1024) (Qabs x) = false.
Proof.
  intros Hn Hx. destruct (Qle_bool (pow2 1024) (Qabs x)) eqn:Hb; [|reflexivity].
  apply Qle_bool_iff in Hb.
  assert (H : (inject_Z n < pow2 1024)%Q).
  { apply inject_Z_pow2_lt; [lia|].
    assert (2 ^ 63 < 2 ^ 1024) by (apply Z.pow_lt_mono_r; lia). lia. }
  lra.
Qed.

(** [a / b] for two non-negative [int]s whose sum is at most [2^52]. *)
Lemma int_truediv_small (a b : Z) :
  0 <= a -> 0 < b -> a + b <= 2 ^ 52 ->
  exists q, Py.int_truediv a b = Ret q /\ Py.int_of_float q = a / b.
Proof.
  intros Ha Hb Hsum. destruct (fl_div_exact a b Ha Hb Hsum) as [Hlo Hhi].
  assert (Hk : 0 <= a / b) by (apply Z.div_pos; lia).
  assert (Hk' : a / b + 1 <= 2 ^ 63).
  { assert (a / b <= a) by (apply Z.div_le_upper_bound; nia).
    assert (2 ^ 52 < 2 ^ 63) by (apply Z.pow_lt_mono_r; lia). lia. }
  assert (H0 : (0 <= inject_Z (a / b))%Q).
  { change 0%Q with (inject_Z 0). rewrite <- Zle_Qle. exact Hk. }
  exists (fl (inject_Z a / inject_Z b)). split.
  - unfold Py.int_truediv. destruct (Z.eqb_spec b 0); [lia|].
    cbv zeta. rewrite (pow2_1024_above _ (a / b + 1)); [reflexivity|lia|].
    rewrite Qabs_pos by lra. lra.
  - apply int_of_float_between; assumption.
Qed.

Lemma window_capacity_small (args : Args) :
  0 <= avg args -> 0 < interval args -> avg args + interval args <= 2 ^ 52 ->
  window_capacity args = Ret (avg args / interval args).
Proof.
  intros Ha Hi Hsum. unfold window_capacity.
  destruct (int_truediv_small _ _ Ha Hi Hsum) as (q & -> & ->). reflexivity.
Qed.

(** The three outcomes of creating a window. *)
Lemma deque_new_cases (n : Z) :
  ((n < - 2 ^ 63 \/ 2 ^ 63 <= n) /\ deque_new n = Raise OverflowError) \/
  (- 2 ^ 63 <= n < 0 /\ deque_new n = Raise ValueError) \/
  (0 <= n < 2 ^ 63 /\ deque_new n = Ret (mkDeque [] n)).
Proof.
  unfold deque_new.
  destruct (Z.ltb_spec n (- 2 ^ 63)); [left; split; [lia|reflexivity]|].
  destruct (Z.leb_spec (2 ^ 63) n); [left; split; [lia|reflexivity]|].
  cbn [orb]. destruct (Z.ltb_spec n 0).
  - right; left. split; [lia|reflexivity].
  - right; right. split; [lia|reflexivity].
Qed.

(** [window_capacity] raises [ZeroDivisionError] exactly for a zero
    interval, and otherwise only [OverflowError]. *)
Lemma window_capacity_cases (args : Args) :
  (interval args = 0 /\ window_capacity args = Raise ZeroDivisionError) \/
  (interval args <> 0 /\ window_capacity args = Raise OverflowError) \/
  (interval args <> 0 /\
   window_capacity args
   = Ret (Py.int_of_float (fl (inject_Z (avg args) / inject_Z (interval args))))).
Proof.
  unfold window_capacity, Py.int_truediv.
  destruct (Z.eqb_spec (interval args) 0) as [Hi|Hi]; [left; auto|right].
  cbv zeta. destruct (Qle_bool _ _); [left|right]; auto.
Qed.


(** ** Byte buffers *)

Lemma split_not_nil (sep : byte) (data : bytes) : split sep data <> [].
Proof.
  induction data as [|b rest IH]; simpl; [discriminate|].
  destruct (is_sep sep b); [discriminate|].
  destruct (split sep rest); discriminate.
Qed.

Lemma split_sep_free (sep : byte) (r : bytes) :
  sep_free sep r -> split sep r = [r].
Proof.
  induction 1 as [|b rest Hb _ IH]; simpl; [reflexivity|].
  rewrite Hb, IH. reflexivity.
Qed.

Lemma is_sep_refl (sep : byte) : is_sep sep sep = true.
Proof. unfold is_sep. apply Byte.byte_dec_lb. reflexivity. Qed.

Lemma split_app_sep (sep : byte) (r rest : bytes) :
  sep_free sep r -> split sep (r ++ sep :: rest) = r :: split sep rest.
Proof.
  induction 1 as [|b r' Hb _ IH]; simpl.
  - rewrite is_sep_refl. reflexivity.
  - rewrite Hb, IH. reflexivity.
Qed.

(** Splitting undoes joining, for records that hold no separator. *)
Lemma split_join (sep : byte) (records : list bytes) :
  records <> [] -> Forall (sep_free sep) records ->
  split sep (join sep records) = records.
Proof.
  intros Hne Hall. induction Hall as [|r rest Hr Hrest IH]; [congruence|].
  destruct rest as [|r' rest'].
  - simpl. apply split_sep_free, Hr.
  - change (join sep (r :: r' :: rest')) with (r ++ sep :: join sep (r' :: rest')).
    rewrite split_app_sep by exact Hr. rewrite IH by discriminate. reflexivity.
Qed.

(** ** Negative indices *)

Lemma getitem_last {A} (l : list A) (x : A) :
  Py.getitem (l ++ [x]) (-1) = Ret x.
Proof.
  unfold Py.getitem. rewrite length_app. simpl length.
  replace (-1 <? 0) with true by reflexivity.
  destruct (Z.ltb_spec (-1 + Z.of_nat (length l + 1)) 0); [lia|].
  destruct (Z.leb_spec (Z.of_nat (length l + 1)) (-1 + Z.of_nat (length l + 1))); [lia|].
  simpl orb. cbv iota.
  replace (Z.to_nat (-1 + Z.of_nat (length l + 1))) with (length l + 0)%nat by lia.
  rewrite nth_error_app2 by lia.
  replace (length l + 0 - length l)%nat with 0%nat by lia. reflexivity.
Qed.

Lemma getitem_second_to_last {A} (l : list A) (x y : A) :
  Py.getitem (l ++ [x; y]) (-2) = Ret x.
Proof.
  unfold Py.getitem. rewrite length_app. simpl length.
  replace (-2 <? 0) with true by reflexivity.
  destruct (Z.ltb_spec (-2 + Z.of_nat (length l + 2)) 0); [lia|].
  destruct (Z.leb_spec (Z.of_nat (length l + 2)) (-2 + Z.of_nat (length l + 2))); [lia|].
  simpl orb. cbv iota.
  replace (Z.to_nat (-2 + Z.of_nat (length l + 2))) with (length l + 0)%nat by lia.
  rewrite nth_error_app2 by lia.
  replace (length l + 0 - length l)%nat with 0%nat by lia. reflexivity.
Qed.

Lemma last_n_two {A} (l : list A) (x y : A) : last_n 2 (l ++ [x; y]) = [x; y].
Proof.
  unfold last_n. rewrite length_app. simpl length.
  replace (length l + 2 - 2)%nat with (length l) by lia.
  apply drop_app_length.
Qed.

(** A list with at least one element ends in one or in two elements. *)
Lemma list_tail_cases {A} (l : list A) :
  l <> [] -> (exists x, l = [x]) \/ (exists init x y, l = init ++ [x; y]).
Proof.
  intros Hne. destruct (exists_last Hne) as [init [y ->]].
  destruct init as [|a init'] using rev_ind.
  - left. exists y. reflexivity.
  - right. exists init', a, y. rewrite <- app_assoc. reflexivity.
Qed.

(** ** apple_silicon.py: the two decode attempts of [get_metrics] *)

Section AppleSiliconFacts.

Variable Plist : Type.
Variable plistlib_loads : bytes -> outcome Plist.
Variable parse_thermal_pressure : Plist -> outcome string.
Variable parse_cpu_metrics : Plist -> outcome pydict.
Variable parse_gpu_metrics : Plist -> outcome pydict.
Variable plist_timestamp : Plist -> outcome Q.

Local Abbreviation get_metrics' :=
  (get_metrics Plist plistlib_loads parse_thermal_pressure parse_cpu_metrics
     parse_gpu_metrics plist_timestamp).
Local Abbreviation parse_record' :=
  (parse_record Plist plistlib_loads parse_thermal_pressure parse_cpu_metrics
     parse_gpu_metrics plist_timestamp).

(** The behaviour of [get_metrics] on a buffer with a single blob. *)
Lemma get_metrics_single (raw lst : bytes) :
  split x00 raw = [lst] ->
  get_metrics' (Ret raw) =
    ([lst], match parse_record' lst with Ret r => Ret (Some r) | Raise _ => Ret None end).
Proof.
  intros Hsplit. unfold get_metrics. rewrite Hsplit.
  change [lst] with ([] ++ [lst]). rewrite getitem_last.
  unfold decode_attempt. simpl.
  destruct (parse_record' lst); reflexivity.
Qed.

(** The behaviour of [get_metrics] on a buffer with two blobs or more. *)
Lemma get_metrics_several (raw : bytes) (init : list bytes) (entry lst : bytes) :
  split x00 raw = init ++ [entry; lst] ->
  get_metrics' (Ret raw) =
    match parse_record' lst with
    | Ret r => ([lst], Ret (Some r))
    | Raise _ =>
        match entry with
        | [] => ([lst], Ret None)
        | _ => ([lst; entry],
                match parse_record' entry with
                | Ret r => Ret (Some r)
                | Raise _ => Ret None
                end)
        end
    end.
Proof.
  intros Hsplit. unfold get_metrics. rewrite Hsplit.
  replace (init ++ [entry; lst]) with ((init ++ [entry]) ++ [lst])
    by (rewrite <- app_assoc; reflexivity).
  rewrite getitem_last.
  replace ((init ++ [entry]) ++ [lst]) with (init ++ [entry; lst])
    by (rewrite <- app_assoc; reflexivity).
  rewrite getitem_second_to_last.
  assert (Hlen : (1 <? Z.of_nat (length (init ++ [entry; lst]))) = true).
  { apply Z.ltb_lt. rewrite length_app. simpl. lia. }
  unfold decode_attempt. simpl. destruct (parse_record' lst) as [r|e]; simpl.
  - reflexivity.
  - rewrite Hlen. destruct entry as [|b entry']; simpl; [reflexivity|].
    destruct (parse_record' (b :: entry')); reflexivity.
Qed.

(** C1. When the buffer is a null-delimited sequence of records whose last
    record fails to decode while the second-to-last one is non-empty and
    decodes, [get_metrics] returns the cpu metrics, gpu metrics, thermal
    pressure and timestamp extracted from the second-to-last record, after
    exactly two decode attempts: the last record, then the one fallback. *)
Theorem get_metrics_falls_back_to_second_to_last
    (init : list bytes) (entry lst : bytes) (e : exn) (powermetrics_parse : Plist)
    (thermal : string) (cpu gpu : pydict) (ts : Q) :
  Forall (sep_free x00) (init ++ [entry; lst]) ->
  parse_record' lst = Raise e ->
  entry <> [] ->
  plistlib_loads entry = Ret powermetrics_parse ->
  parse_thermal_pressure powermetrics_parse = Ret thermal ->
  parse_cpu_metrics powermetrics_parse = Ret cpu ->
  parse_gpu_metrics powermetrics_parse = Ret gpu ->
  plist_timestamp powermetrics_parse = Ret ts ->
  get_metrics' (Ret (join x00 (init ++ [entry; lst]))) =
    ([lst; entry], Ret (Some (mkReading cpu gpu thermal None ts))).
Proof.
  intros Hfree Hlast Hne Hloads Hth Hcpu Hgpu Hts.
  rewrite (get_metrics_several _ init entry lst).
  - rewrite Hlast. destruct entry as [|b entry']; [congruence|].
    unfold parse_record at 1. rewrite Hloads. unfold extract.
    rewrite Hth, Hcpu, Hgpu, Hts. reflexivity.
  - apply split_join; [|exact Hfree]. destruct init; discriminate.
Qed.

(** C2. [get_metrics] never raises and makes at most two decode attempts;
    it returns [None] when the file cannot be read, when every attempted
    blob fails to decode, on the empty buffer and on a buffer holding a
    single malformed record. *)
Theorem get_metrics_no_sample_available :
  (forall file, exists o,
      Py.result (get_metrics' file) = Ret o /\
      (length (Py.events (get_metrics' file)) <= 2)%nat) /\
  (forall e, get_metrics' (Raise e) = ([], Ret None)) /\
  (forall raw,
      (forall blob, blob ∈ last_n 2 (split x00 raw) ->
                    exists e, parse_record' blob = Raise e) ->
      Py.result (get_metrics' (Ret raw)) = Ret None) /\
  (forall e, parse_record' [] = Raise e ->
             get_metrics' (Ret []) = ([[]], Ret None)) /\
  (forall raw e, sep_free x00 raw -> parse_record' raw = Raise e ->
                 get_metrics' (Ret raw) = ([raw], Ret None)).
Proof.
  repeat split.
  - intros [raw|e]; [|exists None; split; [reflexivity|simpl; lia]].
    destruct (list_tail_cases (split x00 raw) (split_not_nil _ _))
      as [[lst Hs]|[init [entry [lst Hs]]]].
    + rewrite (get_metrics_single _ _ Hs).
      destruct (parse_record' lst); eexists; (split; [reflexivity|simpl; lia]).
    + rewrite (get_metrics_several _ _ _ _ Hs).
      destruct (parse_record' lst); [eexists; split; [reflexivity|simpl; lia]|].
      destruct entry; [eexists; split; [reflexivity|simpl; lia]|].
      destruct (parse_record' (_ :: _)); eexists; (split; [reflexivity|simpl; lia]).
  - intros raw Hfail.
    destruct (list_tail_cases (split x00 raw) (split_not_nil _ _))
      as [[lst Hs]|[init [entry [lst Hs]]]].
    + rewrite (get_metrics_single _ _ Hs).
      destruct (Hfail lst) as [e He]; [rewrite Hs; unfold last_n; simpl; set_solver|].
      rewrite He. reflexivity.
    + rewrite (get_metrics_several _ _ _ _ Hs).
      rewrite Hs, last_n_two in Hfail.
      destruct (Hfail lst) as [e He]; [set_solver|].
      destruct (Hfail entry) as [e' He']; [set_solver|].
      rewrite He. destruct entry; [reflexivity|]. rewrite He'. reflexivity.
  - intros e He. rewrite (get_metrics_single [] []); [|reflexivity].
    rewrite He. reflexivity.
  - intros raw e Hfree He.
    rewrite (get_metrics_single raw raw); [|apply split_sep_free, Hfree].
    rewrite He. reflexivity.
Qed.

End AppleSiliconFacts.

(** C1 at a concrete buffer: the record [05], then a two-byte blob the
    decoder rejects. *)
Lemma get_metrics_falls_back_example :
  Demo.get_metrics (Ret [x05; x00; x01; x02]) =
    ([[x01; x02]; [x05]], Ret (Some (mkReading ∅ ∅ "Nominal" None 5))).
Proof.
  apply (get_metrics_falls_back_to_second_to_last Z Demo.loads Demo.thermal
           Demo.no_metrics Demo.no_metrics Demo.stamp
           [] [x05] [x01; x02] InvalidFileException 5
           "Nominal"%string ∅ ∅ 5%Q).
  - repeat constructor.
  - reflexivity.
  - discriminate.
  - reflexivity.
  - reflexivity.
  - reflexivity.
  - reflexivity.
  - reflexivity.
Defined.

(** C2 at concrete buffers: the empty buffer and a single malformed record. *)
Lemma get_metrics_no_sample_example :
  Demo.get_metrics (Ret []) = ([[]], Ret None) /\
  Demo.get_metrics (Ret [x01; x02]) = ([[x01; x02]], Ret None).
Proof.
  pose proof (get_metrics_no_sample_available Z Demo.loads Demo.thermal
                Demo.no_metrics Demo.no_metrics Demo.stamp)
    as (_ & _ & _ & Hempty & Hsingle).
  split.
  - apply (Hempty InvalidFileException). reflexivity.
  - apply (Hsingle [x01; x02] InvalidFileException).
    + repeat constructor.
    + reflexivity.
Defined.

(** ** vtop.py: one iteration of the session loop *)

Lemma float_gt_spec (x y : Q) : float_gt x y = true <-> (y < x)%Q.
Proof.
  unfold float_gt. rewrite (Qgt_alt x y).
  destruct (x ?= y)%Q; split; congruence.
Qed.

Lemma float_gt_false (x y : Q) : float_gt x y = false <-> (x <= y)%Q.
Proof.
  unfold float_gt. rewrite (Qle_alt x y).
  destruct (x ?= y)%Q; split; congruence.
Qed.

(** [update_peak] is the maximum of the peak and the pushed value. *)
Lemma update_peak_max (p w : Q) :
  (p <= update_peak p w)%Q /\ (w <= update_peak p w)%Q /\
  (update_peak p w = p \/ update_peak p w = w).
Proof.
  unfold update_peak. destruct (float_gt w p) eqn:Hgt.
  - apply float_gt_spec in Hgt. repeat split; [lra|lra|right; reflexivity].
  - apply float_gt_false in Hgt. repeat split; [lra|lra|left; reflexivity].
Qed.

Lemma restart_policy_cases (args : Args) (cnt : Z) :
  exists log cnt', restart_policy args cnt = (log, Ret cnt') /\ frames log = [].
Proof.
  unfold restart_policy.
  destruct (0 <? max_count args); [destruct (max_count args <=? cnt)|];
    eexists _, _; split; reflexivity.
Qed.

(** An accepted reading either makes [main] raise before anything is
    displayed, or displays exactly one frame. *)
Lemma aggregate_cases (args : Args) (st : state) (r : reading) :
  (exists e, aggregate args st r = ([], Raise e)) \/
  (exists f, aggregate args st r = ([Display f], Ret (after_frame st f)) /\
             frame_reads args r f /\ frame_values st f).
Proof.
  unfold aggregate.
  destruct (power_reading args r "cpu_W") as [cpu_w|e] eqn:Rc;
    [|left; eexists; reflexivity].
  destruct (power_reading args r "gpu_W") as [gpu_w|e] eqn:Rg;
    [|left; eexists; reflexivity].
  destruct (power_reading args r "package_W") as [pkg_w|e] eqn:Rp;
    [|left; eexists; reflexivity].
  simpl.
  destruct (power_pct cpu_w (cpu_max_power st)) as [cpu_pct|e] eqn:Hc;
    [|left; eexists; reflexivity].
  destruct (power_pct gpu_w (gpu_max_power st)) as [gpu_pct|e] eqn:Hg;
    [|left; eexists; reflexivity].
  right. eexists (mkFrame _ _ _ _ _ _ _ _ _ _ _). simpl.
  split; [reflexivity|].
  unfold frame_reads, frame_values.
  repeat split; first [reflexivity | exact Hc | exact Hg | exact Rc | exact Rg | exact Rp].
Qed.

Lemma events_bind_ret {E A B} (l : list E) (a : A) (k : A -> Py.M E B) :
  Py.events (Py.bind (l, Ret a) k) = l ++ Py.events (k a).
Proof. unfold Py.events, Py.bind. destruct (k a); reflexivity. Qed.

Lemma result_bind_ret {E A B} (l : list E) (a : A) (k : A -> Py.M E B) :
  Py.result (Py.bind (l, Ret a) k) = Py.result (k a).
Proof. unfold Py.result, Py.bind. destruct (k a); reflexivity. Qed.

Lemma bind_ret {E A B} (a : A) (k : A -> Py.M E B) : Py.bind (Py.ret a) k = k a.
Proof. unfold Py.bind, Py.ret. destruct (k a); reflexivity. Qed.

Lemma frames_app (l1 l2 : list event) : frames (l1 ++ l2) = frames l1 ++ frames l2.
Proof. unfold frames. apply omap_app. Qed.

(** The end of an iteration: sleeping displays nothing. *)
Lemma sleep_cases (args : Args) (st1 : state) :
  Py.events (do _ <- sleep args ;; Py.ret st1) = [] /\
  forall st', Py.result (do _ <- sleep args ;; Py.ret st1) = Ret st' -> st' = st1.
Proof.
  unfold sleep. destruct (interval args <? 0); simpl; split; try reflexivity; congruence.
Qed.

(** One iteration either displays nothing and keeps the aggregation state,
    or accepts a reading newer than the last accepted one and displays one
    frame computed from the state. *)
Lemma loop_body_cases (args : Args) (st : state) (ready : option reading) :
  (frames (Py.events (loop_body args st ready)) = [] /\
   forall st', Py.result (loop_body args st ready) = Ret st' -> same_aggregation st st')
  \/
  (exists r f, ready = Some r /\ frame_reads args r f /\
     frame_from st f /\
     frames (Py.events (loop_body args st ready)) = [f] /\
     forall st', Py.result (loop_body args st ready) = Ret st' ->
                 same_aggregation (after_frame st f) st').
Proof.
  unfold loop_body.
  destruct (restart_policy_cases args (count st)) as (l0 & cnt & -> & Hl0).
  rewrite events_bind_ret, result_bind_ret, frames_app, Hl0. simpl app.
  set (st0 := mkState (cpu_max_power st) (gpu_max_power st) (cpu_peak_power st)
                (gpu_peak_power st) (package_peak_power st) (last_timestamp st)
                (avg_cpu_power_list st) (avg_gpu_power_list st) cnt).
  assert (Hsame : same_aggregation st st0) by (repeat split).
  assert (Hskip :
    frames (Py.events (do st1 <- Py.ret st0 ;; do _ <- sleep args ;; Py.ret st1)) = [] /\
    forall st', Py.result (do st1 <- Py.ret st0 ;; do _ <- sleep args ;; Py.ret st1)
                = Ret st' -> same_aggregation st st').
  { unfold Py.ret at 1 3. rewrite events_bind_ret, result_bind_ret.
    destruct (sleep_cases args st0) as [-> Hres]. split; [reflexivity|].
    intros st' H. apply Hres in H. subst. exact Hsame. }
  destruct ready as [r|]; [|left; exact Hskip].
  change (float_gt (timestamp r) (last_timestamp st))
    with (float_gt (timestamp r) (last_timestamp st0)).
  destruct (float_gt (timestamp r) (last_timestamp st0)) eqn:Hgt; [|left; exact Hskip].
  destruct (aggregate_cases args st0 r) as [[e He]|(f & Hf & Hreads & Hfrom)].
  - left. rewrite He. simpl. split; [reflexivity|]. discriminate.
  - right. exists r, f. rewrite Hf.
    split; [reflexivity|]. split; [exact Hreads|].
    split; [split; [rewrite (proj1 Hreads); exact Hgt|exact Hfrom]|].
    rewrite events_bind_ret, result_bind_ret.
    destruct (sleep_cases args (after_frame st0 f)) as [-> Hres].
    split; [reflexivity|]. intros st' H. apply Hres in H. subst. repeat split.
Qed.

(** ** vtop.py: the frames of a run *)

Lemma same_aggregation_sym (s1 s2 : state) :
  same_aggregation s1 s2 -> same_aggregation s2 s1.
Proof. unfold same_aggregation. intuition congruence. Qed.

Lemma frame_from_same (s1 s2 : state) (f : frame) :
  same_aggregation s1 s2 -> frame_from s1 f -> frame_from s2 f.
Proof.
  intros (H1 & H2 & H3 & H4 & H5 & H6 & H7 & H8). unfold frame_from, frame_values.
  rewrite H1, H2, H3, H4, H5, H6, H7, H8. exact (fun H => H).
Qed.

Lemma after_frame_same (s1 s2 : state) (f : frame) :
  same_aggregation s1 s2 -> same_aggregation (after_frame s1 f) (after_frame s2 f).
Proof.
  intros (H1 & H2 & H3 & H4 & H5 & H6 & H7 & H8). unfold same_aggregation, after_frame.
  simpl. rewrite H1, H2, H7, H8. repeat split.
Qed.

Lemma frames_follow_same (fs : list frame) :
  forall s1 s2, same_aggregation s1 s2 -> frames_follow s1 fs -> frames_follow s2 fs.
Proof.
  induction fs as [|f rest IH]; intros s1 s2 Hs; simpl; [trivial|].
  intros [Hf Hrest]. split.
  - eapply frame_from_same; eassumption.
  - eapply IH; [|exact Hrest]. apply after_frame_same, Hs.
Qed.

(** Every frame of a run is computed from the state the frames before it
    left behind, whatever the polls are and however the run ends. *)
Lemma run_frames_follow (args : Args) (polls : list (option reading)) :
  forall st, frames_follow st (frames (Py.events (run args st polls))).
Proof.
  induction polls as [|ready rest IH]; intros st; [exact I|].
  simpl run.
  pose proof (loop_body_cases args st ready) as Hbody.
  destruct (loop_body args st ready) as [l [st1|e]].
  - rewrite events_bind_ret, frames_app.
    destruct Hbody as [[Hl Hres]|(r & f & _ & _ & Hfrom & Hl & Hres)];
      simpl in Hl; rewrite Hl; simpl.
    + eapply frames_follow_same; [|apply IH].
      apply same_aggregation_sym, Hres. reflexivity.
    + split; [exact Hfrom|].
      eapply frames_follow_same; [|apply IH].
      apply same_aggregation_sym, Hres. reflexivity.
  - simpl.
    destruct Hbody as [[Hl _]|(r & f & _ & _ & Hfrom & Hl & _)];
      simpl in Hl; rewrite Hl; simpl; auto.
Qed.

(** The frames of a session are those of the run that starts from the
    state [main_init] builds from the first reading. *)
Lemma session_frames (args : Args) (soc : soc_info) (polls : list (option reading)) :
  frames (Py.events (session args soc polls)) = [] \/
  exists first rest st0,
    get_reading polls = Some (first, rest) /\
    main_init args soc first = Ret st0 /\
    frames (Py.events (session args soc polls)) =
      frames (Py.events (run args st0 rest)).
Proof.
  unfold session. destruct (get_reading polls) as [[first rest]|]; [|left; reflexivity].
  destruct (main_init args soc first) as [st0|e] eqn:Hinit; [|left; reflexivity].
  right. exists first, rest, st0. split; [reflexivity|]. split; [exact Hinit|].
  unfold Py.lift, Py.bind, Py.events. simpl.
  destruct (run args st0 rest) as [l [st'|e]]; simpl; [|reflexivity].
  rewrite app_nil_r. reflexivity.
Qed.

Lemma follow_timestamps_sorted (fs : list frame) :
  forall st, frames_follow st fs ->
             StronglySorted Qlt (last_timestamp st :: map f_timestamp fs).
Proof.
  induction fs as [|f rest IH]; intros st; simpl.
  - intros _. repeat constructor.
  - intros [Hfrom Hrest]. specialize (IH _ Hrest). simpl in IH.
    destruct Hfrom as [Hgt _]. apply float_gt_spec in Hgt.
    constructor; [exact IH|].
    inversion IH as [|? ? _ Hall]; subst.
    constructor; [exact Hgt|].
    eapply Forall_impl; [exact Hall|]. simpl. intros ts Hts. lra.
Qed.

Lemma follow_peaks (fs : list frame) :
  forall st, frames_follow st fs ->
    map f_cpu_peak_power fs = peak_trace (cpu_peak_power st) (map f_cpu_w fs) /\
    map f_gpu_peak_power fs = peak_trace (gpu_peak_power st) (map f_gpu_w fs) /\
    map f_package_peak_power fs = peak_trace (package_peak_power st) (map f_pkg_w fs).
Proof.
  induction fs as [|f rest IH]; intros st; simpl; [auto|].
  intros [(_ & Hc & Hg & Hp & _) Hrest].
  destruct (IH _ Hrest) as (IHc & IHg & IHp). simpl in IHc, IHg, IHp.
  rewrite IHc, IHg, IHp, Hc, Hg, Hp. auto.
Qed.

Lemma peak_trace_sorted (ws : list Q) :
  forall p, StronglySorted Qle (p :: peak_trace p ws).
Proof.
  induction ws as [|w rest IH]; intros p; simpl; [repeat constructor|].
  specialize (IH (update_peak p w)).
  constructor; [exact IH|].
  destruct (update_peak_max p w) as (Hp & _ & _).
  inversion IH as [|? ? _ Hall]; subst.
  constructor; [exact Hp|].
  eapply Forall_impl; [exact Hall|]. simpl. intros q Hq. lra.
Qed.

(** Two frames displayed one after the other, with or without a restart
    in between: the second is computed from what the first left behind. *)
Lemma follow_adjacent (fs1 : list frame) (f1 f2 : frame) (fs2 : list frame) :
  forall st, frames_follow st (fs1 ++ f1 :: f2 :: fs2) ->
             exists st1, frame_from (after_frame st1 f1) f2.
Proof.
  induction fs1 as [|f rest IH]; intros st; simpl.
  - intros (_ & H & _). exists st. exact H.
  - intros [_ H]. exact (IH _ H).
Qed.

(** C3. The timestamps of the readings a run accepts are strictly
    increasing and all newer than the last one accepted before; this holds
    for a whole session as well.  A reading that is not newer than the
    last accepted one displays nothing and leaves the aggregation state
    (peaks, windows, last accepted timestamp) as it was. *)
Theorem accepted_timestamps_strictly_increase :
  (forall args st polls,
      StronglySorted Qlt
        (last_timestamp st :: accepted_timestamps (Py.events (run args st polls)))) /\
  (forall args soc polls,
      StronglySorted Qlt (accepted_timestamps (Py.events (session args soc polls)))) /\
  (forall args st r,
      (timestamp r <= last_timestamp st)%Q ->
      frames (Py.events (loop_body args st (Some r))) = [] /\
      forall st', Py.result (loop_body args st (Some r)) = Ret st' ->
                  same_aggregation st st').
Proof.
  split; [|split].
  - intros args st polls. apply follow_timestamps_sorted, run_frames_follow.
  - intros args soc polls. unfold accepted_timestamps.
    destruct (session_frames args soc polls) as [->|(first & rest & st0 & _ & _ & ->)].
    + constructor.
    + pose proof (follow_timestamps_sorted _ _ (run_frames_follow args rest st0)) as H.
      inversion H; assumption.
  - intros args st r Hstale.
    destruct (loop_body_cases args st (Some r)) as [H|(r' & f & Hr & Hts & Hfrom & _)];
      [exact H|].
    exfalso. injection Hr as <-. destruct Hfrom as [Hgt _].
    apply float_gt_spec in Hgt. rewrite (proj1 Hts) in Hgt. lra.
Qed.

(** C3 at a concrete run: readings stamped 1, 1, 0, 2 after a first
    reading stamped 0; the duplicate and the older one are dropped. *)
Lemma accepted_timestamps_example :
  accepted_timestamps
    (Py.events (run Demo.args_default Demo.state0
                  [Some (Demo.sample 1 10); Some (Demo.sample 1 11);
                   Some (Demo.sample 0 12); None; Some (Demo.sample 2 13)]))
  = [1%Q; 2%Q] /\
  frames (Py.events (loop_body Demo.args_default Demo.state0 (Some (Demo.sample 0 12)))) = [].
Proof.
  split; [vm_compute; reflexivity|].
  apply (proj2 (proj2 accepted_timestamps_strictly_increase)
           Demo.args_default Demo.state0 (Demo.sample 0 12)).
  vm_compute. discriminate.
Defined.

(** ** vtop.py: the peak trackers *)

(** C5, as the specification words it, fails: after a restart of the
    sampling process the peak is not reset to the first pushed value.  A
    reading of 9 W, a restart, then a reading of 5 W: the frame displayed
    after the restart still shows a peak of 9 W. *)
Lemma peak_survives_restart :
  Py.events (run Demo.restart_args Demo.state0 Demo.restart_polls)
    = [Display Demo.frame_9W; Restart; Display Demo.frame_5W] /\
  (f_cpu_w Demo.frame_5W == 5)%Q /\
  (f_cpu_peak_power Demo.frame_5W == 9)%Q /\
  ~ Spec.peaks_reset_on_restart
      (Py.events (run Demo.restart_args Demo.state0 Demo.restart_polls)).
Proof.
  split; [vm_compute; reflexivity|].
  split; [vm_compute; reflexivity|].
  split; [vm_compute; reflexivity|].
  vm_compute. intros [[H _] _]. discriminate H.
Qed.

(** C5, amended.  Over any run, restarts included, each displayed peak is
    the maximum of the previous peak and the pushed value, so the peaks
    never decrease; a restart of the sampling process leaves them alone;
    they start at 0 when [main] begins. *)
Theorem peaks_never_decrease_nor_reset :
  (forall args st polls,
      let fs := frames (Py.events (run args st polls)) in
      (map f_cpu_peak_power fs = peak_trace (cpu_peak_power st) (map f_cpu_w fs) /\
       map f_gpu_peak_power fs = peak_trace (gpu_peak_power st) (map f_gpu_w fs) /\
       map f_package_peak_power fs
         = peak_trace (package_peak_power st) (map f_pkg_w fs)) /\
      StronglySorted Qle (cpu_peak_power st :: map f_cpu_peak_power fs) /\
      StronglySorted Qle (gpu_peak_power st :: map f_gpu_peak_power fs) /\
      StronglySorted Qle (package_peak_power st :: map f_package_peak_power fs)) /\
  (forall p w, (p <= update_peak p w)%Q /\ (w <= update_peak p w)%Q /\
               (update_peak p w = p \/ update_peak p w = w)) /\
  (forall args st polls log1 f1 f2 log2,
      Py.events (run args st polls) = log1 ++ Display f1 :: Restart :: Display f2 :: log2 ->
      f_cpu_peak_power f2 = update_peak (f_cpu_peak_power f1) (f_cpu_w f2) /\
      f_gpu_peak_power f2 = update_peak (f_gpu_peak_power f1) (f_gpu_w f2) /\
      f_package_peak_power f2 = update_peak (f_package_peak_power f1) (f_pkg_w f2)) /\
  (forall args soc first st,
      main_init args soc first = Ret st ->
      cpu_peak_power st = 0%Q /\ gpu_peak_power st = 0%Q /\ package_peak_power st = 0%Q).
Proof.
  split; [|split; [|split]].
  - intros args st polls fs.
    destruct (follow_peaks fs st (run_frames_follow args polls st)) as (Hc & Hg & Hp).
    split; [auto|]. rewrite Hc, Hg, Hp.
    repeat split; apply peak_trace_sorted.
  - exact update_peak_max.
  - intros args st polls log1 f1 f2 log2 Hlog.
    pose proof (run_frames_follow args polls st) as Hfollow.
    rewrite Hlog, frames_app in Hfollow. simpl in Hfollow.
    destruct (follow_adjacent _ _ _ _ _ Hfollow) as [st1 (_ & Hc & Hg & Hp & _)].
    simpl in Hc, Hg, Hp. auto.
  - intros args soc first st. unfold main_init.
    destruct (window_capacity args); [|discriminate].
    destruct (deque_new _); [|discriminate].
    intros H. inversion H. simpl. auto.
Qed.

(** C5 at the run with a restart: the peak shown after the restart is the
    maximum of the peak shown before it and the value pushed after it. *)
Lemma peaks_across_restart_example :
  f_cpu_peak_power Demo.frame_5W
    = update_peak (f_cpu_peak_power Demo.frame_9W) (f_cpu_w Demo.frame_5W).
Proof.
  apply (proj1 (proj2 (proj2 peaks_never_decrease_nor_reset))
           Demo.restart_args Demo.state0 Demo.restart_polls
           [] Demo.frame_9W Demo.frame_5W []).
  vm_compute. reflexivity.
Defined.

(** ** vtop.py: the rolling windows *)












(** ** vtop.py: the power-utilization percentage *)


Lemma power_pct_defined (w : Q) (max_power : Z) :
  max_power <> 0 ->
  power_pct w max_power
    = Ret (Z.min 100 (Py.int_of_float (power_ratio w max_power))).
Proof.
  intros H. unfold power_pct, Py.float_truediv.
  destruct (Z.eqb_spec max_power 0); [contradiction|reflexivity].
Qed.

Lemma power_pct_ret (w : Q) (max_power pct : Z) :
  power_pct w max_power = Ret pct ->
  max_power <> 0 /\
  pct = Z.min 100 (Py.int_of_float (power_ratio w max_power)).
Proof.
  unfold power_pct, Py.float_truediv.
  destruct (Z.eqb_spec max_power 0); [discriminate|].
  intros H. inversion H. auto.
Qed.


(** The double of the percentage has the sign of the watts, and is at
    least 100 as soon as the watts reach the maximum. *)
Lemma power_ratio_nonneg (w : Q) (max_power : Z) :
  (0 <= w)%Q -> 0 < max_power -> (0 <= power_ratio w max_power)%Q.
Proof.
  intros Hw Hm. unfold power_ratio, Py.fmul, Py.fdiv, Py.float_of_int.
  assert (Hf : (0 <= fl (inject_Z max_power))%Q).
  { apply fl_nonneg. change 0%Q with (inject_Z 0). rewrite <- Zle_Qle. lia. }
  assert (Hq : (0 <= fl (w / fl (inject_Z max_power)))%Q).
  { apply fl_nonneg. unfold Qdiv.
    apply Qmult_le_0_compat; [exact Hw|]. apply Qinv_le_0_compat, Hf. }
  apply fl_nonneg. lra.
Qed.


Lemma or_default_nonzero (o : option Z) (d : Z) : d <> 0 -> Py.or_default o d <> 0.
Proof.
  intros Hd. unfold Py.or_default. destruct o as [v|]; [|exact Hd].
  destruct (Z.eqb_spec v 0); assumption.
Qed.





(** ** vtop.py: instantaneous watts *)

Lemma power_reading_ret (args : Args) (r : reading) (key : string) (w : Q) :
  power_reading args r key = Ret w ->
  exists v raw,
    cpu_metrics r !! key = Some v /\ Py.as_number v = Ret raw /\
    interval args <> 0 /\ w = (raw / inject_Z (interval args))%Q.
Proof.
  unfold power_reading, Py.dict_getitem, Py.truediv.
  destruct (cpu_metrics r !! key) as [v|]; [|discriminate].
  destruct (Py.as_number v) as [raw|] eqn:Hraw; [|discriminate].
  destruct (Z.eqb_spec (interval args) 0) as [|Hi]; [discriminate|].
  intros H. inversion H. exists v, raw. auto.
Qed.





(** ** intel.py: the power fields of a reading *)

(** The per-core loop writes only keys that start with ["P-Cluster"]. *)
Lemma add_per_core_lookup_other (key : string) (cores : list (Q * Q)) :
  (forall s, key <> ("P-Cluster" +:+ s)%string) ->
  forall i (d : pydict), add_per_core i cores d !! key = d !! key.
Proof.
  intros Hkey. induction cores as [|[percent freq] rest IH]; intros i d; simpl.
  - reflexivity.
  - rewrite IH. rewrite !lookup_insert_ne; [reflexivity| |];
      intros Heq; exact (Hkey _ (eq_sym Heq)).
Qed.

Lemma intel_body_fields (env : intel_env) (r : reading) :
  intel_metrics_body env = Ret r ->
  (cpu_metrics r !! "cpu_W"%string = Some (VFloat 0) /\
   cpu_metrics r !! "gpu_W"%string = Some (VFloat 0) /\
   cpu_metrics r !! "package_W"%string = Some (VFloat 0) /\
   cpu_metrics r !! "ane_W"%string = Some (VFloat 0)) /\
  (gpu_metrics r !! "active"%string = Some (VInt 0) /\
   gpu_metrics r !! "freq_MHz"%string = Some (VInt 0)).
Proof.
  unfold intel_metrics_body.
  destruct (cpu_percent env) as [per_cpu_percent|]; [|discriminate].
  destruct (cpu_freq_percpu env) as [cpu_freq0|]; [|discriminate].
  destruct (settle_cpu_freq env (length per_cpu_percent) cpu_freq0) as [cpu_freq|];
    [|discriminate].
  assert (Hbase : forall (key : string) (v w : pyval) (d : pydict),
    key <> "P-Cluster_freq_Mhz"%string -> key <> "P-Cluster_active"%string ->
    (forall s, key <> ("P-Cluster" +:+ s)%string) ->
    (<["P-Cluster_freq_Mhz"%string := v]>
       (<["P-Cluster_active"%string := w]>
          (add_per_core 0 (zip per_cpu_percent cpu_freq) d))) !! key = d !! key).
  { intros key v w d H1 H2 H3.
    rewrite !lookup_insert_ne by congruence.
    apply add_per_core_lookup_other, H3. }
  destruct per_cpu_percent as [|p0 ps].
  - intros H. inversion H; subst; clear H. simpl cpu_metrics. simpl gpu_metrics.
    split; [|split; reflexivity].
    repeat split; (rewrite Hbase; [reflexivity|discriminate|discriminate|]);
      intros s Hs; discriminate Hs.
  - destruct (Py.float_truediv _ _) as [avg_active|]; [|discriminate].
    destruct (Py.int_truediv_in_range _ _) as [avg_freq|]; [|discriminate].
    intros H. inversion H; subst; clear H. simpl cpu_metrics. simpl gpu_metrics.
    split; [|split; reflexivity].
    repeat split; (rewrite Hbase; [reflexivity|discriminate|discriminate|]);
      intros s Hs; discriminate Hs.
Qed.

Lemma intel_get_metrics_ret (env : intel_env) (r : reading) :
  Py.result (intel_get_metrics env) = Ret (Some r) -> intel_metrics_body env = Ret r.
Proof.
  unfold intel_get_metrics. destruct (intel_metrics_body env) as [r'|e]; simpl.
  - intros H. inversion H. reflexivity.
  - discriminate.
Qed.

(** The watt values read from a uniform-core reading are zero. *)
Lemma intel_power_reading (args : Args) (r : reading) (key : string) (w : Q) :
  intel_reading r ->
  key = "cpu_W"%string \/ key = "gpu_W"%string \/ key = "package_W"%string ->
  power_reading args r key = Ret w -> (w == 0)%Q.
Proof.
  intros [env Henv] Hkey Hread.
  apply intel_get_metrics_ret, intel_body_fields in Henv.
  destruct Henv as [(Hc & Hg & Hp & _) _].
  apply power_reading_ret in Hread.
  destruct Hread as (v & raw & Hv & Hraw & _ & ->).
  assert (v = VFloat 0) as -> by (destruct Hkey as [ -> | [ -> | -> ] ]; congruence).
  simpl in Hraw. inversion Hraw. unfold Qdiv. ring.
Qed.

(** ** vtop.py: what a run displays when nothing but zeros come in *)

Lemma int_of_float_zero (x : Q) : (x == 0)%Q -> Py.int_of_float x = 0.
Proof.
  unfold Qeq, Py.int_of_float. simpl. intros H.
  replace (Qnum x) with 0 by lia. reflexivity.
Qed.

Lemma power_pct_zero (w : Q) (max_power pct : Z) :
  (w == 0)%Q -> power_pct w max_power = Ret pct -> pct = 0.
Proof.
  intros Hw H. apply power_pct_ret in H. destruct H as [_ ->].
  rewrite int_of_float_zero; [reflexivity|].
  unfold power_ratio, Py.fmul, Py.fdiv.
  rewrite (fl_zero (w / _)) by (rewrite Hw; unfold Qdiv; ring).
  rewrite fl_zero; reflexivity.
Qed.

Lemma update_peak_zero (p w : Q) : (p == 0)%Q -> (w == 0)%Q -> (update_peak p w == 0)%Q.
Proof.
  intros Hp Hw. destruct (update_peak_max p w) as (_ & _ & [ -> | -> ]); assumption.
Qed.

Lemma deque_append_forall (P : Q -> Prop) (d : deque) (x : Q) :
  Forall P (items d) -> P x -> Forall P (items (deque_append d x)).
Proof.
  intros Hd Hx. unfold deque_append.
  assert (Hgrown : Forall P (items d ++ [x])) by (apply Forall_app; auto).
  destruct (maxlen d <? _); simpl; [|exact Hgrown].
  destruct (items d ++ [x]); simpl; [constructor|].
  inversion Hgrown; assumption.
Qed.

Lemma get_avg_zero (d : deque) :
  Forall (fun x => x == 0)%Q (items d) -> (get_avg d == 0)%Q.
Proof.
  intros Hd. unfold get_avg. destruct (items d) as [|x l] eqn:Hitems; [reflexivity|].
  assert (Hsum : forall (k : list Q) acc, (acc == 0)%Q ->
                   Forall (fun x => x == 0)%Q k -> (fold_left Py.fadd k acc == 0)%Q).
  { induction k as [|y rest IH]; intros acc Hacc Hk; simpl; [exact Hacc|].
    inversion Hk as [|? ? Hy Hrest]; subst. apply IH; [|exact Hrest].
    unfold Py.fadd. rewrite fl_zero; [reflexivity|]. rewrite Hacc, Hy. reflexivity. }
  unfold py_sum, Py.fdiv. rewrite fl_zero; [reflexivity|].
  rewrite (Hsum (x :: l) 0%Q); [unfold Qdiv; ring|reflexivity|exact Hd].
Qed.

Lemma zero_state_same (s1 s2 : state) :
  same_aggregation s1 s2 -> zero_state s1 -> zero_state s2.
Proof.
  intros (_ & _ & H3 & H4 & H5 & _ & H7 & H8). unfold zero_state.
  rewrite H3, H4, H5, H7, H8. exact (fun H => H).
Qed.

Lemma zero_frame_step (st : state) (f : frame) :
  zero_state st ->
  (f_cpu_w f == 0)%Q -> (f_gpu_w f == 0)%Q -> (f_pkg_w f == 0)%Q ->
  frame_values st f ->
  zero_frame f /\ zero_state (after_frame st f).
Proof.
  intros ((Zc & Zg & Zp) & Zcl & Zgl) Hc Hg Hp (Pc & Pg & Pp & Ac & Ag & Cc & Cg).
  assert (Hpc : (f_cpu_peak_power f == 0)%Q) by (rewrite Pc; apply update_peak_zero; auto).
  assert (Hpg : (f_gpu_peak_power f == 0)%Q) by (rewrite Pg; apply update_peak_zero; auto).
  assert (Hpp : (f_package_peak_power f == 0)%Q)
    by (rewrite Pp; apply update_peak_zero; auto).
  assert (Hcl : Forall (fun x => x == 0)%Q
                  (items (deque_append (avg_cpu_power_list st) (f_cpu_w f))))
    by (apply deque_append_forall; auto).
  assert (Hgl : Forall (fun x => x == 0)%Q
                  (items (deque_append (avg_gpu_power_list st) (f_gpu_w f))))
    by (apply deque_append_forall; auto).
  split.
  - unfold zero_frame. rewrite Ac, Ag.
    repeat split; try assumption.
    + apply get_avg_zero, Hcl.
    + exact (power_pct_zero _ _ _ Hc Cc).
    + apply get_avg_zero, Hgl.
    + exact (power_pct_zero _ _ _ Hg Cg).
  - unfold zero_state, after_frame. simpl. auto.
Qed.

(** A run fed nothing but uniform-core readings, from a state of zeros,
    displays nothing but zero frames. *)
Lemma run_zero (args : Args) (polls : list (option reading)) :
  Forall (fun p => forall r, p = Some r -> intel_reading r) polls ->
  forall st, zero_state st ->
             Forall zero_frame (frames (Py.events (run args st polls))).
Proof.
  induction 1 as [|ready rest Hready _ IH]; intros st Hst; [constructor|].
  simpl run.
  pose proof (loop_body_cases args st ready) as Hbody.
  assert (Hframe : forall r f, ready = Some r -> frame_reads args r f ->
                               frame_from st f ->
                               zero_frame f /\ zero_state (after_frame st f)).
  { intros r f Hr (_ & Rc & Rg & Rp) [_ Hvals].
    specialize (Hready r Hr).
    apply zero_frame_step; try assumption.
    - exact (intel_power_reading args r _ _ Hready (or_introl eq_refl) Rc).
    - exact (intel_power_reading args r _ _ Hready (or_intror (or_introl eq_refl)) Rg).
    - exact (intel_power_reading args r _ _ Hready (or_intror (or_intror eq_refl)) Rp). }
  destruct (loop_body args st ready) as [l [st1|e]].
  - rewrite events_bind_ret, frames_app.
    destruct Hbody as [[Hl Hres]|(r & f & Hr & Hreads & Hfrom & Hl & Hres)];
      simpl in Hl; rewrite Hl; simpl.
    + apply IH. eapply zero_state_same; [apply Hres; reflexivity|exact Hst].
    + destruct (Hframe r f Hr Hreads Hfrom) as [Hzf Hzs].
      constructor; [exact Hzf|].
      apply IH. eapply zero_state_same; [apply Hres; reflexivity|exact Hzs].
  - simpl.
    destruct Hbody as [[Hl _]|(r & f & Hr & Hreads & Hfrom & Hl & _)];
      simpl in Hl; rewrite Hl; [constructor|].
    destruct (Hframe r f Hr Hreads Hfrom) as [Hzf _].
    constructor; [exact Hzf|constructor].
Qed.

Lemma get_reading_rest {P : option reading -> Prop} (polls : list (option reading)) :
  forall first rest, get_reading polls = Some (first, rest) ->
                     Forall P polls -> Forall P rest.
Proof.
  induction polls as [|[r|] more IH]; intros first rest; simpl.
  - discriminate.
  - intros H Hall. inversion H; subst. inversion Hall; assumption.
  - intros H Hall. apply (IH first rest H). inversion Hall; assumption.
Qed.

Lemma main_init_zero (args : Args) (soc : soc_info) (first : reading) (st : state) :
  main_init args soc first = Ret st -> zero_state st.
Proof.
  unfold main_init, deque_new.
  destruct (window_capacity args) as [cap|]; [|discriminate].
  destruct ((cap <? - 2 ^ 63) || (2 ^ 63 <=? cap)); [discriminate|].
  destruct (cap <? 0); [discriminate|].
  intros H. inversion H. unfold zero_state. simpl.
  repeat split; try reflexivity; constructor.
Qed.

(** C9. A reading returned by a successful call of the uniform-core
    provider's [get_metrics] has all four power fields equal to 0.0 and
    both GPU metrics equal to 0; hence a session fed by that provider
    displays only frames whose instantaneous watts, rolling averages,
    peaks and power percentages are all zero. *)
Theorem intel_power_is_zero :
  (forall env r,
      Py.result (intel_get_metrics env) = Ret (Some r) ->
      (cpu_metrics r !! "cpu_W"%string = Some (VFloat 0) /\
       cpu_metrics r !! "gpu_W"%string = Some (VFloat 0) /\
       cpu_metrics r !! "package_W"%string = Some (VFloat 0) /\
       cpu_metrics r !! "ane_W"%string = Some (VFloat 0)) /\
      (gpu_metrics r !! "active"%string = Some (VInt 0) /\
       gpu_metrics r !! "freq_MHz"%string = Some (VInt 0))) /\
  (forall args soc polls,
      Forall (fun p => forall r, p = Some r -> intel_reading r) polls ->
      Forall zero_frame (frames (Py.events (session args soc polls)))).
Proof.
  split.
  - intros env r H. apply intel_body_fields with env, intel_get_metrics_ret, H.
  - intros args soc polls Hpolls.
    destruct (session_frames args soc polls)
      as [->|(first & rest & st0 & Hget & Hinit & ->)]; [constructor|].
    apply run_zero.
    + exact (get_reading_rest polls first rest Hget Hpolls).
    + exact (main_init_zero _ _ _ _ Hinit).
Qed.

(** C9 at a concrete session: three readings of the uniform-core provider
    stamped 5, 6 and 7; the first starts the session and the two others
    are displayed, as two frames of zeros. *)
Lemma intel_power_example :
  cpu_metrics Demo.idle_reading !! "cpu_W"%string = Some (VFloat 0) /\
  Forall zero_frame
    (frames (Py.events (session Demo.args_default
                          (intel_get_soc_info (Some "Intel(R) Core(TM) i7"%string) 2)
                          Demo.intel_polls))) /\
  map f_timestamp
    (frames (Py.events (session Demo.args_default
                          (intel_get_soc_info (Some "Intel(R) Core(TM) i7"%string) 2)
                          Demo.intel_polls))) = [6; 7]%Q.
Proof.
  assert (Hidle : intel_reading Demo.idle_reading).
  { exists Demo.idle_env. vm_compute. reflexivity. }
  assert (Hbusy : forall t, intel_reading (Demo.busy_reading t)).
  { intros t. exists (Demo.busy_env t). reflexivity. }
  split; [|split].
  - apply (proj1 intel_power_is_zero Demo.idle_env Demo.idle_reading).
    vm_compute. reflexivity.
  - apply (proj2 intel_power_is_zero).
    unfold Demo.intel_polls.
    repeat constructor; intros r Hr; inversion Hr; subst;
      first [exact Hidle | apply Hbusy].
  - vm_compute. reflexivity.
Defined.

(** ** apple_silicon.py: the power-limit table *)

Lemma prefix_empty (s : string) : String.prefix EmptyString s = true.
Proof. destruct s; reflexivity. Qed.

Lemma padding_length (n : nat) : String.length (padding n) = n.
Proof. induction n as [|k IH]; simpl; [reflexivity|]. rewrite IH. reflexivity. Qed.

Lemma padding_contains_no_M (c : ascii) (n : nat) :
  contains (String "M" (String c EmptyString)) (padding n) = false.
Proof. induction n as [|k IH]; simpl; [reflexivity|]. exact IH. Qed.

Lemma table_lookup_long {table : list (string * (option Z * option Z))}
    (dflt : option Z * option Z) (name : string) :
  (max_key_length table < String.length name)%nat ->
  Spec.table_lookup table dflt name = dflt.
Proof.
  induction table as [|[key limits] rest IH]; simpl; [reflexivity|].
  intros Hlen. destruct (String.eqb_spec key name) as [->|_]; [lia|].
  apply IH. lia.
Qed.

(** C7, as the specification words it, fails: the table is not keyed by
    exact chip name.  No finite table of exact names with a default
    computes the limits the code stores, because every name that contains
    ["M3"] gets 30 W and 30 W. *)
Lemma power_limits_not_an_exact_table :
  power_limits_of "Apple M3 Pro" = (Some 30, Some 30) /\
  ~ In "Apple M3 Pro"%string exact_names /\
  ~ exists table dflt, forall name,
        power_limits_of name = Spec.table_lookup table dflt name.
Proof.
  split; [reflexivity|]. split.
  - simpl. intros H. repeat (destruct H as [H|H]; [discriminate H|]). exact H.
  - intros (table & dflt & Htable).
    set (m := max_key_length table).
    assert (Hm : (max_key_length table <= m)%nat) by reflexivity. clearbody m.
    pose proof (Htable (padding (S m))) as Hplain.
    pose proof (Htable (String "M" (String "3" (padding m)))) as Hm3.
    rewrite table_lookup_long in Hplain by (rewrite padding_length; lia).
    rewrite table_lookup_long in Hm3 by (simpl; rewrite padding_length; lia).
    assert (H1 : power_limits_of (padding (S m)) = (Some 20, Some 20)).
    { unfold power_limits_of, _set_power_limits. cbn.
      rewrite (padding_contains_no_M "3"), (padding_contains_no_M "4").
      reflexivity. }
    assert (H2 : power_limits_of (String "M" (String "3" (padding m)))
                 = (Some 30, Some 30)).
    { unfold power_limits_of, _set_power_limits. cbn.
      rewrite prefix_empty. reflexivity. }
    congruence.
Qed.

Lemma not_exact_name (name : string) :
  ~ In name exact_names ->
  String.eqb name "Apple M1 Max" = false /\
  String.eqb name "Apple M1 Pro" = false /\
  String.eqb name "Apple M1" = false /\
  String.eqb name "Apple M1 Ultra" = false /\
  String.eqb name "Apple M2" = false.
Proof.
  intros H. repeat split; apply String.eqb_neq; intros ->; apply H; simpl; auto 6.
Qed.

(** C7, amended.  [_set_power_limits] always stores both limits, each at
    least 15 W: the five M1/M2 names are matched exactly, any other name
    that contains ["M3"] or ["M4"] gets the limits of that family, and
    every remaining name gets the default 20 W and 20 W; so the limits
    the session divides by are never unset nor zero. *)
Theorem power_limits_always_set :
  (forall soc, exists cpu gpu,
      soc_cpu_max_power (_set_power_limits soc) = Some cpu /\
      soc_gpu_max_power (_set_power_limits soc) = Some gpu /\
      15 <= cpu /\ 15 <= gpu /\
      soc_name (_set_power_limits soc) = soc_name soc) /\
  (power_limits_of "Apple M1 Max" = (Some 30, Some 60) /\
   power_limits_of "Apple M1 Pro" = (Some 30, Some 30) /\
   power_limits_of "Apple M1" = (Some 20, Some 20) /\
   power_limits_of "Apple M1 Ultra" = (Some 60, Some 120) /\
   power_limits_of "Apple M2" = (Some 25, Some 15)) /\
  (forall name, ~ In name exact_names ->
     power_limits_of name =
       if contains "M3" name then (Some 30, Some 30)
       else if contains "M4" name then (Some 35, Some 35)
       else (Some 20, Some 20)) /\
  (forall soc w, exists cpu_pct gpu_pct,
      power_pct w (Py.or_default (soc_cpu_max_power (_set_power_limits soc)) 50)
        = Ret cpu_pct /\
      power_pct w (Py.or_default (soc_gpu_max_power (_set_power_limits soc)) 25)
        = Ret gpu_pct).
Proof.
  split; [|split; [|split]].
  - intros soc. unfold _set_power_limits.
    repeat match goal with
           | |- context [if ?b then _ else _] => destruct b
           end; simpl; eexists _, _; repeat split; lia.
  - repeat split.
  - intros name Hname.
    destruct (not_exact_name name Hname) as (H1 & H2 & H3 & H4 & H5).
    unfold power_limits_of, _set_power_limits. simpl soc_name.
    rewrite H1, H2, H3, H4, H5.
    destruct (contains "M3" name); [reflexivity|].
    destruct (contains "M4" name); reflexivity.
  - intros soc w. eexists _, _.
    split; apply power_pct_defined, or_default_nonzero; discriminate.
Qed.

(** C7 at a name the table does not know. *)
Lemma power_limits_example :
  power_limits_of "Apple A18 Pro" = (Some 20, Some 20).
Proof.
  apply (proj1 (proj2 (proj2 power_limits_always_set)) "Apple A18 Pro"%string).
  simpl. intros H. repeat (destruct H as [H|H]; [discriminate H|]). exact H.
Defined.

(** ** factory.py: provider selection *)

Lemma append_assoc (a b c : string) : ((a +:+ b) +:+ c = a +:+ (b +:+ c))%string.
Proof.
  induction a as [|x a IH]; [reflexivity|].
  change (String x ((a +:+ b) +:+ c) = String x (a +:+ (b +:+ c)))%string.
  rewrite IH. reflexivity.
Qed.

(** The error message ends with the detected system and machine. *)
Lemma unsupported_message_names_host (arch : string) (h : host) :
  exists pre,
    unsupported_message arch h
    = (pre +:+ "Detected system: " +:+ platform_system h +:+ " "
           +:+ platform_machine h)%string.
Proof.
  exists ("Unsupported or unknown architecture: " +:+ arch +:+
          String "010" "vtop currently supports Apple Silicon and Intel CPUs on macOS."
          +:+ String "010" EmptyString)%string.
  unfold unsupported_message.
  rewrite !append_assoc. reflexivity.
Qed.

(** Detection on a host that is not macOS: nothing is probed. *)
Lemma detect_not_darwin (h : host) :
  platform_system h <> "Darwin"%string ->
  detect_architecture h = ([], Ret "unknown"%string).
Proof.
  intros H. unfold detect_architecture.
  apply String.eqb_neq in H. rewrite H. reflexivity.
Qed.

(** Detection on macOS when the brand string was read. *)
Lemma detect_darwin (h : host) (raw : string) :
  platform_system h = "Darwin"%string -> brand_string h = Ret raw ->
  detect_architecture h =
    ([], Ret (if contains "Apple" (strip raw) then "apple_silicon"
              else if contains "Intel" (strip raw) then "intel"
              else if String.eqb (lower (platform_machine h)) "arm64"
                      || String.eqb (lower (platform_machine h)) "aarch64"
              then "apple_silicon"
              else if String.eqb (lower (platform_machine h)) "x86_64"
                      || String.eqb (lower (platform_machine h)) "i386"
                      || String.eqb (lower (platform_machine h)) "i686"
              then "intel"
              else "unknown")%string).
Proof.
  intros Hsys Hbrand. unfold detect_architecture. rewrite Hsys, Hbrand. simpl.
  destruct (contains "Apple" (strip raw)); [reflexivity|].
  destruct (contains "Intel" (strip raw)); [reflexivity|].
  destruct (String.eqb (lower (platform_machine h)) "arm64"
            || String.eqb (lower (platform_machine h)) "aarch64"); [reflexivity|].
  destruct (String.eqb (lower (platform_machine h)) "x86_64"
            || String.eqb (lower (platform_machine h)) "i386"
            || String.eqb (lower (platform_machine h)) "i686"); reflexivity.
Qed.

(** Detection on macOS when reading the brand string raised. *)
Lemma detect_probe_failed (h : host) (e : exn) :
  platform_system h = "Darwin"%string -> brand_string h = Raise e ->
  detect_architecture h =
    (["Warning: Could not detect architecture"%string], Ret "unknown"%string).
Proof.
  intros Hsys Hbrand. unfold detect_architecture. rewrite Hsys, Hbrand. reflexivity.
Qed.

(** [detect_architecture] never raises. *)
Lemma detect_total (h : host) :
  exists log arch, detect_architecture h = (log, Ret arch).
Proof.
  destruct (String.eqb_spec (platform_system h) "Darwin") as [Hsys|Hsys].
  - destruct (brand_string h) as [raw|e] eqn:Hbrand.
    + eexists _, _. apply (detect_darwin h raw Hsys Hbrand).
    + eexists _, _. apply (detect_probe_failed h e Hsys Hbrand).
  - eexists _, _. apply (detect_not_darwin h Hsys).
Qed.

(** C8, as the specification words it, fails: when the host is not macOS
    neither the brand string nor the machine type is consulted.  On Linux
    on 64-bit ARM the stated order yields the tag of [arm64]; the code
    raises the error for an unknown architecture. *)
Lemma linux_aarch64_is_rejected :
  Spec.architecture_tag None "" (platform_machine Demo.linux_aarch64)
    = "apple_silicon"%string /\
  get_system_provider None Demo.linux_aarch64
    = ([], Raise (RuntimeError (unsupported_message "unknown" Demo.linux_aarch64))) /\
  get_system_provider None Demo.darwin_arm64 = ([], Ret AppleSiliconProvider) /\
  Py.result (get_system_provider None Demo.linux_aarch64) <> Ret AppleSiliconProvider.
Proof. repeat split. discriminate. Qed.

(** C8, amended.  A non-empty override decides alone, without probing.
    Otherwise, on a host that is not macOS the architecture is unknown
    without any probe; on macOS the brand string is searched for "Apple",
    then "Intel", and only then the lower-cased machine type decides,
    [arm64] and [aarch64] giving the same provider; a failed probe gives
    unknown.  Any tag other than the two supported ones raises a
    [RuntimeError] whose message ends with the detected system and
    machine, and a provider is returned in no other way. *)
Theorem provider_selection_order :
  (forall h,
      get_system_provider (Some "apple_silicon"%string) h = ([], Ret AppleSiliconProvider) /\
      get_system_provider (Some "intel"%string) h = ([], Ret IntelProvider)) /\
  (forall force h,
      force <> EmptyString -> force <> "apple_silicon"%string -> force <> "intel"%string ->
      get_system_provider (Some force) h
        = ([], Raise (RuntimeError (unsupported_message force h)))) /\
  (forall h, get_system_provider (Some EmptyString) h = get_system_provider None h) /\
  (forall h,
      platform_system h <> "Darwin"%string ->
      get_system_provider None h
        = ([], Raise (RuntimeError (unsupported_message "unknown" h)))) /\
  (forall h raw,
      platform_system h = "Darwin"%string -> brand_string h = Ret raw ->
      let machine := lower (platform_machine h) in
      get_system_provider None h =
        if contains "Apple" (strip raw) then ([], Ret AppleSiliconProvider)
        else if contains "Intel" (strip raw) then ([], Ret IntelProvider)
        else if String.eqb machine "arm64" || String.eqb machine "aarch64"
        then ([], Ret AppleSiliconProvider)
        else if String.eqb machine "x86_64" || String.eqb machine "i386"
                || String.eqb machine "i686"
        then ([], Ret IntelProvider)
        else ([], Raise (RuntimeError (unsupported_message "unknown" h)))) /\
  (forall h e,
      platform_system h = "Darwin"%string -> brand_string h = Raise e ->
      get_system_provider None h
        = (["Warning: Could not detect architecture"%string],
           Raise (RuntimeError (unsupported_message "unknown" h)))) /\
  (forall force h,
      match Py.result (get_system_provider force h) with
      | Ret _ => True
      | Raise e => exists arch pre,
          e = RuntimeError (unsupported_message arch h) /\
          unsupported_message arch h
          = (pre +:+ "Detected system: " +:+ platform_system h +:+ " "
                 +:+ platform_machine h)%string
      end).
Proof.
  split; [|split; [|split; [|split; [|split; [|split]]]]].
  - intros h. split; reflexivity.
  - intros force h Hne Ha Hi. unfold get_system_provider.
    destruct force as [|c rest]; [congruence|].
    apply String.eqb_neq in Ha, Hi. rewrite bind_ret, Ha, Hi. reflexivity.
  - reflexivity.
  - intros h Hsys. unfold get_system_provider.
    rewrite (detect_not_darwin h Hsys). reflexivity.
  - intros h raw Hsys Hbrand machine. unfold get_system_provider.
    rewrite (detect_darwin h raw Hsys Hbrand). subst machine.
    destruct (contains "Apple" (strip raw)); [reflexivity|].
    destruct (contains "Intel" (strip raw)); [reflexivity|].
    destruct (String.eqb (lower (platform_machine h)) "arm64"
              || String.eqb (lower (platform_machine h)) "aarch64"); [reflexivity|].
    destruct (String.eqb (lower (platform_machine h)) "x86_64"
              || String.eqb (lower (platform_machine h)) "i386"
              || String.eqb (lower (platform_machine h)) "i686"); reflexivity.
  - intros h e Hsys Hbrand. unfold get_system_provider.
    rewrite (detect_probe_failed h e Hsys Hbrand). reflexivity.
  - intros force h. unfold get_system_provider.
    assert (Hfinal : forall (log : list string) (arch : string),
      match Py.result (do arch0 <- ((log, Ret arch) : Py.M string string) ;;
                       if String.eqb arch0 "apple_silicon" then Py.ret AppleSiliconProvider
                       else if String.eqb arch0 "intel" then Py.ret IntelProvider
                       else Py.raise (RuntimeError (unsupported_message arch0 h))) with
      | Ret _ => True
      | Raise e => exists arch' pre,
          e = RuntimeError (unsupported_message arch' h) /\
          unsupported_message arch' h
          = (pre +:+ "Detected system: " +:+ platform_system h +:+ " "
                 +:+ platform_machine h)%string
      end).
    { intros log arch. rewrite result_bind_ret.
      destruct (String.eqb arch "apple_silicon"); [exact I|].
      destruct (String.eqb arch "intel"); [exact I|]. simpl.
      destruct (unsupported_message_names_host arch h) as [pre Hpre].
      exists arch, pre. split; [reflexivity|exact Hpre]. }
    destruct force as [[|c rest]|].
    + destruct (detect_total h) as (log & arch & ->). apply Hfinal.
    + apply (Hfinal [] (String c rest)).
    + destruct (detect_total h) as (log & arch & ->). apply Hfinal.
Qed.

(** C8 at concrete hosts: a Mac whose brand string names no vendor and
    whose machine type is arm64, and an override no provider exists for. *)
Lemma provider_selection_example :
  get_system_provider None Demo.darwin_arm64 = ([], Ret AppleSiliconProvider) /\
  get_system_provider (Some "riscv"%string) Demo.darwin_arm64
    = ([], Raise (RuntimeError (unsupported_message "riscv" Demo.darwin_arm64))).
Proof.
  split.
  - apply (proj1 (proj2 (proj2 (proj2 (proj2 provider_selection_order))))
             Demo.darwin_arm64 ""%string); reflexivity.
  - apply (proj1 (proj2 provider_selection_order) "riscv"%string Demo.darwin_arm64);
      discriminate.
Defined.

(** * Further properties of the code *)

(** ** Byte buffers: nothing is lost by splitting *)

Lemma join_cons_cons (sep : byte) (r r' : bytes) (rest : list bytes) :
  join sep (r :: r' :: rest) = r ++ sep :: join sep (r' :: rest).
Proof. reflexivity. Qed.

Lemma is_sep_true (sep b : byte) : is_sep sep b = true -> b = sep.
Proof. unfold is_sep. apply Byte.byte_dec_bl. Qed.

(** [data.split(sep)] yields one piece more than there are separators,
    no piece holds a separator, and joining the pieces with the separator
    gives the buffer back. *)
Theorem split_loses_nothing (sep : byte) (data : bytes) :
  join sep (split sep data) = data /\
  Forall (sep_free sep) (split sep data) /\
  length (split sep data) = S (count_sep sep data).
Proof.
  induction data as [|b rest (IHjoin & IHfree & IHlen)]; simpl.
  - repeat split. repeat constructor.
  - destruct (is_sep sep b) eqn:Hb.
    + apply is_sep_true in Hb. subst b.
      pose proof (split_not_nil sep rest) as Hne.
      destruct (split sep rest) as [|cur more] eqn:Hs; [congruence|].
      rewrite join_cons_cons, IHjoin. simpl.
      repeat split; [|simpl in IHlen; lia].
      constructor; [constructor|exact IHfree].
    + pose proof (split_not_nil sep rest) as Hne.
      destruct (split sep rest) as [|cur more] eqn:Hs; [congruence|].
      inversion IHfree as [|? ? Hcur Hmore]; subst.
      repeat split.
      * destruct more as [|r' more'].
        -- simpl in *. congruence.
        -- rewrite join_cons_cons in *. simpl. congruence.
      * constructor; [constructor; assumption|exact Hmore].
      * simpl in *. exact IHlen.
Qed.

(** ** apple_silicon.py: which blobs [get_metrics] looks at *)

Section AppleSiliconMore.

Variable Plist : Type.
Variable plistlib_loads : bytes -> outcome Plist.
Variable parse_thermal_pressure : Plist -> outcome string.
Variable parse_cpu_metrics : Plist -> outcome pydict.
Variable parse_gpu_metrics : Plist -> outcome pydict.
Variable plist_timestamp : Plist -> outcome Q.

Local Abbreviation get_metrics' :=
  (get_metrics Plist plistlib_loads parse_thermal_pressure parse_cpu_metrics
     parse_gpu_metrics plist_timestamp).
Local Abbreviation parse_record' :=
  (parse_record Plist plistlib_loads parse_thermal_pressure parse_cpu_metrics
     parse_gpu_metrics plist_timestamp).

(** The outcome of [get_metrics], and the blobs it hands to the decoder,
    depend on the last two blobs of the buffer only: records before them
    are never read. *)
Theorem get_metrics_reads_last_two (raw1 raw2 : bytes) :
  last_n 2 (split x00 raw1) = last_n 2 (split x00 raw2) ->
  get_metrics' (Ret raw1) = get_metrics' (Ret raw2).
Proof.
  intros Hlast.
  destruct (list_tail_cases (split x00 raw1) (split_not_nil _ _))
    as [[l1 H1]|(i1 & e1 & l1 & H1)];
  destruct (list_tail_cases (split x00 raw2) (split_not_nil _ _))
    as [[l2 H2]|(i2 & e2 & l2 & H2)];
  rewrite H1, H2 in Hlast; rewrite ?last_n_two in Hlast;
  try (change (last_n 2 [l1]) with [l1] in Hlast);
  try (change (last_n 2 [l2]) with [l2] in Hlast);
  try discriminate Hlast.
  - inversion Hlast; subst.
    rewrite (get_metrics_single _ _ _ _ _ _ _ _ H1).
    rewrite (get_metrics_single _ _ _ _ _ _ _ _ H2). reflexivity.
  - inversion Hlast; subst.
    rewrite (get_metrics_several _ _ _ _ _ _ _ _ _ _ H1).
    rewrite (get_metrics_several _ _ _ _ _ _ _ _ _ _ H2). reflexivity.
Qed.

(** When the last record of a null-delimited buffer decodes, [get_metrics]
    returns its reading after a single decode attempt, whatever the
    records before it are. *)
Theorem get_metrics_prefers_last_record
    (records : list bytes) (lst : bytes) (r : reading) :
  Forall (sep_free x00) (records ++ [lst]) ->
  parse_record' lst = Ret r ->
  get_metrics' (Ret (join x00 (records ++ [lst]))) = ([lst], Ret (Some r)).
Proof.
  intros Hfree Hlast.
  assert (Hsplit : split x00 (join x00 (records ++ [lst])) = records ++ [lst]).
  { apply split_join; [|exact Hfree]. destruct records; discriminate. }
  destruct (list_tail_cases (records ++ [lst])) as [[x Hx]|(init & entry & y & Hy)].
  - destruct records; discriminate.
  - rewrite Hx in Hsplit |- *.
    assert (x = lst) as ->.
    { destruct records as [|a [|b t]]; simpl in Hx; inversion Hx; reflexivity. }
    rewrite (get_metrics_single _ _ _ _ _ _ _ _ Hsplit), Hlast. reflexivity.
  - rewrite Hy in Hsplit |- *.
    assert (y = lst) as ->.
    { replace (init ++ [entry; y]) with ((init ++ [entry]) ++ [y]) in Hy
        by (rewrite <- app_assoc; reflexivity).
      apply app_inj_tail in Hy. symmetry. apply Hy. }
    rewrite (get_metrics_several _ _ _ _ _ _ _ _ _ _ Hsplit), Hlast. reflexivity.
Qed.

(** The fallback is a single step back and is never made on an empty
    blob: whatever the buffer, [get_metrics] decodes the last blob and at
    most one more, which is the non-empty second-to-last blob. *)
Theorem get_metrics_fallback_is_one_nonempty_blob (raw : bytes) :
  (exists lst, Py.events (get_metrics' (Ret raw)) = [lst] /\
               last_n 1 (split x00 raw) = [lst]) \/
  (exists entry lst, Py.events (get_metrics' (Ret raw)) = [lst; entry] /\
                     last_n 2 (split x00 raw) = [entry; lst] /\
                     entry <> [] /\
                     (exists e, parse_record' lst = Raise e)).
Proof.
  destruct (list_tail_cases (split x00 raw) (split_not_nil _ _))
    as [[lst Hs]|(init & entry & lst & Hs)].
  - left. exists lst. rewrite (get_metrics_single _ _ _ _ _ _ _ _ Hs), Hs.
    split; reflexivity.
  - rewrite (get_metrics_several _ _ _ _ _ _ _ _ _ _ Hs), Hs.
    assert (Hlast1 : last_n 1 (init ++ [entry; lst]) = [lst]).
    { unfold last_n. rewrite length_app. simpl length.
      replace (length init + 2 - 1)%nat with (length (init ++ [entry])) 
        by (rewrite length_app; simpl; lia).
      replace (init ++ [entry; lst]) with ((init ++ [entry]) ++ [lst])
        by (rewrite <- app_assoc; reflexivity).
      apply drop_app_length. }
    destruct (parse_record' lst) as [r|e] eqn:Hl.
    + left. exists lst. split; [reflexivity|exact Hlast1].
    + destruct entry as [|b entry'].
      * left. exists lst. split; [reflexivity|exact Hlast1].
      * right. exists (b :: entry'), lst. rewrite last_n_two.
        repeat split; [discriminate|eauto].
Qed.

End AppleSiliconMore.

(** At a concrete pair of buffers that share their last two records. *)
Lemma get_metrics_reads_last_two_example :
  Demo.get_metrics (Ret [x07; x00; x05; x00; x01; x02])
  = Demo.get_metrics (Ret [x05; x00; x01; x02]).
Proof.
  apply (get_metrics_reads_last_two Z Demo.loads Demo.thermal
           Demo.no_metrics Demo.no_metrics Demo.stamp).
  reflexivity.
Defined.

(** At a concrete buffer: the records [05] and [07]. *)
Lemma get_metrics_prefers_last_record_example :
  Demo.get_metrics (Ret [x05; x00; x07])
  = ([[x07]], Ret (Some (mkReading ∅ ∅ "Nominal" None 7))).
Proof.
  apply (get_metrics_prefers_last_record Z Demo.loads Demo.thermal
           Demo.no_metrics Demo.no_metrics Demo.stamp [[x05]] [x07]).
  - repeat constructor.
  - reflexivity.
Defined.

(** ** vtop.py: further properties of the session loop *)

Lemma restart_count_app (l1 l2 : list event) :
  restart_count (l1 ++ l2) = restart_count l1 + restart_count l2.
Proof.
  induction l1 as [|[|f] rest IH]; simpl; [reflexivity| |]; rewrite IH; lia.
Qed.

Lemma loop_body_unfold (args : Args) (st : state) (ready : option reading) :
  loop_body args st ready
  = do cnt <- restart_policy args (count st) ;; loop_after_restart args st cnt ready.
Proof. reflexivity. Qed.

Lemma loop_after_restart_count (args : Args) (st : state) (cnt : Z)
    (ready : option reading) :
  restart_count (Py.events (loop_after_restart args st cnt ready)) = 0 /\
  forall st', Py.result (loop_after_restart args st cnt ready) = Ret st' ->
              count st' = cnt.
Proof.
  unfold loop_after_restart.
  set (st0 := mkState (cpu_max_power st) (gpu_max_power st) (cpu_peak_power st)
                (gpu_peak_power st) (package_peak_power st) (last_timestamp st)
                (avg_cpu_power_list st) (avg_gpu_power_list st) cnt).
  assert (Hskip :
    restart_count (Py.events (do st1 <- Py.ret st0 ;; do _ <- sleep args ;; Py.ret st1))
      = 0 /\
    forall st', Py.result (do st1 <- Py.ret st0 ;; do _ <- sleep args ;; Py.ret st1)
                = Ret st' -> count st' = cnt).
  { unfold Py.ret at 1 3. rewrite events_bind_ret, result_bind_ret.
    destruct (sleep_cases args st0) as [-> Hres]. split; [reflexivity|].
    intros st' H. apply Hres in H. subst. reflexivity. }
  destruct ready as [r|]; [|exact Hskip].
  destruct (float_gt (timestamp r) (last_timestamp st0)); [|exact Hskip].
  destruct (aggregate_cases args st0 r) as [[e He]|(f & Hf & _)].
  - rewrite He. simpl. split; [reflexivity|discriminate].
  - rewrite Hf. rewrite events_bind_ret, result_bind_ret.
    destruct (sleep_cases args (after_frame st0 f)) as [-> Hres].
    split; [reflexivity|]. intros st' H. apply Hres in H. subst. reflexivity.
Qed.

(** What one iteration does to the restart counter: the restart decision
    is taken before the reading is looked at and does not depend on it. *)
Lemma loop_body_restart (args : Args) (st : state) (ready : option reading) :
  restart_count (Py.events (loop_body args st ready))
    = (if (0 <? max_count args) && (max_count args <=? count st) then 1 else 0) /\
  forall st', Py.result (loop_body args st ready) = Ret st' ->
    count st' = if 0 <? max_count args
                then (if max_count args <=? count st then 1 else count st + 1)
                else count st.
Proof.
  rewrite loop_body_unfold. unfold restart_policy.
  destruct (0 <? max_count args); [destruct (max_count args <=? count st)|]; simpl andb.
  - change (do _ <- Py.emit Restart ;; Py.ret (0 + 1))
      with (([Restart], Ret 1) : Py.M event Z).
    rewrite events_bind_ret, result_bind_ret, restart_count_app.
    destruct (loop_after_restart_count args st 1 ready) as [-> Hc].
    split; [reflexivity|exact Hc].
  - unfold Py.ret. rewrite events_bind_ret, result_bind_ret.
    exact (loop_after_restart_count args st (count st + 1) ready).
  - unfold Py.ret. rewrite events_bind_ret, result_bind_ret.
    exact (loop_after_restart_count args st (count st) ready).
Qed.

(** With [--max_count n] for a positive [n], a run that completes restarts
    the sampling process once every [n] iterations, whatever the polls
    return: from a counter [c] between 0 and [n], [k] iterations make
    [(c + k - 1) / n] restarts (none when [c + k] is 0), and the counter
    stays between 0 and [n].  With [--max_count 0] (or below) there is no
    restart at all and the counter is not touched. *)
Theorem restarts_every_max_count :
  (forall args polls st log st',
      0 < max_count args ->
      0 <= count st <= max_count args ->
      run args st polls = (log, Ret st') ->
      let total := count st + Z.of_nat (length polls) in
      restart_count log = Z.max 0 ((total - 1) / max_count args) /\
      count st' = total - max_count args * restart_count log /\
      0 <= count st' <= max_count args) /\
  (forall args polls st,
      max_count args <= 0 ->
      restart_count (Py.events (run args st polls)) = 0 /\
      forall st', Py.result (run args st polls) = Ret st' -> count st' = count st).
Proof.
  split.
  - intros args polls. induction polls as [|ready rest IH]; intros st log st' Hn Hc Hrun.
    + simpl in Hrun. inversion Hrun; subst. simpl.
      rewrite Z.add_0_r. 
      assert (Hdiv : (count st' - 1) / max_count args <= 0).
      { apply Z.lt_succ_r. apply Z.div_lt_upper_bound; lia. }
      split; [lia|]. split; [lia|lia].
    + simpl run in Hrun.
      destruct (loop_body_restart args st ready) as [Hr Hcnt].
      destruct (loop_body args st ready) as [l [st1|e]]; [|discriminate].
      simpl in Hr. specialize (Hcnt st1 eq_refl).
      unfold Py.bind in Hrun.
      destruct (run args st1 rest) as [l' res] eqn:Hrest.
      inversion Hrun; subst; clear Hrun.
      assert (H0 : (0 <? max_count args) = true) by (apply Z.ltb_lt; lia).
      rewrite H0 in Hr, Hcnt. simpl andb in Hr.
      rewrite restart_count_app, Hr.
      replace (Z.of_nat (length (ready :: rest))) with (1 + Z.of_nat (length rest))
        by (simpl length; lia).
      destruct (Z.leb_spec (max_count args) (count st)) as [Hge|Hlt].
      * assert (Hcn : count st = max_count args) by lia.
        destruct (IH st1 l' st' Hn) as (IHr & IHc & IHb); [lia|exact Hrest|].
        rewrite Hcnt in IHr, IHc. cbv zeta in IHr, IHc |- *.
        rewrite IHr in IHc |- *. rewrite Hcn.
        replace (max_count args + (1 + Z.of_nat (length rest)) - 1)
          with (Z.of_nat (length rest) + 1 * max_count args) by lia.
        rewrite Z.div_add by lia.
        replace (1 + Z.of_nat (length rest) - 1) with (Z.of_nat (length rest)) in * by lia.
        assert (0 <= Z.of_nat (length rest) / max_count args)
          by (apply Z.div_pos; lia).
        split; [lia|]. split; [|exact IHb].
        rewrite IHc. rewrite !Z.max_r by lia. ring.
      * destruct (IH st1 l' st' Hn) as (IHr & IHc & IHb); [lia|exact Hrest|].
        rewrite Hcnt in IHr, IHc. cbv zeta in IHr, IHc |- *.
        replace (count st + 1 + Z.of_nat (length rest))
          with (count st + (1 + Z.of_nat (length rest))) in * by lia.
        rewrite IHr. split; [lia|]. split; [|exact IHb].
        rewrite IHc, IHr, Z.add_0_l. reflexivity.
  - intros args polls. induction polls as [|ready rest IH]; intros st Hn.
    + split; [reflexivity|]. intros st' H. inversion H. reflexivity.
    + simpl run.
      destruct (loop_body_restart args st ready) as [Hr Hcnt].
      assert (H0 : (0 <? max_count args) = false) by (apply Z.ltb_ge; lia).
      rewrite H0 in Hr, Hcnt. simpl andb in Hr.
      destruct (loop_body args st ready) as [l [st1|e]].
      * rewrite events_bind_ret, result_bind_ret, restart_count_app.
        simpl in Hr. rewrite Hr. specialize (Hcnt st1 eq_refl).
        destruct (IH st1 Hn) as [IHr IHc]. rewrite IHr.
        split; [reflexivity|]. intros st' H. rewrite (IHc st' H). exact Hcnt.
      * simpl. simpl in Hr. split; [exact Hr|discriminate].
Qed.

(** With [--max_count 2], five idle polls restart the process twice. *)
Lemma restarts_every_max_count_example :
  restart_count (Py.events (run (mkArgs 1 2 30 2) Demo.state0 [None; None; None; None; None]))
  = 2.
Proof.
  destruct (proj1 restarts_every_max_count (mkArgs 1 2 30 2)
              [None; None; None; None; None] Demo.state0
              (Py.events (run (mkArgs 1 2 30 2) Demo.state0 [None; None; None; None; None]))
              (mkState 30 60 0 0 0 0 (mkDeque [] 2) (mkDeque [] 2) 1))
    as (H & _).
  - simpl. lia.
  - simpl. lia.
  - vm_compute. reflexivity.
  - exact H.
Defined.

(** The frames a run displays come from a subsequence of the readings the
    provider returned, one frame per accepted reading and in the order of
    arrival: a poll without a reading displays nothing, and no reading is
    displayed twice or out of order. *)
Theorem frames_come_from_a_subsequence_of_readings
    (args : Args) (polls : list (option reading)) :
  forall st, exists accepted,
    sublist accepted (readings_of polls) /\
    Forall2 (frame_reads args) accepted (frames (Py.events (run args st polls))).
Proof.
  induction polls as [|ready rest IH]; intros st.
  - exists []. split; constructor.
  - simpl run.
    pose proof (loop_body_cases args st ready) as Hbody.
    assert (Hsub : forall l, sublist l (readings_of rest) ->
                             sublist l (readings_of (ready :: rest))).
    { intros l Hl. destruct ready as [r|]; [apply sublist_cons|]; exact Hl. }
    destruct (loop_body args st ready) as [l [st1|e]].
    + rewrite events_bind_ret, frames_app.
      destruct (IH st1) as (acc & Hacc & Hall).
      destruct Hbody as [[Hl _]|(r & f & Hr & Hreads & _ & Hl & _)];
        simpl in Hl; rewrite Hl; simpl.
      * exists acc. split; [apply Hsub, Hacc|exact Hall].
      * subst ready. exists (r :: acc). split.
        -- apply sublist_skip. exact Hacc.
        -- constructor; assumption.
    + simpl.
      destruct Hbody as [[Hl _]|(r & f & Hr & Hreads & _ & Hl & _)];
        simpl in Hl; rewrite Hl.
      * exists []. split; [apply sublist_nil_l|constructor].
      * subst ready. exists [r]. split.
        -- apply sublist_skip, sublist_nil_l.
        -- constructor; [exact Hreads|constructor].
Qed.

(** [main] gets past the creation of the windows exactly when
    [--interval] is not 0, the double [--avg / --interval] exists and its
    integer part is between 0 and [2^63 - 1].  It raises
    [ZeroDivisionError] exactly for an interval of 0, [OverflowError] when
    the quotient is out of the range of doubles or its integer part out of
    the range of a machine word, and [ValueError] for a negative window
    length.  For a non-negative [--avg] and a positive [--interval] whose
    sum is at most [2^52], the window length is the integer quotient. *)
Theorem main_init_outcomes (args : Args) (soc : soc_info) (first : reading) :
  (interval args = 0 <-> main_init args soc first = Raise ZeroDivisionError) /\
  (forall e, window_capacity args = Raise e -> main_init args soc first = Raise e) /\
  (forall cap, window_capacity args = Ret cap ->
     (cap < - 2 ^ 63 \/ 2 ^ 63 <= cap ->
      main_init args soc first = Raise OverflowError) /\
     (- 2 ^ 63 <= cap < 0 -> main_init args soc first = Raise ValueError) /\
     (0 <= cap < 2 ^ 63 ->
      main_init args soc first =
        Ret (mkState (Py.or_default (soc_cpu_max_power soc) 50)
               (Py.or_default (soc_gpu_max_power soc) 25)
               0 0 0 (timestamp first) (mkDeque [] cap) (mkDeque [] cap) 0))) /\
  (interval args <> 0 ->
   window_capacity args = Raise OverflowError \/
   window_capacity args
   = Ret (Py.int_of_float (fl (inject_Z (avg args) / inject_Z (interval args))))) /\
  (0 <= avg args -> 0 < interval args -> avg args + interval args <= 2 ^ 52 ->
   main_init args soc first =
     Ret (mkState (Py.or_default (soc_cpu_max_power soc) 50)
            (Py.or_default (soc_gpu_max_power soc) 25)
            0 0 0 (timestamp first)
            (mkDeque [] (avg args / interval args))
            (mkDeque [] (avg args / interval args)) 0)).
Proof.
  assert (Hcap : forall cap, window_capacity args = Ret cap ->
     (cap < - 2 ^ 63 \/ 2 ^ 63 <= cap ->
      main_init args soc first = Raise OverflowError) /\
     (- 2 ^ 63 <= cap < 0 -> main_init args soc first = Raise ValueError) /\
     (0 <= cap < 2 ^ 63 ->
      main_init args soc first =
        Ret (mkState (Py.or_default (soc_cpu_max_power soc) 50)
               (Py.or_default (soc_gpu_max_power soc) 25)
               0 0 0 (timestamp first) (mkDeque [] cap) (mkDeque [] cap) 0))).
  { intros cap Hc. unfold main_init. rewrite Hc.
    destruct (deque_new_cases cap) as [[Hr ->]|[[Hr ->]|[Hr ->]]];
      repeat split; intros; try reflexivity; lia. }
  split; [|split; [|split; [|split]]].
  - split.
    + intros Hi. unfold main_init.
      destruct (window_capacity_cases args) as [[_ ->]|[[Hn _]|[Hn _]]];
        [reflexivity|contradiction|contradiction].
    + intros Hm. destruct (Z.eq_dec (interval args) 0) as [Hz|Hn]; [exact Hz|exfalso].
      destruct (window_capacity_cases args) as [[Hz _]|[[_ Hw]|[_ Hw]]];
        [contradiction| |].
      * unfold main_init in Hm. rewrite Hw in Hm. discriminate Hm.
      * unfold main_init in Hm. rewrite Hw in Hm.
        destruct (deque_new_cases (Py.int_of_float
                    (fl (inject_Z (avg args) / inject_Z (interval args)))))
          as [[_ Hd]|[[_ Hd]|[_ Hd]]]; rewrite Hd in Hm; discriminate Hm.
  - intros e He. unfold main_init. rewrite He. reflexivity.
  - exact Hcap.
  - intros Hn. destruct (window_capacity_cases args) as [[Hz _]|[[_ Hw]|[_ Hw]]];
      [contradiction|left; exact Hw|right; exact Hw].
  - intros Ha Hi Hsum.
    apply (Hcap _ (window_capacity_small args Ha Hi Hsum)).
    assert (avg args / interval args <= avg args)
      by (apply Z.div_le_upper_bound; nia).
    assert (0 <= avg args / interval args) by (apply Z.div_pos; lia).
    assert (2 ^ 52 < 2 ^ 63) by (apply Z.pow_lt_mono_r; lia). lia.
Qed.

(** At the default command line, at [--avg -120 --interval 60] and at
    [--avg 9223372036854775808 --interval 1]. *)
Lemma main_init_outcomes_example :
  main_init Demo.args_default Demo.m1_max (Demo.sample 0 0)
    = Ret (mkState 30 60 0 0 0 0 (mkDeque [] 30) (mkDeque [] 30) 0) /\
  main_init (mkArgs 60 2 (-120) 0) Demo.m1_max (Demo.sample 0 0) = Raise ValueError /\
  main_init (mkArgs 1 2 (2 ^ 63) 0) Demo.m1_max (Demo.sample 0 0)
    = Raise OverflowError.
Proof.
  split; [|split].
  - apply (proj2 (proj2 (proj2 (proj2 (main_init_outcomes Demo.args_default
                                         Demo.m1_max (Demo.sample 0 0))))));
      vm_compute; [discriminate|reflexivity|discriminate].
  - apply (proj1 (proj2 (proj1 (proj2 (proj2 (main_init_outcomes
             (mkArgs 60 2 (-120) 0) Demo.m1_max (Demo.sample 0 0))))
             (-2) ltac:(vm_compute; reflexivity)))).
    vm_compute. split; [discriminate|reflexivity].
  - apply (proj1 (proj1 (proj2 (proj2 (main_init_outcomes
             (mkArgs 1 2 (2 ^ 63) 0) Demo.m1_max (Demo.sample 0 0))))
             (2 ^ 63) ltac:(vm_compute; reflexivity))).
    right. vm_compute. discriminate.
Defined.

Lemma int_of_float_nonneg (x : Q) : (0 <= x)%Q -> 0 <= Py.int_of_float x.
Proof.
  unfold Qle, Py.int_of_float. simpl. intros H. apply Z.quot_pos; lia.
Qed.

Lemma follow_ranges (fs : list frame) :
  forall st, frames_follow st fs ->
    Forall (fun f =>
      (f_cpu_w f <= f_cpu_peak_power f /\ f_gpu_w f <= f_gpu_peak_power f /\
       f_pkg_w f <= f_package_peak_power f)%Q /\
      (f_cpu_power_pct f <= 100 /\ f_gpu_power_pct f <= 100) /\
      (0 < cpu_max_power st -> (0 <= f_cpu_w f)%Q -> 0 <= f_cpu_power_pct f) /\
      (0 < gpu_max_power st -> (0 <= f_gpu_w f)%Q -> 0 <= f_gpu_power_pct f)) fs.
Proof.
  assert (Hpct : forall w m pct, power_pct w m = Ret pct ->
            pct <= 100 /\ (0 < m -> (0 <= w)%Q -> 0 <= pct)).
  { intros w m pct H. apply power_pct_ret in H. destruct H as [_ ->].
    split; [apply Z.le_min_l|]. intros Hm Hw.
    apply Z.min_glb; [lia|]. apply int_of_float_nonneg.
    apply power_ratio_nonneg; assumption. }
  induction fs as [|f rest IH]; intros st; simpl; [constructor|].
  intros [(_ & Pc & Pg & Pp & _ & _ & Cc & Cg) Hrest].
  constructor; [|exact (IH _ Hrest)].
  destruct (Hpct _ _ _ Cc) as [Hc1 Hc2]. destruct (Hpct _ _ _ Cg) as [Hg1 Hg2].
  repeat split; try assumption.
  - rewrite Pc. apply update_peak_max.
  - rewrite Pg. apply update_peak_max.
  - rewrite Pp. apply update_peak_max.
Qed.

(** In every frame of a run the peak shown is at least the instantaneous
    value shown next to it, the two percentages pushed to the charts are at
    most 100, and they are at least 0 whenever the instantaneous value is
    not negative (the maxima being positive): the charts only ever get
    samples between 0 and 100 from non-negative readings. *)
Theorem displayed_values_are_in_range (args : Args) (st : state)
    (polls : list (option reading)) :
  Forall (fun f =>
    (f_cpu_w f <= f_cpu_peak_power f /\ f_gpu_w f <= f_gpu_peak_power f /\
     f_pkg_w f <= f_package_peak_power f)%Q /\
    (f_cpu_power_pct f <= 100 /\ f_gpu_power_pct f <= 100) /\
    (0 < cpu_max_power st -> (0 <= f_cpu_w f)%Q -> 0 <= f_cpu_power_pct f) /\
    (0 < gpu_max_power st -> (0 <= f_gpu_w f)%Q -> 0 <= f_gpu_power_pct f))
    (frames (Py.events (run args st polls))).
Proof. apply follow_ranges, run_frames_follow. Qed.

(** At the frame displayed for a reading of 9 W. *)
Lemma displayed_values_example :
  0 <= f_cpu_power_pct Demo.frame_9W <= 100.
Proof.
  pose proof (displayed_values_are_in_range Demo.restart_args Demo.state0
                Demo.restart_polls) as H.
  assert (Hin : Demo.frame_9W ∈
                frames (Py.events (run Demo.restart_args Demo.state0 Demo.restart_polls))).
  { vm_compute. left. }
  rewrite Forall_forall in H. specialize (H _ Hin).
  destruct H as (_ & (H100 & _) & Hc & _).
  split; [|exact H100].
  apply Hc; [reflexivity|]. vm_compute. discriminate.
Defined.

(** ** apple_silicon.py: the two static tables together *)

Lemma eqb_swap (a b : string) : String.eqb a b = String.eqb b a.
Proof.
  destruct (String.eqb_spec a b) as [->|Hne].
  - symmetry. apply String.eqb_refl.
  - symmetry. apply String.eqb_neq. congruence.
Qed.

(** Unlike the power limits, the bandwidth limits are keyed by exact chip
    name: they are those of a five-entry table with the default 70 and 70,
    so every M3 and M4 chip gets the default bandwidth although it has
    power limits of its own. *)
Theorem bandwidth_limits_are_an_exact_table :
  (forall name,
      bandwidth_limits_of name
      = Spec.table_lookup bandwidth_table (Some 70, Some 70) name) /\
  (forall name, ~ In name exact_names ->
      bandwidth_limits_of name = (Some 70, Some 70)) /\
  (forall name, ~ In name exact_names -> contains "M3" name = true ->
      bandwidth_limits_of name = (Some 70, Some 70) /\
      power_limits_of name = (Some 30, Some 30)).
Proof.
  assert (Htable : forall name,
    bandwidth_limits_of name
    = Spec.table_lookup bandwidth_table (Some 70, Some 70) name).
  { intros name. unfold bandwidth_limits_of, _set_bandwidth_limits, bandwidth_table.
    cbn [soc_name Spec.table_lookup].
    rewrite !(eqb_swap name).
    repeat match goal with
           | |- context [if ?b then _ else _] => destruct b
           end; reflexivity. }
  assert (Hdefault : forall name, ~ In name exact_names ->
    bandwidth_limits_of name = (Some 70, Some 70)).
  { intros name Hname. rewrite Htable.
    destruct (not_exact_name name Hname) as (H1 & H2 & H3 & H4 & H5).
    unfold bandwidth_table. cbn [Spec.table_lookup].
    rewrite <- !(eqb_swap name), H1, H2, H3, H4, H5.
    reflexivity. }
  split; [exact Htable|]. split; [exact Hdefault|].
  intros name Hname Hm3. split; [apply Hdefault, Hname|].
  destruct (not_exact_name name Hname) as (H1 & H2 & H3 & H4 & H5).
  unfold power_limits_of, _set_power_limits. simpl soc_name.
  rewrite H1, H2, H3, H4, H5, Hm3. reflexivity.
Qed.

(** At a chip of the M3 family. *)
Lemma bandwidth_limits_example :
  bandwidth_limits_of "Apple M3 Max" = (Some 70, Some 70) /\
  power_limits_of "Apple M3 Max" = (Some 30, Some 30).
Proof.
  apply (proj2 (proj2 bandwidth_limits_are_an_exact_table) "Apple M3 Max"%string).
  - simpl. intros H. repeat (destruct H as [H|H]; [discriminate H|]). exact H.
  - reflexivity.
Defined.

(** The two setters of [get_soc_info] touch disjoint fields: they commute,
    each is idempotent, neither changes the name or the core counts, and
    after both all four limits are set, whatever the probes returned. *)
Theorem soc_limit_setters_compose (soc : soc_info) :
  _set_bandwidth_limits (_set_power_limits soc)
    = _set_power_limits (_set_bandwidth_limits soc) /\
  _set_power_limits (_set_power_limits soc) = _set_power_limits soc /\
  _set_bandwidth_limits (_set_bandwidth_limits soc) = _set_bandwidth_limits soc /\
  (let done := _set_bandwidth_limits (_set_power_limits soc) in
   soc_name done = soc_name soc /\
   soc_core_count done = soc_core_count soc /\
   soc_e_core_count done = soc_e_core_count soc /\
   soc_p_core_count done = soc_p_core_count soc /\
   soc_gpu_core_count done = soc_gpu_core_count soc /\
   (soc_cpu_max_power done, soc_gpu_max_power done) = power_limits_of (soc_name soc) /\
   (soc_cpu_max_bw done, soc_gpu_max_bw done) = bandwidth_limits_of (soc_name soc) /\
   is_Some (soc_cpu_max_power done) /\ is_Some (soc_gpu_max_power done) /\
   is_Some (soc_cpu_max_bw done) /\ is_Some (soc_gpu_max_bw done)).
Proof.
  unfold power_limits_of, bandwidth_limits_of, _set_bandwidth_limits, _set_power_limits.
  cbn [soc_name with_power_limits with_bandwidth_limits].
  destruct (String.eqb (soc_name soc) "Apple M1 Max") eqn:E1;
  destruct (String.eqb (soc_name soc) "Apple M1 Pro") eqn:E2;
  destruct (String.eqb (soc_name soc) "Apple M1") eqn:E3;
  destruct (String.eqb (soc_name soc) "Apple M1 Ultra") eqn:E4;
  destruct (String.eqb (soc_name soc) "Apple M2") eqn:E5;
  destruct (contains "M3" (soc_name soc)) eqn:E6;
  destruct (contains "M4" (soc_name soc)) eqn:E7;
  cbn [soc_name with_power_limits with_bandwidth_limits];
  rewrite ?E1, ?E2, ?E3, ?E4, ?E5, ?E6, ?E7;
  cbn; repeat split; eauto.
Qed.

(** ** intel.py: the shape of a reading *)

Lemma settle_cpu_freq_cases (env : intel_env) (n : nat) (cpu_freq0 : list Q) :
  (cpu_freq0 = [] /\ exists e, cpu_freq_all env = Raise e /\
                               settle_cpu_freq env n cpu_freq0 = Raise e) \/
  (exists cpu_freq, settle_cpu_freq env n cpu_freq0 = Ret cpu_freq /\
                    ((0 < n)%nat -> cpu_freq <> [])).
Proof.
  unfold settle_cpu_freq. destruct cpu_freq0 as [|single [|second more]].
  - destruct (cpu_freq_all env) as [[freq_all|]|e].
    + right. eexists. split; [reflexivity|]. destruct n; [lia|discriminate].
    + right. eexists. split; [reflexivity|]. destruct n; [lia|discriminate].
    + left. split; [reflexivity|]. exists e. auto.
  - right. destruct (1 <? n)%nat; eexists; (split; [reflexivity|]).
    + destruct n; [lia|discriminate].
    + discriminate.
  - right. eexists. split; [reflexivity|discriminate].
Qed.

(** Either a probe failed and the body of [get_metrics] raised, or it
    returned the reading spelled out here; no division in it can fail. *)
Lemma intel_body_cases (env : intel_env) :
  (intel_probe_fails env /\ exists e, intel_metrics_body env = Raise e) \/
  (exists per_cpu_percent cpu_freq0 cpu_freq,
     cpu_percent env = Ret per_cpu_percent /\
     cpu_freq_percpu env = Ret cpu_freq0 /\
     settle_cpu_freq env (length per_cpu_percent) cpu_freq0 = Ret cpu_freq /\
     intel_metrics_body env =
       Ret (mkReading
              (<[ "P-Cluster_freq_Mhz"%string
                  := VInt (intel_cluster_freq per_cpu_percent cpu_freq) ]>
               (<[ "P-Cluster_active"%string
                   := VInt (intel_cluster_active per_cpu_percent) ]>
                (add_per_core 0 (zip per_cpu_percent cpu_freq)
                   (intel_base_metrics (length per_cpu_percent)))))
              intel_gpu_metrics (_get_thermal_status env) None (time_time env))).
Proof.
  unfold intel_metrics_body, intel_probe_fails.
  destruct (cpu_percent env) as [ps|e]; [|left; split; eauto].
  destruct (cpu_freq_percpu env) as [f0|e]; [|left; split; eauto].
  destruct (settle_cpu_freq_cases env (length ps) f0)
    as [(-> & e & He & Hs)|(cf & Hs & Hne)]; rewrite Hs.
  - left. split; eauto.
  - right. exists ps, f0, cf. repeat split; try assumption.
    destruct ps as [|p0 ps']; [reflexivity|].
    assert (Hcf : cf <> []) by (apply Hne; simpl; lia).
    unfold Py.float_truediv, Py.int_truediv_in_range.
    destruct (Z.eqb_spec (Z.of_nat (length (p0 :: ps'))) 0) as [H0|_];
      [simpl in H0; lia|].
    destruct (Z.eqb_spec (Z.of_nat (length cf)) 0) as [H0|_];
      [destruct cf; [congruence|simpl in H0; lia]|].
    reflexivity.
Qed.

(** [IntelProvider.get_metrics] returns [None], after printing one
    message, exactly when a probe raised ([psutil.cpu_percent],
    [psutil.cpu_freq(percpu=True)], or [psutil.cpu_freq()] when the
    per-core list is empty); otherwise it returns a reading stamped with
    the time of the call and with the reserved slot empty.  Its own
    arithmetic never fails: the averages divide by list lengths that are
    not zero when they are reached. *)
Theorem intel_get_metrics_fails_only_with_a_probe (env : intel_env) :
  (intel_probe_fails env <-> Py.result (intel_get_metrics env) = Ret None) /\
  (intel_probe_fails env -> length (Py.events (intel_get_metrics env)) = 1%nat) /\
  (~ intel_probe_fails env ->
   exists r, intel_get_metrics env = ([], Ret (Some r)) /\
             timestamp r = time_time env /\ bandwidth r = None /\
             thermal_pressure r = _get_thermal_status env /\
             gpu_metrics r = intel_gpu_metrics).
Proof.
  unfold intel_get_metrics.
  destruct (intel_body_cases env) as [[Hfail [e He]]|(ps & f0 & cf & Hp & Hf & Hs & Hb)].
  - rewrite He. simpl. repeat split; auto. intros Hnot. contradiction.
  - assert (Hok : ~ intel_probe_fails env).
    { intros [[e He]|[[e He]|[H0 [e He]]]]; [congruence|congruence|].
      rewrite H0 in Hf. inversion Hf; subst.
      unfold settle_cpu_freq in Hs. rewrite He in Hs. discriminate. }
    rewrite Hb. simpl. repeat split.
    + intros H. contradiction.
    + discriminate.
    + intros H. contradiction.
    + intros _. eexists. repeat split.
Qed.

(** At a concrete environment whose frequency probes both fail. *)
Lemma intel_get_metrics_fails_example :
  Py.result (intel_get_metrics
               (mkIntelEnv 5 (Ret [10#1]) (Ret []) (Raise (OtherError "no frequency"))
                  (Ret ""%string))) = Ret None.
Proof.
  apply (proj1 (intel_get_metrics_fails_only_with_a_probe _)).
  right. right. split; [reflexivity|]. eexists. reflexivity.
Defined.

(** ** intel.py: the per-core entries of [cpu_metrics] *)

Lemma pretty_N_char_digit (x : N) : is_digit (pretty_N_char x) = true.
Proof.
  destruct x as [|p]; [reflexivity|].
  do 4 (destruct p as [p|p|]; try reflexivity).
Qed.

Lemma pretty_N_go_digits (x : N) :
  forall s, all_digits s = true -> all_digits (pretty_N_go x s) = true.
Proof.
  induction (N.lt_wf_0 x) as [x _ IH]. intros s Hs.
  destruct (N.eq_dec x 0%N) as [->|Hx].
  - rewrite pretty_N_go_0. exact Hs.
  - rewrite pretty_N_go_step by lia. apply IH.
    + apply N.div_lt; lia.
    + simpl. rewrite pretty_N_char_digit. exact Hs.
Qed.

Lemma pretty_N_go_length (x : N) :
  forall s, (String.length s <= String.length (pretty_N_go x s))%nat.
Proof.
  induction (N.lt_wf_0 x) as [x _ IH]. intros s.
  destruct (N.eq_dec x 0%N) as [->|Hx].
  - rewrite pretty_N_go_0. lia.
  - rewrite pretty_N_go_step by lia.
    etransitivity; [|apply IH; apply N.div_lt; lia]. simpl. lia.
Qed.

(** [str(i)] is a non-empty string of digits. *)
Lemma pretty_nat_digits (i : nat) :
  all_digits (pretty i) = true /\ pretty i <> EmptyString.
Proof.
  unfold pretty, pretty_nat, pretty, pretty_N.
  destruct (decide (N.of_nat i = 0%N)) as [_|Hne]; [split; [reflexivity|discriminate]|].
  split; [apply pretty_N_go_digits; reflexivity|].
  rewrite pretty_N_go_step by lia.
  intros Hempty.
  pose proof (pretty_N_go_length (N.of_nat i `div` 10)%N
                (String (pretty_N_char (N.of_nat i `mod` 10)%N) "")) as Hlen.
  rewrite Hempty in Hlen. simpl in Hlen. lia.
Qed.

(** Digits followed by a suffix that starts with [_] split in one way. *)
Lemma digits_suffix_inj (d1 : string) :
  forall d2 t1 t2,
    all_digits d1 = true -> all_digits d2 = true ->
    (d1 +:+ String "_" t1 = d2 +:+ String "_" t2)%string ->
    d1 = d2 /\ t1 = t2.
Proof.
  induction d1 as [|c r IH]; intros [|c' r'] t1 t2 H1 H2 Heq; simpl in *.
  - inversion Heq. auto.
  - inversion Heq; subst. apply andb_prop in H2. destruct H2 as [H2 _]. discriminate H2.
  - inversion Heq; subst. apply andb_prop in H1. destruct H1 as [H1 _]. discriminate H1.
  - inversion Heq; subst.
    apply andb_prop in H1, H2. destruct H1 as [_ H1]. destruct H2 as [_ H2].
    destruct (IH r' t1 t2 H1 H2) as [-> ->]; auto.
Qed.

Lemma append_prefix_inj (p a b : string) : (p +:+ a = p +:+ b)%string -> a = b.
Proof. induction p as [|c p IH]; simpl; intros H; [exact H|]. inversion H. auto. Qed.

(** Per-core keys are distinct for distinct cores and suffixes, and differ
    from the two cluster keys. *)
Lemma core_key_inj (i j : nat) (t1 t2 : string) :
  core_key i (String "_" t1) = core_key j (String "_" t2) -> i = j /\ t1 = t2.
Proof.
  unfold core_key. intros H. apply append_prefix_inj in H.
  destruct (pretty_nat_digits i) as [Hi _]. destruct (pretty_nat_digits j) as [Hj _].
  destruct (digits_suffix_inj _ _ _ _ Hi Hj H) as [Hp Ht].
  split; [|exact Ht]. apply (inj pretty). exact Hp.
Qed.

Lemma core_key_not_cluster (i : nat) (t1 t2 : string) :
  core_key i (String "_" t1) <> ("P-Cluster" +:+ String "_" t2)%string.
Proof.
  unfold core_key. intros H. apply append_prefix_inj in H.
  destruct (pretty_nat_digits i) as [Hi Hne].
  destruct (digits_suffix_inj (pretty i) EmptyString t1 t2 Hi eq_refl H) as [Hp _].
  contradiction.
Qed.

Lemma add_per_core_lookup_earlier (cores : list (Q * Q)) :
  forall (j : nat) (d : pydict) (i : nat) (t : string),
    (i < j)%nat ->
    add_per_core j cores d !! core_key i (String "_" t) = d !! core_key i (String "_" t).
Proof.
  induction cores as [|[percent freq] rest IH]; intros j d i t Hij; simpl; [reflexivity|].
  rewrite IH by lia.
  rewrite !lookup_insert_ne; [reflexivity| |];
    intros Heq; apply (core_key_inj j i) in Heq; lia.
Qed.

Lemma add_per_core_lookup (cores : list (Q * Q)) :
  forall (j : nat) (d : pydict) (k : nat) (percent freq : Q),
    cores !! k = Some (percent, freq) ->
    add_per_core j cores d !! core_key (j + k) "_active"
      = Some (VInt (Py.int_of_float percent)) /\
    add_per_core j cores d !! core_key (j + k) "_freq_Mhz"
      = Some (VInt (Py.int_of_float freq)).
Proof.
  induction cores as [|[p f] rest IH]; intros j d k percent freq Hk; [discriminate|].
  destruct k as [|k'].
  - simpl in Hk. inversion Hk; subst. rewrite Nat.add_0_r. simpl add_per_core.
    rewrite !add_per_core_lookup_earlier by lia.
    split.
    + rewrite lookup_insert_ne.
      * apply lookup_insert_eq.
      * intros Heq. apply (core_key_inj j j) in Heq. destruct Heq as [_ Heq].
        discriminate Heq.
    + apply lookup_insert_eq.
  - simpl in Hk. simpl add_per_core.
    replace (j + S k')%nat with (S j + k')%nat by lia.
    apply IH. exact Hk.
Qed.

(** When the probes succeed, [cpu_metrics] lists the cores as
    [0 .. n-1] under ["p_core"], has no efficiency core, and holds for
    every core [i] the truncated usage under [P-Cluster{i}_active] and the
    truncated frequency under [P-Cluster{i}_freq_Mhz]: no entry of one core
    is overwritten by another core or by the cluster averages. *)
Theorem intel_per_core_entries (env : intel_env)
    (per_cpu_percent cpu_freq0 cpu_freq : list Q) :
  cpu_percent env = Ret per_cpu_percent ->
  cpu_freq_percpu env = Ret cpu_freq0 ->
  settle_cpu_freq env (length per_cpu_percent) cpu_freq0 = Ret cpu_freq ->
  exists r,
    Py.result (intel_get_metrics env) = Ret (Some r) /\
    cpu_metrics r !! "p_core"%string
      = Some (VList (map Z.of_nat (seq 0 (length per_cpu_percent)))) /\
    cpu_metrics r !! "e_core"%string = Some (VList []) /\
    cpu_metrics r !! "P-Cluster_active"%string
      = Some (VInt (intel_cluster_active per_cpu_percent)) /\
    cpu_metrics r !! "P-Cluster_freq_Mhz"%string
      = Some (VInt (intel_cluster_freq per_cpu_percent cpu_freq)) /\
    forall i percent freq,
      per_cpu_percent !! i = Some percent -> cpu_freq !! i = Some freq ->
      cpu_metrics r !! core_key i "_active" = Some (VInt (Py.int_of_float percent)) /\
      cpu_metrics r !! core_key i "_freq_Mhz" = Some (VInt (Py.int_of_float freq)).
Proof.
  intros Hp Hf Hs.
  destruct (intel_body_cases env) as [[_ [e He]]|(ps & f0 & cf & Hp' & Hf' & Hs' & Hb)].
  - exfalso. unfold intel_metrics_body in He. rewrite Hp, Hf, Hs in He.
    destruct (intel_body_cases env) as [[Hfail _]|(ps & f0 & cf & Hp' & Hf' & Hs' & Hb)].
    + destruct Hfail as [[e' H]|[[e' H]|[H0 [e' H]]]]; [congruence|congruence|].
      rewrite H0 in Hf. inversion Hf; subst.
      unfold settle_cpu_freq in Hs. rewrite H in Hs. discriminate.
    + unfold intel_metrics_body in Hb. rewrite Hp, Hf, Hs in Hb. congruence.
  - rewrite Hp in Hp'. inversion Hp'; subst ps.
    rewrite Hf in Hf'. inversion Hf'; subst f0.
    rewrite Hs in Hs'. inversion Hs'; subst cf.
    eexists. unfold intel_get_metrics. rewrite Hb. split; [reflexivity|].
    simpl cpu_metrics.
    assert (Hbase : forall key,
      key <> "P-Cluster_freq_Mhz"%string -> key <> "P-Cluster_active"%string ->
      (forall s, key <> ("P-Cluster" +:+ s)%string) ->
      (<["P-Cluster_freq_Mhz"%string := VInt (intel_cluster_freq per_cpu_percent cpu_freq)]>
         (<["P-Cluster_active"%string := VInt (intel_cluster_active per_cpu_percent)]>
            (add_per_core 0 (zip per_cpu_percent cpu_freq)
               (intel_base_metrics (length per_cpu_percent))))) !! key
      = intel_base_metrics (length per_cpu_percent) !! key).
    { intros key H1 H2 H3. rewrite !lookup_insert_ne by congruence.
      apply add_per_core_lookup_other, H3. }
    split; [rewrite Hbase; [reflexivity|discriminate|discriminate|
                            intros s H; discriminate H]|].
    split; [rewrite Hbase; [reflexivity|discriminate|discriminate|
                            intros s H; discriminate H]|].
    split; [rewrite lookup_insert_ne by discriminate; apply lookup_insert_eq|].
    split; [apply lookup_insert_eq|].
    intros i percent freq Hi Hfi.
    assert (Hzip : zip per_cpu_percent cpu_freq !! i = Some (percent, freq)).
    { apply lookup_zip_with_Some. exists percent, freq. auto. }
    destruct (add_per_core_lookup _ 0%nat
                (intel_base_metrics (length per_cpu_percent)) i percent freq Hzip)
      as [Ha Hq].
    simpl in Ha, Hq.
    split; (rewrite !lookup_insert_ne; [assumption| |]);
      intros Heq; symmetry in Heq;
      apply (core_key_not_cluster i _ _ Heq).
Qed.

(** At the environment with two cores at 10 and 27.5 percent and a single
    frequency of 2400 MHz. *)
Lemma intel_per_core_entries_example :
  cpu_metrics Demo.idle_reading !! core_key 1 "_active" = Some (VInt 27) /\
  cpu_metrics Demo.idle_reading !! core_key 1 "_freq_Mhz" = Some (VInt 2400).
Proof.
  destruct (intel_per_core_entries Demo.idle_env [10#1; 55#2] [2400#1] [2400#1; 2400#1])
    as (r & Hr & _ & _ & _ & _ & Hcores); try reflexivity.
  assert (Hres : Py.result (intel_get_metrics Demo.idle_env) = Ret (Some Demo.idle_reading))
    by (vm_compute; reflexivity).
  rewrite Hres in Hr. injection Hr as <-.
  apply (Hcores 1%nat (55#2) (2400#1)); reflexivity.
Defined.

(** ** intel.py: the cluster average *)





(** ** [str.strip] and [str.split] as the providers use them *)

Lemma lstrip_starts (s : string) :
  lstrip s = EmptyString \/ starts_nonspace (lstrip s) = true.
Proof.
  induction s as [|c rest IH]; simpl; [left; reflexivity|].
  destruct (isspace c) eqn:Hc; [exact IH|].
  right. simpl. rewrite Hc. reflexivity.
Qed.

Lemma lstrip_id (s : string) : starts_nonspace s = true -> lstrip s = s.
Proof.
  destruct s as [|c rest]; simpl; [discriminate|].
  destruct (isspace c); [discriminate|reflexivity].
Qed.

Lemma rstrip_ends (s : string) :
  rstrip s = EmptyString \/ ends_nonspace (rstrip s) = true.
Proof.
  induction s as [|c rest IH]; simpl; [left; reflexivity|].
  destruct (rstrip rest) as [|a kept] eqn:Hrest.
  - destruct (isspace c) eqn:Hc; [left; reflexivity|].
    right. simpl. rewrite Hc. reflexivity.
  - right. destruct IH as [IH|IH]; [discriminate|]. exact IH.
Qed.

Lemma rstrip_id (s : string) : ends_nonspace s = true -> rstrip s = s.
Proof.
  induction s as [|c rest IH]; [discriminate|].
  destruct rest as [|a kept].
  - simpl. intros H. destruct (isspace c); [discriminate|reflexivity].
  - intros H. change (ends_nonspace (String c (String a kept)))
      with (ends_nonspace (String a kept)) in H.
    change (rstrip (String c (String a kept)))
      with (match rstrip (String a kept) with
            | EmptyString => if isspace c then EmptyString else String c EmptyString
            | String x y => String c (String x y)
            end).
    rewrite (IH H). reflexivity.
Qed.

Lemma rstrip_starts (s : string) :
  starts_nonspace s = true -> starts_nonspace (rstrip s) = true.
Proof.
  destruct s as [|c rest]; [discriminate|]. simpl. intros Hc.
  destruct (rstrip rest); [|simpl; exact Hc].
  destruct (isspace c) eqn:Hs; [discriminate|]. simpl. rewrite Hs. reflexivity.
Qed.

(** Stripping twice is stripping once. *)
Lemma strip_idempotent (s : string) : strip (strip s) = strip s.
Proof.
  unfold strip. destruct (lstrip_starts s) as [->|Hs]; [reflexivity|].
  pose proof (rstrip_starts _ Hs) as Hu.
  rewrite (lstrip_id _ Hu).
  destruct (rstrip_ends (lstrip s)) as [He|He].
  - rewrite He in Hu. discriminate.
  - apply rstrip_id, He.
Qed.

Lemma has_char_lstrip (c : ascii) (s : string) :
  has_char c s = false -> has_char c (lstrip s) = false.
Proof.
  induction s as [|a rest IH]; simpl; [auto|].
  intros H. apply orb_false_elim in H. destruct H as [Ha Hrest].
  destruct (isspace a); [apply IH, Hrest|]. simpl. rewrite Ha, Hrest. reflexivity.
Qed.

Lemma has_char_rstrip (c : ascii) (s : string) :
  has_char c s = false -> has_char c (rstrip s) = false.
Proof.
  induction s as [|a rest IH]; simpl; [auto|].
  intros H. apply orb_false_elim in H. destruct H as [Ha Hrest].
  specialize (IH Hrest).
  destruct (rstrip rest) as [|x kept].
  - destruct (isspace a); [reflexivity|]. simpl. rewrite Ha. reflexivity.
  - simpl. simpl in IH. rewrite Ha, IH. reflexivity.
Qed.

(** The last field of a split holds no separator. *)
Lemma last_field_no_sep (sep : ascii) (s : string) :
  has_char sep (last_field sep s) = false.
Proof.
  induction s as [|c rest IH]; simpl; [reflexivity|].
  destruct (has_char sep rest) eqn:Hrest; [exact IH|].
  destruct (Ascii.eqb c sep) eqn:Hc; [exact Hrest|].
  simpl. rewrite Hc, Hrest. reflexivity.
Qed.

(** ** intel.py: the thermal status and what [main] makes of it *)

(** [_get_thermal_status] answers ["Nominal"] when [sysctl] could not be
    run or printed nothing; otherwise it answers ["Thermal Level "]
    followed by the text after the last colon of the output, stripped, so
    the level holds no colon and no surrounding whitespace.  [main] shows
    ["OK"] only for ["Nominal"]: whenever [sysctl] prints anything the
    text shown starts with ["THROTTLE: Thermal Level "], whatever the
    level is.  The output of [sysctl] is taken to be ASCII text. *)
Theorem thermal_status_shape (env : intel_env) :
  ((exists e, thermal_sysctl env = Raise e) \/ thermal_sysctl env = Ret EmptyString ->
   _get_thermal_status env = "Nominal"%string /\
   throttle (_get_thermal_status env) = "OK"%string) /\
  (forall out, thermal_sysctl env = Ret out -> out <> EmptyString ->
   is_ascii out = true ->
   exists level,
     level = strip (last_field ":" out) /\
     _get_thermal_status env = ("Thermal Level " +:+ level)%string /\
     has_char ":" level = false /\ strip level = level /\
     throttle (_get_thermal_status env) = ("THROTTLE: Thermal Level " +:+ level)%string).
Proof.
  unfold _get_thermal_status. split.
  - intros [[e ->]| ->]; split; reflexivity.
  - intros out -> Hne _. destruct out as [|c rest]; [congruence|].
    exists (strip (last_field ":" (String c rest))).
    split; [reflexivity|]. split; [reflexivity|]. split; [|split].
    + unfold strip. apply has_char_rstrip, has_char_lstrip, last_field_no_sep.
    + apply strip_idempotent.
    + reflexivity.
Qed.

(** At the output of [sysctl] on a cool machine. *)
Lemma thermal_status_example :
  throttle (_get_thermal_status
              (mkIntelEnv 5 (Ret []) (Ret []) (Ret None)
                 (Ret ("machdep.xcpm.cpu_thermal_level: 0" +:+ String "010" "")%string)))
  = "THROTTLE: Thermal Level 0"%string.
Proof.
  destruct (proj2 (thermal_status_shape
              (mkIntelEnv 5 (Ret []) (Ret []) (Ret None)
                 (Ret ("machdep.xcpm.cpu_thermal_level: 0" +:+ String "010" "")%string)))
              _ eq_refl) as (level & Hlevel & _ & _ & _ & Hthrottle).
  - discriminate.
  - reflexivity.
  - rewrite Hthrottle, Hlevel. reflexivity.
Defined.

(** ** factory.py: what detection can answer *)

Lemma prefix_cons (a c : ascii) (n s : string) :
  String.prefix (String a n) (String c s)
  = if Ascii.eqb a c then String.prefix n s else false.
Proof.
  simpl. destruct (Ascii.ascii_dec a c) as [->|Hne].
  - rewrite Ascii.eqb_refl. reflexivity.
  - apply Ascii.eqb_neq in Hne. rewrite Hne. reflexivity.
Qed.

Lemma contains_lstrip (n s : string) :
  starts_nonspace n = true -> contains n (lstrip s) = contains n s.
Proof.
  intros Hn. destruct n as [|a n']; [discriminate|]. simpl in Hn.
  induction s as [|c rest IH]; [reflexivity|].
  simpl lstrip. destruct (isspace c) eqn:Hc; [|reflexivity].
  rewrite IH. change (contains (String a n') (String c rest))
    with (String.prefix (String a n') (String c rest) || contains (String a n') rest).
  rewrite prefix_cons.
  destruct (Ascii.eqb_spec a c) as [->|_]; [|reflexivity].
  rewrite Hc in Hn. discriminate.
Qed.

Lemma prefix_rstrip (s : string) :
  forall n, ends_nonspace n = true ->
            String.prefix n (rstrip s) = String.prefix n s.
Proof.
  induction s as [|c rest IH]; intros n Hn; [reflexivity|].
  destruct n as [|a n']; [discriminate|].
  change (rstrip (String c rest))
    with (match rstrip rest with
          | EmptyString => if isspace c then EmptyString else String c EmptyString
          | String x y => String c (String x y)
          end).
  rewrite (prefix_cons a c n' rest).
  destruct n' as [|b n''].
  - simpl in Hn. rewrite prefix_empty.
    destruct (rstrip rest) as [|x k].
    + destruct (isspace c) eqn:Hc.
      * destruct (Ascii.eqb_spec a c) as [->|_]; [|reflexivity].
        rewrite Hc in Hn. discriminate.
      * rewrite prefix_cons, prefix_empty. reflexivity.
    + rewrite prefix_cons, prefix_empty. reflexivity.
  - assert (Hn' : ends_nonspace (String b n'') = true) by exact Hn.
    specialize (IH _ Hn').
    destruct (rstrip rest) as [|x k].
    + rewrite <- IH. destruct (isspace c).
      * destruct (Ascii.eqb a c); reflexivity.
      * rewrite prefix_cons. destruct (Ascii.eqb a c); reflexivity.
    + rewrite prefix_cons, IH. reflexivity.
Qed.

Lemma contains_unfold (n : string) (c : ascii) (rest : string) :
  contains n (String c rest) = String.prefix n (String c rest) || contains n rest.
Proof. reflexivity. Qed.

Lemma contains_rstrip (n s : string) :
  ends_nonspace n = true -> contains n (rstrip s) = contains n s.
Proof.
  intros Hn.
  assert (Hempty : contains n EmptyString = false).
  { destruct n; [discriminate|reflexivity]. }
  induction s as [|c rest IH]; [reflexivity|].
  rewrite contains_unfold, <- (prefix_rstrip (String c rest) n Hn), <- IH.
  change (rstrip (String c rest))
    with (match rstrip rest with
          | EmptyString => if isspace c then EmptyString else String c EmptyString
          | String x y => String c (String x y)
          end).
  destruct (rstrip rest) as [|x k].
  - rewrite Hempty. destruct (isspace c).
    + rewrite Hempty. destruct n; [discriminate|reflexivity].
    + rewrite contains_unfold, Hempty. reflexivity.
  - rewrite contains_unfold. reflexivity.
Qed.

(** A needle without surrounding whitespace is found in the stripped
    text exactly when it is found in the text. *)
Lemma contains_strip (n s : string) :
  starts_nonspace n = true -> ends_nonspace n = true ->
  contains n (strip s) = contains n s.
Proof.
  intros Hs He. unfold strip. rewrite contains_rstrip, contains_lstrip; auto.
Qed.

(** On macOS, when the brand string can be read, the verdict of
    [detect_architecture] is a function of the raw [sysctl] output and of
    the machine type: stripping the output changes nothing, so leading or
    trailing whitespace and newlines around the brand never alter the
    detected architecture. *)
Theorem detection_ignores_surrounding_whitespace (h : host) (raw : string) :
  platform_system h = "Darwin"%string ->
  brand_string h = Ret raw ->
  detect_architecture h = ([], Ret (darwin_tag raw (platform_machine h))) /\
  darwin_tag (strip raw) (platform_machine h) = darwin_tag raw (platform_machine h).
Proof.
  intros Hsys Hbrand.
  assert (Htag : darwin_tag (strip raw) (platform_machine h)
                 = darwin_tag raw (platform_machine h)).
  { unfold darwin_tag. rewrite !contains_strip by reflexivity. reflexivity. }
  split; [|exact Htag].
  rewrite (detect_darwin h raw Hsys Hbrand), <- Htag. reflexivity.
Qed.

(** At a brand string as [sysctl] prints it, with its newline. *)
Lemma detection_whitespace_example :
  detect_architecture
    (mkHost "Darwin" (Ret ("Apple M2 Pro" +:+ String "010" "")%string) "arm64")
  = ([], Ret "apple_silicon"%string).
Proof.
  apply (detection_ignores_surrounding_whitespace
           (mkHost "Darwin" (Ret ("Apple M2 Pro" +:+ String "010" "")%string) "arm64")
           ("Apple M2 Pro" +:+ String "010" "")%string); reflexivity.
Defined.

Lemma darwin_tag_cases (brand machine : string) :
  In (darwin_tag brand machine) list_supported_architectures \/
  darwin_tag brand machine = "unknown"%string.
Proof.
  unfold darwin_tag, list_supported_architectures.
  destruct (contains "Apple" brand); [left; simpl; auto|].
  destruct (contains "Intel" brand); [left; simpl; auto|].
  destruct (_ || _); [left; simpl; auto|].
  destruct (_ || _); [left; simpl; auto|].
  right. reflexivity.
Qed.

Lemma detect_darwin_tag (h : host) (raw : string) :
  platform_system h = "Darwin"%string -> brand_string h = Ret raw ->
  detect_architecture h = ([], Ret (darwin_tag (strip raw) (platform_machine h))).
Proof. intros Hsys Hbrand. apply (detect_darwin h raw Hsys Hbrand). Qed.

(** [detect_architecture] never raises and answers a supported tag or
    [unknown]; it prints at most one warning, and one exactly when the
    host is macOS and reading the brand string raised; it answers a
    supported tag only on macOS and only when the brand string was read. *)
Theorem detect_architecture_answers (h : host) :
  exists log tag,
    detect_architecture h = (log, Ret tag) /\
    (In tag list_supported_architectures \/ tag = "unknown"%string) /\
    (length log <= 1)%nat /\
    (log <> [] <->
     platform_system h = "Darwin"%string /\ exists e, brand_string h = Raise e) /\
    (In tag list_supported_architectures ->
     log = [] /\ platform_system h = "Darwin"%string /\
     exists raw, brand_string h = Ret raw).
Proof.
  destruct (String.eqb_spec (platform_system h) "Darwin") as [Hsys|Hsys].
  - destruct (brand_string h) as [raw|e] eqn:Hbrand.
    + exists [], (darwin_tag (strip raw) (platform_machine h)).
      split; [apply (detect_darwin_tag h raw Hsys Hbrand)|].
      split; [apply darwin_tag_cases|].
      split; [simpl; lia|].
      split.
      * split; [intros H; contradiction|]. intros [_ [e He]]. discriminate.
      * intros _. repeat split; eauto.
    + exists ["Warning: Could not detect architecture"%string], "unknown"%string.
      split; [apply (detect_probe_failed h e Hsys Hbrand)|].
      split; [right; reflexivity|].
      split; [simpl; lia|].
      split.
      * split; [intros _; split; eauto|]. intros _. discriminate.
      * unfold list_supported_architectures. simpl.
        intros [H|[H|[]]]; discriminate.
  - exists [], "unknown"%string.
    split; [apply (detect_not_darwin h Hsys)|].
    split; [right; reflexivity|].
    split; [simpl; lia|].
    split.
    + split; [intros H; contradiction|]. intros [H _]. contradiction.
    + unfold list_supported_architectures. simpl.
      intros [H|[H|[]]]; discriminate.
Qed.

Lemma get_system_provider_unfold (force : option string) (h : host) (log : list string)
  (tag : string) :
  match force with
  | Some (String c rest) => Py.ret (String c rest)
  | _ => detect_architecture h
  end = (log, Ret tag) ->
  get_system_provider force h =
    (log, if String.eqb tag "apple_silicon" then Ret AppleSiliconProvider
          else if String.eqb tag "intel" then Ret IntelProvider
          else Raise (RuntimeError (unsupported_message tag h))).
Proof.
  intros H. unfold get_system_provider. rewrite H. simpl.
  destruct (String.eqb tag "apple_silicon"); [simpl; rewrite app_nil_r; reflexivity|].
  destruct (String.eqb tag "intel"); simpl; rewrite app_nil_r; reflexivity.
Qed.

(** [get_system_provider] constructs a provider exactly when the tag it
    decides on, the non-empty override or else the detected one, is
    listed by [list_supported_architectures]; otherwise it raises a
    [RuntimeError] whose message carries that tag.  The provider built is
    determined by the tag, and the override is matched literally, with no
    normalisation of case. *)
Theorem provider_iff_supported (force : option string) (h : host) :
  exists tag,
    selected_tag force h = Ret tag /\
    ((exists p, Py.result (get_system_provider force h) = Ret p)
     <-> In tag list_supported_architectures) /\
    (Py.result (get_system_provider force h) = Ret AppleSiliconProvider
     <-> tag = "apple_silicon"%string) /\
    (Py.result (get_system_provider force h) = Ret IntelProvider
     <-> tag = "intel"%string) /\
    (~ In tag list_supported_architectures ->
     Py.result (get_system_provider force h)
     = Raise (RuntimeError (unsupported_message tag h))).
Proof.
  assert (Hsel : exists log tag,
             match force with
             | Some (String c rest) => Py.ret (String c rest)
             | _ => detect_architecture h
             end = (log, Ret tag) /\ selected_tag force h = Ret tag).
  { unfold selected_tag. destruct (detect_total h) as (log & arch & Hd).
    destruct force as [[|c rest]|]; rewrite ?Hd; simpl; eauto. }
  destruct Hsel as (log & tag & Hrun & Hsel).
  exists tag. split; [exact Hsel|].
  rewrite (get_system_provider_unfold force h log tag Hrun).
  unfold list_supported_architectures. simpl.
  destruct (String.eqb_spec tag "apple_silicon") as [Ha|Ha].
  - subst tag. repeat split; eauto; try discriminate.
    intros H. exfalso. apply H. auto.
  - destruct (String.eqb_spec tag "intel") as [Hi|Hi].
    + subst tag. repeat split; eauto; try discriminate.
      intros H. exfalso. apply H. auto.
    + repeat split; try discriminate; try congruence.
      * intros [p Hp]. discriminate.
      * intros [H|[H|[]]]; congruence.
Qed.

(** ** vtop.py: the layout of the core charts *)

Lemma core_charts_length (label : string) (n : Z) :
  length (core_charts label n) = Z.to_nat n.
Proof. unfold core_charts. rewrite length_map, length_seq. reflexivity. Qed.

(** Whatever the core counts, every efficiency core and every performance
    core gets exactly one chart, in order; the efficiency cores have a row
    of their own exactly when their count is not [0]; the performance
    cores fill one row up to 8 of them (4 next to efficiency cores) and
    otherwise two rows, the first with the extra chart of an odd count.
    A core count reported as ["?"] ends the program with a [TypeError]
    before anything is laid out. *)
Theorem cpu_cores_layout_shows_every_core (e p : Z) :
  (exists e_rows p_rows,
     cpu_cores_layout (Some e) (Some p) = Ret (e_rows ++ p_rows) /\
     concat e_rows = core_charts "E" e /\
     concat p_rows = core_charts "P" p /\
     (e_rows = [] <-> e = 0) /\ (length e_rows <= 1)%nat /\
     (length p_rows = 1%nat <-> p <= (if e =? 0 then 8 else 4)) /\
     (p_rows = [core_charts "P" p] \/
      exists a b, p_rows = [a; b] /\
                  length a = Z.to_nat ((p + 1) / 2) /\ length b = Z.to_nat (p / 2))) /\
  cpu_cores_layout None (Some p) = Raise TypeError /\
  cpu_cores_layout (Some e) None = Raise TypeError.
Proof.
  split; [|split; reflexivity].
  assert (Hsplit : forall l : list string,
             concat [firstn (Z.to_nat ((p + 1) / 2)) l;
                     skipn (Z.to_nat ((p + 1) / 2)) l] = l).
  { intros l. simpl. rewrite app_nil_r. apply firstn_skipn. }
  assert (Hlen : 4 < p ->
             length (firstn (Z.to_nat ((p + 1) / 2)) (core_charts "P" p))
             = Z.to_nat ((p + 1) / 2) /\
             length (skipn (Z.to_nat ((p + 1) / 2)) (core_charts "P" p))
             = Z.to_nat (p / 2)).
  { intros Hp. rewrite length_firstn, length_skipn, core_charts_length.
    assert (H1 : (p + 1) / 2 + p / 2 = p) by (Z.div_mod_to_equations; lia).
    assert (H2 : 0 <= p / 2) by (apply Z.div_pos; lia).
    assert (H3 : 0 <= (p + 1) / 2) by (apply Z.div_pos; lia).
    split; lia. }
  unfold cpu_cores_layout.
  destruct (Z.eqb_spec e 0) as [He|He].
  - destruct (Z.leb_spec p 8) as [Hp|Hp].
    + exists [], [core_charts "P" p]. subst e. simpl.
      rewrite app_nil_r. repeat split; auto; lia.
    + exists [], [firstn (Z.to_nat ((p + 1) / 2)) (core_charts "P" p);
                  skipn (Z.to_nat ((p + 1) / 2)) (core_charts "P" p)].
      subst e. split; [reflexivity|]. split; [reflexivity|].
      split; [apply Hsplit|].
      repeat split; auto; try (simpl; lia).
      right. eexists _, _. split; [reflexivity|]. apply Hlen. lia.
  - assert (Herow : (if 0 <? e then core_charts "E" e else []) = core_charts "E" e).
    { destruct (Z.ltb_spec 0 e); [reflexivity|].
      unfold core_charts. replace (Z.to_nat e) with 0%nat by lia. reflexivity. }
    rewrite Herow.
    destruct (Z.leb_spec p 4) as [Hp|Hp].
    + exists [core_charts "E" e], [core_charts "P" p]. simpl.
      rewrite !app_nil_r. repeat split; auto; try lia; discriminate.
    + exists [core_charts "E" e],
        [firstn (Z.to_nat ((p + 1) / 2)) (core_charts "P" p);
         skipn (Z.to_nat ((p + 1) / 2)) (core_charts "P" p)].
      split; [reflexivity|]. split; [simpl; apply app_nil_r|].
      split; [apply Hsplit|].
      repeat split; auto; try (simpl; lia); try discriminate.
      right. eexists _, _. split; [reflexivity|]. apply Hlen. lia.
Qed.

(** ** vtop.py: [get_uptime] *)

Lemma int_of_float_inject (z : Z) : Py.int_of_float (inject_Z z) = z.
Proof. unfold Py.int_of_float. simpl. apply Z.quot_1_r. Qed.

Lemma inject_Z_pos (d : Z) : 0 < d -> (0 < inject_Z d)%Q.
Proof. intros H. unfold Qlt. simpl. lia. Qed.

(** A floor division by a positive constant leaves a remainder in
    [[0, d)]. *)
Lemma floordiv_bounds (x : Q) (d : Z) :
  0 < d ->
  (inject_Z d * floordiv x d <= x /\ x < inject_Z d * floordiv x d + inject_Z d)%Q.
Proof.
  intros Hd. pose proof (inject_Z_pos d Hd) as Hq.
  assert (Hne : ~ (inject_Z d == 0)%Q) by lra.
  unfold floordiv.
  pose proof (Qfloor_le (x / inject_Z d)) as Hlo.
  pose proof (Qlt_floor (x / inject_Z d)) as Hhi.
  rewrite inject_Z_plus in Hhi. change (inject_Z 1) with 1%Q in Hhi.
  set (f := inject_Z (Qfloor (x / inject_Z d))) in *.
  pose proof (Qmult_div_r x (inject_Z d) Hne) as Hx.
  split.
  - apply Qle_trans with (inject_Z d * (x / inject_Z d))%Q.
    + apply Qmult_le_l; assumption.
    + rewrite Hx. apply Qle_refl.
  - apply Qle_lt_trans with (inject_Z d * (x / inject_Z d))%Q.
    + rewrite Hx. apply Qle_refl.
    + assert (He : (inject_Z d * f + inject_Z d == inject_Z d * (f + 1))%Q) by ring.
      rewrite He. apply Qmult_lt_l; assumption.
Qed.

Lemma uptime_fields_bounds (x : Q) (d h m : Z) :
  uptime_fields x = (d, h, m) ->
  0 <= h < 24 /\ 0 <= m < 60 /\
  (inject_Z (86400 * d + 3600 * h + 60 * m) <= x)%Q /\
  (x < inject_Z (86400 * d + 3600 * h + 60 * m + 60))%Q /\
  (0 < d <-> (86400 <= x)%Q) /\
  (d < 0 <-> (x < 0)%Q).
Proof.
  intros Hf.
  unfold uptime_fields in Hf. unfold floordiv in Hf.
  rewrite !int_of_float_inject in Hf.
  pose proof (floordiv_bounds x 86400 ltac:(lia)) as [D1 D2].
  pose proof (floordiv_bounds (pymod x 86400) 3600 ltac:(lia)) as [H1 H2].
  pose proof (floordiv_bounds x 3600 ltac:(lia)) as [K1 K2].
  pose proof (floordiv_bounds (pymod x 3600) 60 ltac:(lia)) as [M1 M2].
  unfold floordiv in D1, D2, H1, H2, M1, M2.
  assert (Hd : Qfloor (x / inject_Z 86400) = d) by congruence.
  assert (Hh : Qfloor (pymod x 86400 / inject_Z 3600) = h) by congruence.
  assert (Hm : Qfloor (pymod x 3600 / inject_Z 60) = m) by congruence.
  clear Hf.
  rewrite Hd in D1, D2. rewrite Hh in H1, H2. rewrite Hm in M1, M2.
  unfold pymod in H1, H2, M1, M2. unfold floordiv in H1, H2, K1, K2, M1, M2.
  rewrite Hd in H1, H2. clear Hd Hh Hm.
  set (k := Qfloor (x / inject_Z 3600)) in *. clearbody k.
  change (inject_Z 86400) with 86400%Q in *.
  change (inject_Z 3600) with 3600%Q in *.
  change (inject_Z 60) with 60%Q in *.
  assert (Hk : k = 24 * d + h).
  { apply Z.le_antisymm.
    - apply Z.lt_succ_r. unfold Z.succ.
      rewrite Zlt_Qlt, !inject_Z_plus, !inject_Z_mult.
      change (inject_Z 24) with 24%Q. change (inject_Z 1) with 1%Q. lra.
    - apply Z.lt_succ_r. unfold Z.succ.
      rewrite Zlt_Qlt, !inject_Z_plus, !inject_Z_mult.
      change (inject_Z 24) with 24%Q. change (inject_Z 1) with 1%Q. lra. }
  subst k. rewrite !inject_Z_plus, !inject_Z_mult in K1, K2, M1, M2.
  change (inject_Z 24) with 24%Q in *.
  assert (Hh : 0 <= h < 24).
  { split.
    - assert (-1 < h); [|lia].
      rewrite Zlt_Qlt. change (inject_Z (-1)) with (-1)%Q. lra.
    - rewrite Zlt_Qlt. change (inject_Z 24) with 24%Q. lra. }
  assert (Hm : 0 <= m < 60).
  { split.
    - assert (-1 < m); [|lia].
      rewrite Zlt_Qlt. change (inject_Z (-1)) with (-1)%Q. lra.
    - rewrite Zlt_Qlt. change (inject_Z 60) with 60%Q. lra. }
  split; [exact Hh|]. split; [exact Hm|].
  rewrite !inject_Z_plus, !inject_Z_mult.
  change (inject_Z 86400) with 86400%Q. change (inject_Z 3600) with 3600%Q.
  change (inject_Z 60) with 60%Q.
  split; [lra|]. split; [lra|].
  assert (Qh : (0 <= inject_Z h /\ inject_Z h <= 23)%Q).
  { change 0%Q with (inject_Z 0). change 23%Q with (inject_Z 23).
    rewrite <- !Zle_Qle. lia. }
  split.
  - split.
    + intros Hpos. assert (1 <= inject_Z d)%Q.
      { change 1%Q with (inject_Z 1). rewrite <- Zle_Qle. lia. }
      lra.
    + intros Hx. rewrite Zlt_Qlt. change (inject_Z 0) with 0%Q. lra.
  - split.
    + intros Hneg. assert (inject_Z d <= -1)%Q.
      { change (-1)%Q with (inject_Z (-1)). rewrite <- Zle_Qle. lia. }
      lra.
    + intros Hx. rewrite Zlt_Qlt. change (inject_Z 0) with 0%Q. lra.
Qed.

(** For a boot time not later than the current time (and less than
    [2^52] seconds before it), the uptime is the double nearest to the
    difference of the two clocks, and the three fields of the uptime text
    are that double rounded down to the minute: days are not negative,
    hours stay below 24 and minutes below 60, and the days are shown
    exactly from 86400 seconds on. *)
Theorem uptime_decomposition (boot now : Q) (d h m : Z) :
  (boot <= now)%Q -> (now - boot <= inject_Z (2 ^ 52))%Q ->
  uptime_fields (fl (now - boot)) = (d, h, m) ->
  (0 <= fl (now - boot))%Q /\ (fl (now - boot) <= inject_Z (2 ^ 52))%Q /\
  0 <= d /\ 0 <= h < 24 /\ 0 <= m < 60 /\
  (inject_Z (86400 * d + 3600 * h + 60 * m) <= fl (now - boot))%Q /\
  (fl (now - boot) < inject_Z (86400 * d + 3600 * h + 60 * m + 60))%Q /\
  (0 < d <-> (86400 <= fl (now - boot))%Q) /\
  get_uptime (Ret boot) now =
    (if (0 <? d)%Z
     then pretty d +:+ "d " +:+ pretty h +:+ "h " +:+ pretty m +:+ "m"
     else if (0 <? h)%Z then pretty h +:+ "h " +:+ pretty m +:+ "m"
     else pretty m +:+ "m")%string.
Proof.
  intros Hle Hbound Hf.
  assert (Htext : get_uptime (Ret boot) now =
    (if (0 <? d)%Z
     then pretty d +:+ "d " +:+ pretty h +:+ "h " +:+ pretty m +:+ "m"
     else if (0 <? h)%Z then pretty h +:+ "h " +:+ pretty m +:+ "m"
     else pretty m +:+ "m")%string).
  { unfold get_uptime. rewrite Hf. reflexivity. }
  assert (H0 : (0 <= fl (now - boot))%Q) by (apply fl_nonneg; lra).
  assert (H1 : (fl (now - boot) <= inject_Z (2 ^ 52))%Q).
  { apply fl_le_int; [|exact Hbound]. split; [lia|apply Z.pow_lt_mono_r; lia]. }
  destruct (uptime_fields_bounds _ _ _ _ Hf) as (Hh & Hm & Hlo & Hhi & Hd & Hneg).
  repeat split; try assumption; try apply Hh; try apply Hm; try apply Hd.
  destruct (Z.le_gt_cases 0 d) as [Hpos|Hlt]; [exact Hpos|].
  apply Hneg in Hlt. lra.
Qed.

(** At a machine booted 100000 seconds ago: one day, 3 hours, 46 minutes;
    and at the doubles nearest to 0.1 and 18060.1, whose difference is
    rounded to 18060 seconds. *)
Lemma uptime_decomposition_example :
  get_uptime (Ret 500%Q) 100500%Q = "1d 3h 46m"%string /\
  (inject_Z (86400 * 1 + 3600 * 3 + 60 * 46) <= fl (100500 - 500))%Q /\
  get_uptime (Ret (fl (1 # 10))) (fl (180601 # 10)) = "5h 1m"%string.
Proof.
  pose proof (uptime_decomposition 500%Q 100500%Q 1 3 46
                ltac:(vm_compute; discriminate) ltac:(vm_compute; discriminate)
                ltac:(vm_compute; reflexivity))
    as (_ & _ & _ & _ & _ & Hlo & _ & _ & Htext).
  split; [exact Htext|]. split; [exact Hlo|].
  vm_compute. reflexivity.
Defined.

(** ** vtop.py: [get_battery_info] *)

(** The remaining time is shown as hours and minutes only for a
    non-negative number of seconds that is neither sentinel, and then it
    is that number rounded down to the minute, with minutes below 60;
    the status follows the charger, and without a battery, or when the
    sensor raises, nothing is reported. *)
Theorem battery_time_is_rounded_down (unlimited unknown : Z) (b : battery) :
  exists info,
    get_battery_info unlimited unknown (Ret (Some b)) = Some info /\
    (bi_status info = "Charging"%string <-> power_plugged b = true) /\
    (secsleft b < 0 \/ secsleft b = unlimited \/ secsleft b = unknown ->
     bi_time info = "Unlimited"%string \/ bi_time info = "Calculating..."%string) /\
    (0 <= secsleft b -> secsleft b <> unlimited -> secsleft b <> unknown ->
     exists hours mins,
       bi_time info = (pretty hours +:+ "h " +:+ pretty mins +:+ "m left")%string /\
       0 <= hours /\ 0 <= mins < 60 /\
       3600 * hours + 60 * mins <= secsleft b < 3600 * hours + 60 * mins + 60).
Proof.
  eexists. split; [reflexivity|]. simpl. split; [|split].
  - destruct (power_plugged b); split; intros H; try reflexivity; discriminate.
  - unfold battery_time. intros H.
    destruct (Z.eqb_spec (secsleft b) unlimited); [left; reflexivity|].
    destruct (Z.eqb_spec (secsleft b) unknown); [right; reflexivity|].
    destruct (Z.ltb_spec (secsleft b) 0); [right; reflexivity|]. lia.
  - unfold battery_time. intros H0 Hu Hk.
    destruct (Z.eqb_spec (secsleft b) unlimited); [contradiction|].
    destruct (Z.eqb_spec (secsleft b) unknown); [contradiction|].
    destruct (Z.ltb_spec (secsleft b) 0); [lia|]. simpl.
    exists (secsleft b / 3600), ((secsleft b mod 3600) / 60).
    split; [reflexivity|].
    generalize (secsleft b) H0. intros s Hs.
    Z.div_mod_to_equations. lia.
Qed.

(** With the sentinels of [psutil] and 5000 seconds left. *)
Lemma battery_time_example :
  bi_time <$> get_battery_info (-2) (-1) (Ret (Some (mkBattery 80 false 5000)))
  = Some "1h 23m left"%string.
Proof.
  destruct (battery_time_is_rounded_down (-2) (-1) (mkBattery 80 false 5000))
    as (info & Hinfo & _ & _ & Htime).
  rewrite Hinfo. simpl.
  destruct Htime as (hours & mins & Ht & _); [simpl; lia|discriminate|discriminate|].
  simpl in Hinfo. injection Hinfo as <-. reflexivity.
Defined.

(** ** vtop.py: [get_top_processes] *)

Lemma insert_desc_perm (x : pinfo) (l : list pinfo) :
  Permutation (insert_desc x l) (x :: l).
Proof.
  induction l as [|y rest IH]; [reflexivity|]. simpl.
  destruct (float_gt (sort_key y) (sort_key x)); [|reflexivity].
  rewrite IH. apply perm_swap.
Qed.

Lemma sort_desc_perm (l : list pinfo) : Permutation (sort_desc l) l.
Proof.
  induction l as [|x rest IH]; [reflexivity|]. simpl.
  rewrite insert_desc_perm, IH. reflexivity.
Qed.

Lemma insert_desc_sorted (x : pinfo) (l : list pinfo) :
  StronglySorted key_ge l -> StronglySorted key_ge (insert_desc x l).
Proof.
  induction 1 as [|y rest Hs IH Hy]; simpl.
  - constructor; constructor.
  - destruct (float_gt (sort_key y) (sort_key x)) eqn:Hgt.
    + constructor; [exact IH|].
      rewrite insert_desc_perm. constructor; [|exact Hy].
      apply float_gt_spec in Hgt. unfold key_ge. lra.
    + apply float_gt_false in Hgt.
      constructor; [constructor; assumption|].
      constructor; [exact Hgt|].
      eapply Forall_impl; [exact Hy|].
      intros z Hz. unfold key_ge in *. lra.
Qed.

Lemma sort_desc_sorted (l : list pinfo) : StronglySorted key_ge (sort_desc l).
Proof.
  induction l as [|x rest IH]; simpl; [constructor|].
  apply insert_desc_sorted, IH.
Qed.

(** The sort is stable: the entries tied at a key keep their order. *)
Lemma insert_desc_tied (k : Q) (x : pinfo) (l : list pinfo) :
  filter (fun p => tied k p = true) (insert_desc x l)
  = filter (fun p => tied k p = true) (x :: l).
Proof.
  induction l as [|y rest IH]; [reflexivity|]. simpl.
  destruct (float_gt (sort_key y) (sort_key x)) eqn:Hgt; [|reflexivity].
  rewrite filter_cons, IH, !filter_cons.
  destruct (decide (tied k y = true)) as [Hy|Hy];
    destruct (decide (tied k x = true)) as [Hx|Hx]; try reflexivity.
  exfalso. apply float_gt_spec in Hgt.
  unfold tied in Hx, Hy. apply Qeq_bool_iff in Hx, Hy. lra.
Qed.

Lemma sort_desc_tied (k : Q) (l : list pinfo) :
  filter (fun p => tied k p = true) (sort_desc l)
  = filter (fun p => tied k p = true) l.
Proof.
  induction l as [|x rest IH]; [reflexivity|]. simpl.
  rewrite insert_desc_tied, !filter_cons, IH. reflexivity.
Qed.

Lemma sorted_app_split (l1 l2 : list pinfo) :
  StronglySorted key_ge (l1 ++ l2) ->
  StronglySorted key_ge l1 /\
  Forall (fun q => Forall (fun p => key_ge p q) l1) l2.
Proof.
  induction l1 as [|x rest IH]; simpl; intros Hs.
  - split; [constructor|]. apply Forall_forall. intros q _. constructor.
  - inversion Hs as [|? ? Hrest Hx]; subst.
    destruct (IH Hrest) as [Hs1 Hle].
    split.
    + constructor; [exact Hs1|]. apply Forall_app in Hx. apply Hx.
    + apply Forall_app in Hx. destruct Hx as [_ Hx2].
      rewrite Forall_forall in Hle, Hx2. apply Forall_forall.
      intros q Hq. constructor; [apply Hx2, Hq|apply Hle, Hq].
Qed.

(** For a non-negative [n], [get_top_processes] returns the [n] busiest
    of the processes whose load could be read and is positive, or all of
    them when there are fewer: busiest first, every process left out at
    most as busy as every process returned, and among processes of equal
    load those that [psutil] listed first. *)
Theorem get_top_processes_are_the_busiest (n : Z) (ps : list pinfo) :
  0 <= n ->
  let top := get_top_processes n (Ret ps) in
  let candidates := filter (fun p => busy p = true) ps in
  length top = Nat.min (Z.to_nat n) (length candidates) /\
  Forall (fun p => exists c, p_cpu_percent p = Some c /\ (0 < c)%Q) top /\
  StronglySorted key_ge top /\
  (exists rest, Permutation (top ++ rest) candidates /\
                Forall (fun q => Forall (fun p => key_ge p q) top) rest) /\
  forall k, filter (fun p => tied k p = true) top
            `prefix_of` filter (fun p => tied k p = true) candidates.
Proof.
  intros Hn top candidates.
  assert (Htop : top = firstn (Z.to_nat n) (sort_desc candidates)).
  { unfold top, get_top_processes, slice_to.
    destruct (Z.leb_spec 0 n); [reflexivity|lia]. }
  pose proof (sort_desc_perm candidates) as Hperm.
  pose proof (sort_desc_sorted candidates) as Hsorted.
  rewrite <- (firstn_skipn (Z.to_nat n) (sort_desc candidates)) in Hsorted, Hperm.
  rewrite <- Htop in Hsorted, Hperm.
  destruct (sorted_app_split _ _ Hsorted) as [Hs1 Hle].
  split; [|split; [|split; [|split]]].
  - rewrite Htop, length_firstn, (Permutation_length (sort_desc_perm candidates)).
    reflexivity.
  - assert (Hall : Forall (fun p => busy p = true) (top ++ skipn (Z.to_nat n) (sort_desc candidates))).
    { rewrite Hperm. apply Forall_forall. intros p Hp.
      unfold candidates in Hp.
      apply (proj1 (list_elem_of_filter _ _ _)) in Hp. apply Hp. }
    apply Forall_app in Hall. destruct Hall as [Hall _].
    eapply Forall_impl; [exact Hall|].
    intros p Hp. unfold busy in Hp.
    destruct (p_cpu_percent p) as [c|]; [|discriminate].
    exists c. split; [reflexivity|]. apply float_gt_spec, Hp.
  - exact Hs1.
  - exists (skipn (Z.to_nat n) (sort_desc candidates)). split; assumption.
  - intros k. rewrite <- (sort_desc_tied k candidates).
    rewrite <- (firstn_skipn (Z.to_nat n) (sort_desc candidates)).
    rewrite <- Htop, filter_app. eexists. reflexivity.
Qed.

(** A witness: of four processes, one unreadable and one idle, the two
    busy ones are returned, busiest first. *)
Lemma get_top_processes_example :
  map pid (get_top_processes 3
             (Ret [mkPinfo 1 "init" (Some 0%Q); mkPinfo 2 "cc" (Some 12%Q);
                   mkPinfo 3 "sys" None; mkPinfo 4 "vtop" (Some 40%Q)]))
  = [4; 2] /\
  length (get_top_processes 3
            (Ret [mkPinfo 1 "init" (Some 0%Q); mkPinfo 2 "cc" (Some 12%Q);
                  mkPinfo 3 "sys" None; mkPinfo 4 "vtop" (Some 40%Q)])) = 2%nat.
Proof.
  split; [reflexivity|].
  exact (proj1 (get_top_processes_are_the_busiest 3
                  [mkPinfo 1 "init" (Some 0%Q); mkPinfo 2 "cc" (Some 12%Q);
                   mkPinfo 3 "sys" None; mkPinfo 4 "vtop" (Some 40%Q)]
                  ltac:(lia))).
Defined.

(** ** vtop.py: [get_memory_pressure] *)

Lemma is_digit_value (c : ascii) : is_digit c = true -> 0 <= digit_value c <= 9.
Proof.
  unfold is_digit, digit_value. intros H.
  apply andb_true_iff in H. destruct H as [H1 H2].
  apply Nat.leb_le in H1, H2. lia.
Qed.

Lemma digits_value_nonneg (s : string) :
  forall acc, all_digits s = true -> 0 <= acc -> 0 <= digits_value acc s.
Proof.
  induction s as [|c rest IH]; intros acc Hs Hacc; [exact Hacc|].
  simpl in Hs. apply andb_true_iff in Hs. destruct Hs as [Hc Hrest].
  simpl. apply IH; [exact Hrest|].
  pose proof (is_digit_value c Hc). lia.
Qed.

Lemma keep_digits_all (s : string) : all_digits (keep_digits s) = true.
Proof.
  induction s as [|c rest IH]; [reflexivity|]. simpl.
  destruct (is_digit c) eqn:Hc; [|exact IH]. simpl. rewrite Hc. exact IH.
Qed.

Lemma int_of_digits_nonneg (s : string) (pct : Z) :
  int_of_digits (keep_digits s) = Ret pct -> 0 <= pct.
Proof.
  unfold int_of_digits. intros H.
  assert (Hv : pct = digits_value 0 (keep_digits s)).
  { destruct (keep_digits s); [discriminate|congruence]. }
  rewrite Hv. apply digits_value_nonneg; [apply keep_digits_all|lia].
Qed.

Lemma pressure_of_lines_nonneg (lines : list string) (p : pressure) :
  pressure_of_lines lines = Ret (Some p) ->
  exists pct, 0 <= pct /\ p = pressure_of_free pct.
Proof.
  induction lines as [|line rest IH]; simpl; [discriminate|].
  destruct (contains "free percentage" (lower line)); [|exact IH].
  destruct (int_of_digits (keep_digits (last_field ":" line))) as [pct|e] eqn:Hp;
    [|discriminate].
  intros H. injection H as <-. exists pct. split; [|reflexivity].
  eapply int_of_digits_nonneg, Hp.
Qed.

(** Whatever ASCII text the [memory_pressure] command prints, and
    whatever it raises, the result is either the placeholder or a used
    percentage of at most 100 with the level its thresholds give: below
    25 normal, below 50 moderate, from 50 on high.  *)
Theorem memory_pressure_levels (stdout : outcome string) :
  (forall output, stdout = Ret output -> is_ascii output = true) ->
  let p := get_memory_pressure stdout in
  p = pressure_unavailable \/
  (pr_percent p <= 100 /\
   ((pr_percent p < 25 /\ pr_level p = "Normal"%string /\ pr_color p = "green"%string) \/
    (25 <= pr_percent p < 50 /\
     pr_level p = "Moderate"%string /\ pr_color p = "yellow"%string) \/
    (50 <= pr_percent p /\ pr_level p = "High"%string /\ pr_color p = "red"%string))).
Proof.
  intros _.
  unfold get_memory_pressure. destruct stdout as [output|e]; [|left; reflexivity].
  destruct (pressure_of_lines (split_on "010" output)) as [[p|]|e] eqn:Hl;
    [|left; reflexivity|left; reflexivity].
  right. destruct (pressure_of_lines_nonneg _ _ Hl) as (pct & Hpct & ->).
  unfold pressure_of_free.
  destruct (Z.ltb_spec 75 pct); [simpl; split; [lia|left; repeat split; lia]|].
  destruct (Z.ltb_spec 50 pct); simpl; split; try lia.
  - right. left. repeat split; lia.
  - right. right. repeat split; lia.
Qed.

(** At a report that leaves 40 percent free: 60 percent used, high. *)
Lemma memory_pressure_levels_example :
  let p := get_memory_pressure (Ret "System-wide memory free percentage: 40%"%string) in
  p = mkPressure "High" 60 "red" /\
  (p = pressure_unavailable \/
   (pr_percent p <= 100 /\
    ((pr_percent p < 25 /\ pr_level p = "Normal"%string /\ pr_color p = "green"%string) \/
     (25 <= pr_percent p < 50 /\
      pr_level p = "Moderate"%string /\ pr_color p = "yellow"%string) \/
     (50 <= pr_percent p /\ pr_level p = "High"%string /\ pr_color p = "red"%string)))).
Proof.
  split; [reflexivity|].
  apply (memory_pressure_levels (Ret "System-wide memory free percentage: 40%"%string)).
  intros output H. injection H as <-. reflexivity.
Defined.




















(** ** intel.py and vtop.py: the Intel profile at start-up *)

Lemma main_init_limits (args : Args) (soc : soc_info) (first : reading) (st : state) :
  main_init args soc first = Ret st ->
  cpu_max_power st = Py.or_default (soc_cpu_max_power soc) 50 /\
  gpu_max_power st = Py.or_default (soc_gpu_max_power soc) 25.
Proof.
  unfold main_init. destruct (window_capacity args) as [cap|e]; [|discriminate].
  destruct (deque_new cap) as [empty|e]; [|discriminate].
  intros H. injection H as <-. split; reflexivity.
Qed.

Lemma estimate_tdp_values (brand : option string) :
  exists tdp, _estimate_tdp brand = Some tdp /\ In tdp [45; 35; 28; 15; 65; 25].
Proof.
  unfold _estimate_tdp.
  repeat match goal with
         | |- context [if ?c then _ else _] => destruct c
         end; eexists; (split; [reflexivity|]); simpl; auto 10.
Qed.

(** With the Intel provider the session starts with a GPU scale of 25 W,
    the fallback of the session loop, and a CPU scale that is one of the
    six estimates of the provider, never the 50 W fallback; the estimate
    without a brand string is the generic one; and the core charts are
    laid out without an efficiency row, every core in one performance
    row or two. *)
Theorem intel_profile_at_startup (brand : option string) (core_count : Z)
    (args : Args) (first : reading) (st : state) :
  main_init args (intel_get_soc_info brand core_count) first = Ret st ->
  gpu_max_power st = 25 /\
  In (cpu_max_power st) [45; 35; 28; 15; 65; 25] /\
  (brand = None -> cpu_max_power st = 25) /\
  exists rows,
    cpu_cores_layout (soc_e_core_count (intel_get_soc_info brand core_count))
                     (soc_p_core_count (intel_get_soc_info brand core_count))
    = Ret rows /\
    concat rows = core_charts "P" core_count /\ (1 <= length rows <= 2)%nat.
Proof.
  intros Hinit. destruct (main_init_limits _ _ _ _ Hinit) as [Hcpu Hgpu].
  simpl in Hcpu, Hgpu.
  split; [exact Hgpu|].
  destruct (estimate_tdp_values brand) as (tdp & Htdp & Hin).
  rewrite Htdp in Hcpu.
  assert (Hne : tdp <> 0).
  { simpl in Hin. intuition lia. }
  unfold Py.or_default in Hcpu.
  destruct (Z.eqb_spec tdp 0) as [H0|_]; [contradiction|].
  split; [rewrite Hcpu; exact Hin|].
  split.
  - intros ->. rewrite Hcpu. unfold _estimate_tdp in Htdp. simpl in Htdp. congruence.
  - simpl. unfold cpu_cores_layout. simpl.
    destruct (core_count <=? 8).
    + eexists. split; [reflexivity|]. simpl. rewrite app_nil_r. split; [reflexivity|lia].
    + eexists. split; [reflexivity|]. simpl. rewrite app_nil_r.
      split; [apply firstn_skipn|lia].
Qed.

(** With the default arguments and a Core i7. *)
Lemma intel_profile_example :
  exists st,
    main_init Demo.args_default
      (intel_get_soc_info (Some "Intel(R) Core(TM) i7-9750H CPU @ 2.60GHz"%string) 12)
      (Demo.sample 0 0) = Ret st /\
    gpu_max_power st = 25 /\ cpu_max_power st = 35.
Proof.
  eexists. split; [reflexivity|].
  split; [|reflexivity].
  apply (intel_profile_at_startup
           (Some "Intel(R) Core(TM) i7-9750H CPU @ 2.60GHz"%string) 12
           Demo.args_default (Demo.sample 0 0) _ eq_refl).
Defined.

(** ** intel.py and vtop.py: the per-core charts *)

Lemma pretty_Z_of_nat (i : nat) : pretty (Z.of_nat i) = pretty i.
Proof. destruct i; reflexivity. Qed.

Lemma intel_body_ret (env : intel_env) (ps f0 cf : list Q) :
  cpu_percent env = Ret ps -> cpu_freq_percpu env = Ret f0 ->
  settle_cpu_freq env (length ps) f0 = Ret cf ->
  intel_metrics_body env =
    Ret (mkReading (intel_cpu_metrics ps cf) intel_gpu_metrics
           (_get_thermal_status env) None (time_time env)).
Proof.
  intros Hp Hf Hs.
  destruct (intel_body_cases env) as [[Hfail _]|(ps' & f0' & cf' & Hp' & Hf' & Hs' & Hb)].
  - exfalso. destruct Hfail as [[e' H]|[[e' H]|[H0 [e' H]]]]; [congruence|congruence|].
    rewrite H0 in Hf. inversion Hf; subst.
    unfold settle_cpu_freq in Hs. rewrite H in Hs. discriminate.
  - rewrite Hp in Hp'. inversion Hp'; subst ps'.
    rewrite Hf in Hf'. inversion Hf'; subst f0'.
    rewrite Hs in Hs'. inversion Hs'; subst cf'. exact Hb.
Qed.

Lemma intel_cpu_metrics_core (ps cf : list Q) (i : nat) (t : string) :
  intel_cpu_metrics ps cf !! core_key i (String "_" t)
  = add_per_core 0 (zip ps cf) (intel_base_metrics (length ps))
      !! core_key i (String "_" t).
Proof.
  unfold intel_cpu_metrics.
  rewrite !lookup_insert_ne; [reflexivity| |];
    intros Heq; symmetry in Heq; apply (core_key_not_cluster i _ _ Heq).
Qed.

Lemma intel_cpu_metrics_present (ps cf : list Q) (i : nat) (percent freq : Q) :
  ps !! i = Some percent -> cf !! i = Some freq ->
  intel_cpu_metrics ps cf !! core_key i "_active" = Some (VInt (Py.int_of_float percent)) /\
  intel_cpu_metrics ps cf !! core_key i "_freq_Mhz" = Some (VInt (Py.int_of_float freq)).
Proof.
  intros Hi Hfi.
  assert (Hzip : zip ps cf !! i = Some (percent, freq)).
  { apply lookup_zip_with_Some. exists percent, freq. auto. }
  rewrite !intel_cpu_metrics_core.
  apply (add_per_core_lookup _ 0%nat _ i percent freq Hzip).
Qed.

Lemma add_per_core_lookup_later (cores : list (Q * Q)) :
  forall (j : nat) (d : pydict) (i : nat) (t : string),
    (j + length cores <= i)%nat ->
    add_per_core j cores d !! core_key i (String "_" t) = d !! core_key i (String "_" t).
Proof.
  induction cores as [|[percent freq] rest IH]; intros j d i t Hij; simpl; [reflexivity|].
  simpl in Hij. rewrite IH by lia.
  rewrite !lookup_insert_ne; [reflexivity| |];
    intros Heq; apply (core_key_inj j i) in Heq; lia.
Qed.

Lemma intel_cpu_metrics_absent (ps cf : list Q) (i : nat) :
  (length cf <= i)%nat -> (length cf <= length ps)%nat ->
  intel_cpu_metrics ps cf !! core_key i "_active" = None.
Proof.
  intros Hi Hle. rewrite intel_cpu_metrics_core.
  rewrite add_per_core_lookup_later.
  - unfold intel_base_metrics. rewrite !lookup_insert_ne by discriminate.
    apply lookup_empty.
  - rewrite length_zip. lia.
Qed.

Lemma intel_cpu_metrics_p_core (ps cf : list Q) :
  intel_cpu_metrics ps cf !! "p_core"%string
  = Some (VList (map Z.of_nat (seq 0 (length ps)))).
Proof.
  unfold intel_cpu_metrics. rewrite !lookup_insert_ne by discriminate.
  rewrite add_per_core_lookup_other by (intros s H; discriminate H).
  reflexivity.
Qed.

Lemma update_core_charts_app (cluster label : string) (d : pydict)
    (l1 l2 : list string) :
  forall j charts,
    update_core_charts cluster label d j (l1 ++ l2) charts =
    match update_core_charts cluster label d j l1 charts with
    | Raise e => Raise e
    | Ret charts1 => update_core_charts cluster label d (j + length l1) l2 charts1
    end.
Proof.
  induction l1 as [|i rest IH]; intros j charts; simpl.
  - rewrite Nat.add_0_r. reflexivity.
  - destruct (Py.dict_getitem d (cluster +:+ i +:+ "_active")); [|reflexivity].
    destruct (Py.dict_getitem d (cluster +:+ i +:+ "_freq_Mhz")); [|reflexivity].
    destruct (charts !! j); [|reflexivity].
    rewrite IH. replace (S j + length rest)%nat with (j + S (length rest))%nat by lia.
    reflexivity.
Qed.

(** One loop over the cores [j .. j+k-1] whose entries are all there:
    every chart of the range is updated once, the others are untouched. *)
Lemma update_core_charts_seq (label : string) (d : pydict) (a f : nat -> pyval) :
  forall k j charts,
    (j + k <= length charts)%nat ->
    (forall i, (j <= i < j + k)%nat ->
               d !! core_key i "_active" = Some (a i) /\
               d !! core_key i "_freq_Mhz" = Some (f i)) ->
    exists charts',
      update_core_charts "P-Cluster" label d j
        (map (fun i : nat => pretty i) (seq j k)) charts = Ret charts' /\
      length charts' = length charts /\
      (forall i, (i < j \/ j + k <= i)%nat -> charts' !! i = charts !! i) /\
      (forall i c, (j <= i < j + k)%nat -> charts !! i = Some c ->
                   charts' !! i = Some (updated_chart label i (a i) (f i) c)).
Proof.
  induction k as [|k IH]; intros j charts Hlen Hd.
  - exists charts. simpl. repeat split; auto. intros i c Hi. lia.
  - simpl seq. simpl map. simpl update_core_charts.
    destruct (Hd j ltac:(lia)) as [Ha Hf].
    unfold core_key in Ha, Hf. unfold Py.dict_getitem. rewrite Ha, Hf.
    destruct (lookup_lt_is_Some_2 charts j ltac:(lia)) as [c Hc]. rewrite Hc.
    destruct (IH (S j)
                (<[ j := mkChart (CoreTitle (label +:+ pretty j) (a j) (f j))
                           (chart_data c ++ [a j]) ]> charts))
      as (charts' & Hrun & Hlen' & Hout & Hin).
    + rewrite length_insert. lia.
    + intros i Hi. apply Hd. lia.
    + exists charts'. split; [exact Hrun|].
      split; [rewrite Hlen'; apply length_insert|].
      split.
      * intros i Hi. rewrite Hout by lia. apply list_lookup_insert_ne. lia.
      * intros i c' Hi Hc'. destruct (Nat.eq_dec i j) as [->|Hne].
        -- rewrite Hout by lia. rewrite list_lookup_insert_eq by lia.
           rewrite Hc in Hc'. injection Hc' as <-. reflexivity.
        -- apply Hin; [lia|]. rewrite list_lookup_insert_ne by lia. exact Hc'.
Qed.

Lemma settle_cpu_freq_length (env : intel_env) (n : nat) (f0 cf : list Q) :
  settle_cpu_freq env n f0 = Ret cf ->
  ((length cf < n)%nat <-> (2 <= length f0 < n)%nat).
Proof.
  unfold settle_cpu_freq. destruct f0 as [|x [|y rest]].
  - destruct (cpu_freq_all env) as [[freq|]|e]; [| |discriminate];
      intros Heq; injection Heq as <-; rewrite length_replicate; simpl; lia.
  - destruct (Nat.ltb_spec 1 n); intros Heq; injection Heq as <-;
      rewrite ?length_replicate; simpl; lia.
  - intros Heq. injection Heq as <-. simpl. lia.
Qed.

(** The charts of the session loop against the reading of the Intel
    provider.  When the frequency list the provider settles on covers
    every core, the loop updates the chart of every core once, with the
    label [C], the truncated usage and the truncated frequency, and
    leaves the other charts alone.  When it is shorter, which happens
    exactly when [psutil] reports at least two per-core frequencies but
    fewer than there are cores, the reading still lists every core under
    ["p_core"] but lacks the entries of the cores beyond the list, and
    the loop ends with the [KeyError] of the first of them. *)
Theorem intel_core_charts_update (env : intel_env) (ps f0 cf : list Q)
    (charts : list hchart) :
  cpu_percent env = Ret ps -> cpu_freq_percpu env = Ret f0 ->
  settle_cpu_freq env (length ps) f0 = Ret cf ->
  (length ps <= length charts)%nat ->
  exists r,
    Py.result (intel_get_metrics env) = Ret (Some r) /\
    ((length ps <= length cf)%nat ->
     exists charts',
       update_cpu_charts (Some 0) (cpu_metrics r) [] charts = Ret ([], charts') /\
       length charts' = length charts /\
       (forall i percent freq c,
          ps !! i = Some percent -> cf !! i = Some freq -> charts !! i = Some c ->
          charts' !! i = Some (updated_chart "C" i (VInt (Py.int_of_float percent))
                                 (VInt (Py.int_of_float freq)) c)) /\
       (forall i, (length ps <= i)%nat -> charts' !! i = charts !! i)) /\
    ((length cf < length ps)%nat ->
     update_cpu_charts (Some 0) (cpu_metrics r) [] charts
     = Raise (KeyError (core_key (length cf) "_active"))) /\
    ((length cf < length ps)%nat <-> (2 <= length f0 < length ps)%nat).
Proof.
  intros Hp Hf Hs Hcharts.
  eexists. unfold intel_get_metrics. rewrite (intel_body_ret env ps f0 cf Hp Hf Hs).
  split; [reflexivity|]. simpl cpu_metrics.
  assert (Hnames : as_core_names (VList (map Z.of_nat (seq 0 (length ps))))
                   = Ret (map (fun i : nat => pretty i) (seq 0 (length ps)))).
  { simpl. f_equal. rewrite map_map. apply map_ext. intros i. apply pretty_Z_of_nat. }
  assert (Hrun : update_cpu_charts (Some 0) (intel_cpu_metrics ps cf) [] charts =
            match update_core_charts "P-Cluster" "C" (intel_cpu_metrics ps cf) 0
                    (map (fun i : nat => pretty i) (seq 0 (length ps))) charts with
            | Raise e => Raise e
            | Ret p_charts => Ret ([], p_charts)
            end).
  { unfold update_cpu_charts. cbv beta iota.
    change (0 <? 0) with false. cbv beta iota zeta.
    unfold Py.dict_getitem at 1. rewrite intel_cpu_metrics_p_core, Hnames.
    reflexivity. }
  split; [|split; [|apply (settle_cpu_freq_length env _ f0 cf Hs)]].
  - intros Hcover.
    destruct (update_core_charts_seq "C" (intel_cpu_metrics ps cf)
                (fun i => VInt (Py.int_of_float (nth i ps 0%Q)))
                (fun i => VInt (Py.int_of_float (nth i cf 0%Q)))
                (length ps) 0%nat charts Hcharts)
      as (charts' & Hupd & Hlen & Hout & Hin).
    + intros i Hi.
      destruct (lookup_lt_is_Some_2 ps i ltac:(lia)) as [percent Hpi].
      destruct (lookup_lt_is_Some_2 cf i ltac:(lia)) as [freq Hfi].
      rewrite (nth_lookup_Some _ _ _ _ Hpi), (nth_lookup_Some _ _ _ _ Hfi).
      apply intel_cpu_metrics_present; assumption.
    + exists charts'. rewrite Hrun, Hupd. split; [reflexivity|].
      split; [exact Hlen|]. split.
      * intros i percent freq c Hpi Hfi Hc.
        rewrite (Hin i c); [|apply lookup_lt_Some in Hpi; lia|exact Hc].
        rewrite (nth_lookup_Some _ _ _ _ Hpi), (nth_lookup_Some _ _ _ _ Hfi).
        reflexivity.
      * intros i Hi. apply Hout. lia.
  - intros Hshort. rewrite Hrun.
    replace (length ps) with (length cf + (length ps - length cf))%nat by lia.
    rewrite seq_app, map_app, update_core_charts_app.
    destruct (update_core_charts_seq "C" (intel_cpu_metrics ps cf)
                (fun i => VInt (Py.int_of_float (nth i ps 0%Q)))
                (fun i => VInt (Py.int_of_float (nth i cf 0%Q)))
                (length cf) 0%nat charts ltac:(lia))
      as (charts' & Hupd & Hlen & _).
    + intros i Hi.
      destruct (lookup_lt_is_Some_2 ps i ltac:(lia)) as [percent Hpi].
      destruct (lookup_lt_is_Some_2 cf i ltac:(lia)) as [freq Hfi].
      rewrite (nth_lookup_Some _ _ _ _ Hpi), (nth_lookup_Some _ _ _ _ Hfi).
      apply intel_cpu_metrics_present; assumption.
    + rewrite Hupd. rewrite length_map, length_seq. simpl (0 + length cf)%nat.
      destruct (length ps - length cf)%nat as [|k] eqn:Hk; [lia|].
      simpl seq. simpl map. simpl update_core_charts.
      change ("P-Cluster" +:+ pretty (length cf) +:+ "_active")%string
        with (core_key (length cf) "_active").
      unfold Py.dict_getitem at 1.
      rewrite intel_cpu_metrics_absent by lia. reflexivity.
Qed.

(** Two cores with one reported frequency: both charts are updated.
    Three cores with two reported frequencies: the third core has no
    entry. *)
Lemma intel_core_charts_example :
  (exists r charts',
     Py.result (intel_get_metrics Demo.idle_env) = Ret (Some r) /\
     update_cpu_charts (Some 0) (cpu_metrics r) [] (new_charts (core_charts "P" 2))
     = Ret ([], charts') /\
     length charts' = 2%nat) /\
  (exists r,
     Py.result (intel_get_metrics
                  (mkIntelEnv 5 (Ret [10#1; 20#1; 30#1]) (Ret [2400#1; 2600#1])
                     (Ret None) (Ret ""%string))) = Ret (Some r) /\
     update_cpu_charts (Some 0) (cpu_metrics r) [] (new_charts (core_charts "P" 3))
     = Raise (KeyError "P-Cluster2_active")).
Proof.
  split.
  - destruct (intel_core_charts_update Demo.idle_env
                [10#1; 55#2] [2400#1] [2400#1; 2400#1]
                (new_charts (core_charts "P" 2))
                eq_refl eq_refl eq_refl ltac:(simpl; lia))
      as (r & Hr & Hok & _).
    destruct (Hok ltac:(simpl; lia)) as (charts' & Hrun & Hlen & _).
    exists r, charts'. split; [exact Hr|]. split; [exact Hrun|exact Hlen].
  - destruct (intel_core_charts_update
                (mkIntelEnv 5 (Ret [10#1; 20#1; 30#1]) (Ret [2400#1; 2600#1])
                   (Ret None) (Ret ""%string))
                [10#1; 20#1; 30#1] [2400#1; 2600#1] [2400#1; 2600#1]
                (new_charts (core_charts "P" 3))
                eq_refl eq_refl eq_refl ltac:(simpl; lia))
      as (r & Hr & _ & Hfail & _).
    exists r. split; [exact Hr|]. exact (Hfail ltac:(simpl; lia)).
Defined.

(** ** apple_silicon.py, intel.py: [_get_cpu_info] *)

Lemma split_on_has_char (sep : ascii) (s : string) :
  match split_on sep s with
  | [] => False
  | [_] => has_char sep s = false
  | _ :: _ :: _ => has_char sep s = true
  end.
Proof.
  induction s as [|c rest IH]; simpl; [reflexivity|].
  destruct (Ascii.eqb c sep); simpl.
  - destruct (split_on sep rest) as [|x l]; [contradiction|reflexivity].
  - destruct (split_on sep rest) as [|x [|y l]]; [contradiction|exact IH|exact IH].
Qed.

Lemma second_field_cases (l : string) :
  (has_char ":" l = true /\ exists value, second_field l = Ret value /\
                                          field_text l = strip value) \/
  (has_char ":" l = false /\ second_field l = Raise IndexError).
Proof.
  unfold second_field, field_text.
  pose proof (split_on_has_char ":" l) as H.
  destruct (split_on ":" l) as [|x [|y rest]]; [contradiction| |].
  - right. split; [exact H|reflexivity].
  - left. split; [exact H|]. eexists. split; reflexivity.
Qed.

Lemma scan_line_colon (data_fields : list string) (l : string) :
  has_char ":" l = true ->
  forall d, exists d1,
    scan_line data_fields l d = Ret d1 /\
    forall h, d1 !! h = if decide (h ∈ data_fields /\ contains h l = true)
                        then Some (field_text l) else d !! h.
Proof.
  intros Hcolon.
  destruct (second_field_cases l) as [(_ & value & Hv & Ht)|[Hno _]]; [|congruence].
  induction data_fields as [|f rest IH]; intros d.
  - exists d. split; [reflexivity|]. intros h.
    destruct (decide _) as [[Hin _]|_]; [|reflexivity].
    apply elem_of_nil in Hin. contradiction.
  - simpl. destruct (contains f l) eqn:Hf.
    + rewrite Hv. destruct (IH (<[ f := strip value ]> d)) as (d1 & Hrun & Hd1).
      exists d1. split; [exact Hrun|]. intros h. rewrite Hd1.
      destruct (decide (h ∈ rest /\ contains h l = true)) as [[Hin Hc]|Hn].
      * rewrite decide_True; [reflexivity|]. split; [right; exact Hin|exact Hc].
      * destruct (decide (h = f)) as [->|Hne].
        -- rewrite lookup_insert_eq, decide_True; [congruence|].
           split; [left|exact Hf].
        -- rewrite lookup_insert_ne by congruence.
           destruct (decide (h ∈ f :: rest /\ contains h l = true)) as [[Hin Hc]|_];
             [|reflexivity].
           exfalso. apply elem_of_cons in Hin. destruct Hin as [->|Hin]; [congruence|].
           apply Hn. split; assumption.
    + destruct (IH d) as (d1 & Hrun & Hd1).
      exists d1. split; [exact Hrun|]. intros h. rewrite Hd1.
      destruct (decide (h ∈ rest /\ contains h l = true)) as [[Hin Hc]|Hn].
      * rewrite decide_True; [reflexivity|]. split; [right; exact Hin|exact Hc].
      * rewrite decide_False; [reflexivity|]. intros [Hin Hc].
        apply elem_of_cons in Hin. destruct Hin as [->|Hin]; [congruence|].
        apply Hn. split; assumption.
Qed.

Lemma scan_line_silent (data_fields : list string) (l : string) :
  mentions_any data_fields l = false ->
  forall d, scan_line data_fields l d = Ret d.
Proof.
  unfold mentions_any.
  induction data_fields as [|f rest IH]; intros Hm d; [reflexivity|].
  simpl in Hm. apply orb_false_iff in Hm. destruct Hm as [Hf Hrest].
  simpl. rewrite Hf. apply IH, Hrest.
Qed.

Lemma mentions_any_spec (data_fields : list string) (l : string) :
  mentions_any data_fields l = true <->
  exists h, h ∈ data_fields /\ contains h l = true.
Proof.
  unfold mentions_any. rewrite existsb_exists. split; intros (h & Hin & Hc);
    exists h; (split; [|exact Hc]); apply list_elem_of_In; exact Hin.
Qed.

Lemma scan_line_no_colon (data_fields : list string) (l : string) :
  mentions_any data_fields l = true -> has_char ":" l = false ->
  forall d, scan_line data_fields l d = Raise IndexError.
Proof.
  unfold mentions_any. intros Hm Hcolon.
  destruct (second_field_cases l) as [[Hyes _]|[_ Hraise]]; [congruence|].
  induction data_fields as [|f rest IH]; intros d; [discriminate|].
  simpl in Hm. simpl. destruct (contains f l); [rewrite Hraise; reflexivity|].
  apply IH, Hm.
Qed.

Lemma scan_lines_well_formed (data_fields : list string) (lines : list string) :
  Forall (fun l => mentions_any data_fields l = true -> has_char ":" l = true) lines ->
  forall d, exists d1,
    scan_lines data_fields lines d = Ret d1 /\
    forall h, d1 !! h = match last_mention h lines with
                        | Some l => if decide (h ∈ data_fields)
                                    then Some (field_text l) else d !! h
                        | None => d !! h
                        end.
Proof.
  induction 1 as [|l rest Hl _ IH]; intros d.
  - exists d. split; reflexivity.
  - simpl scan_lines.
    assert (Hstep : exists d0, scan_line data_fields l d = Ret d0 /\
              forall h, d0 !! h = if decide (h ∈ data_fields /\ contains h l = true)
                                  then Some (field_text l) else d !! h).
    { destruct (mentions_any data_fields l) eqn:Hm.
      - apply scan_line_colon, Hl. reflexivity.
      - exists d. split; [apply scan_line_silent, Hm|]. intros h.
        destruct (decide _) as [[Hin Hc]|_]; [|reflexivity].
        assert (mentions_any data_fields l = true) by (apply mentions_any_spec; eauto).
        congruence. }
    destruct Hstep as (d0 & Hd0 & Hlook). rewrite Hd0.
    destruct (IH d0) as (d1 & Hrun & Hd1).
    exists d1. split; [exact Hrun|]. intros h. rewrite Hd1. simpl.
    destruct (last_mention h rest) as [later|]; rewrite Hlook.
    + destruct (decide (h ∈ data_fields)) as [Hin|Hnot]; [reflexivity|].
      rewrite decide_False; [reflexivity|]. intros [Hin _]. contradiction.
    + destruct (contains h l) eqn:Hc.
      * destruct (decide (h ∈ data_fields)) as [Hin|Hnot].
        -- rewrite decide_True; [reflexivity|]. split; [exact Hin|reflexivity].
        -- rewrite decide_False; [reflexivity|]. intros [Hin _]. contradiction.
      * rewrite decide_False; [reflexivity|]. intros [_ Hc']. discriminate.
Qed.

Lemma scan_lines_malformed (data_fields : list string) (lines : list string) :
  Exists (fun l => mentions_any data_fields l = true /\ has_char ":" l = false) lines ->
  forall d, scan_lines data_fields lines d = Raise IndexError.
Proof.
  induction lines as [|l rest IH]; intros Hex d; [inversion Hex|].
  simpl. destruct (mentions_any data_fields l) eqn:Hm.
  - destruct (has_char ":" l) eqn:Hc.
    + destruct (scan_line_colon data_fields l Hc d) as (d1 & Hrun & _). rewrite Hrun.
      apply IH. inversion Hex as [? ? [_ Hbad]|? ? Hlater]; subst; [congruence|exact Hlater].
    + rewrite (scan_line_no_colon data_fields l Hm Hc). reflexivity.
  - rewrite (scan_line_silent data_fields l Hm). apply IH.
    inversion Hex as [? ? [Hbad _]|? ? Hlater]; subst; [congruence|exact Hlater].
Qed.

(** [_get_cpu_info] on any text.  If every line that mentions a field
    holds a colon, it returns a dictionary whose keys are fields, and the
    value of a field is the stripped text between the first and the second
    colon of the last line that mentions it, so a later line overrides an
    earlier one and a value is cut at a colon of its own.  If a line
    mentions a field and holds no colon, it raises [IndexError]. *)
Theorem get_cpu_info_last_line_wins (data_fields : list string) (cpu_info : string) :
  (Forall (fun l => mentions_any data_fields l = true -> has_char ":" l = true)
     (split_on "010" cpu_info) ->
   exists d,
     _get_cpu_info data_fields cpu_info = Ret d /\
     forall h, d !! h = if decide (h ∈ data_fields)
                        then field_text <$> last_mention h (split_on "010" cpu_info)
                        else None) /\
  (Exists (fun l => mentions_any data_fields l = true /\ has_char ":" l = false)
     (split_on "010" cpu_info) ->
   _get_cpu_info data_fields cpu_info = Raise IndexError).
Proof.
  unfold _get_cpu_info. split.
  - intros Hwf. destruct (scan_lines_well_formed _ _ Hwf ∅) as (d & Hrun & Hd).
    exists d. split; [exact Hrun|]. intros h. rewrite Hd, lookup_empty.
    destruct (last_mention h (split_on "010" cpu_info)); simpl;
      destruct (decide (h ∈ data_fields)); reflexivity.
  - intros Hbad. apply scan_lines_malformed, Hbad.
Qed.

(** At the two lines [sysctl] prints for an M1 Max, the brand line
    repeated with another value first. *)
Lemma get_cpu_info_example :
  exists d,
    _get_cpu_info apple_data_fields
      (join_on "010" ["machdep.cpu.brand_string: Apple M1";
                      "machdep.cpu.core_count: 10";
                      "machdep.cpu.brand_string: Apple M1 Max"; ""])
    = Ret d /\
    d !! "machdep.cpu.brand_string"%string = Some "Apple M1 Max"%string /\
    d !! "machdep.cpu.core_count"%string = Some "10"%string.
Proof.
  destruct (proj1 (get_cpu_info_last_line_wins apple_data_fields
      (join_on "010" ["machdep.cpu.brand_string: Apple M1";
                      "machdep.cpu.core_count: 10";
                      "machdep.cpu.brand_string: Apple M1 Max"; ""])))
    as (d & Hrun & Hd).
  - repeat (constructor;
            [intros H; first [reflexivity | vm_compute in H; discriminate H]|]).
    constructor.
  - exists d. split; [exact Hrun|]. split; rewrite Hd; reflexivity.
Defined.

(** ** vtop.py: the disk and network rates *)

Lemma fl_neg (x : Q) : (x < 0)%Q -> fl x = (- fl (- x))%Q.
Proof.
  intros Hx. unfold fl.
  rewrite (proj1 (Qlt_alt x 0) Hx).
  assert (Hpos : (0 < - x)%Q) by lra.
  rewrite (proj1 (Qgt_alt (- x) 0) Hpos). reflexivity.
Qed.

Lemma fl_tenth : (1 # 10 <= fl (1 # 10))%Q /\ (fl (1 # 10) <= 1)%Q.
Proof. split; vm_compute; discriminate. Qed.

Lemma time_delta_bounds (current_time last_time : Q) :
  (fl (1 # 10) <= time_delta current_time last_time)%Q /\
  (fl (current_time - last_time) <= time_delta current_time last_time)%Q /\
  ((current_time - last_time <= inject_Z (2 ^ 52))%Q ->
   (time_delta current_time last_time <= inject_Z (2 ^ 52))%Q).
Proof.
  unfold time_delta, py_max.
  destruct (float_gt (fl (1 # 10)) (fl (current_time - last_time))) eqn:H.
  - apply float_gt_spec in H. split; [lra|]. split; [lra|].
    intros _. apply Qle_trans with 1%Q; [apply fl_tenth|].
    change 1%Q with (inject_Z 1). rewrite <- Zle_Qle.
    apply Z.pow_le_mono_r with (a := 2) (b := 0) (c := 52); lia.
  - apply float_gt_false in H. split; [exact H|]. split; [lra|].
    intros Hb. apply fl_le_int; [|exact Hb].
    split; [lia|apply Z.pow_lt_mono_r; lia].
Qed.

(** Dividing a double between two integers by 1024. *)
Lemma fdiv_1024_range (b : Q) (lo hi : Z) :
  0 <= lo -> 0 <= hi < 2 ^ 53 ->
  (inject_Z (1024 * lo) <= b)%Q -> (b <= inject_Z (1024 * hi))%Q ->
  (inject_Z lo <= Py.fdiv b 1024)%Q /\ (Py.fdiv b 1024 <= inject_Z hi)%Q.
Proof.
  intros Hlo Hhi Hb1 Hb2. rewrite inject_Z_mult in Hb1, Hb2.
  change (inject_Z 1024) with 1024%Q in Hb1, Hb2.
  unfold Py.fdiv. split.
  - assert (Hq : (inject_Z lo <= b / 1024)%Q) by (apply Qle_shift_div_l; lra).
    destruct (Z.lt_ge_cases lo (2 ^ 53)) as [Hsmall|Hbig].
    + apply fl_ge_int; [lia|exact Hq].
    + (* impossible: [lo <= hi < 2^53] *)
      exfalso.
      assert (Hc : (inject_Z lo <= inject_Z hi)%Q).
      { apply Qmult_le_l with (z := 1024%Q); lra. }
      rewrite <- Zle_Qle in Hc. lia.
  - apply fl_le_int; [exact Hhi|]. apply Qle_shift_div_r; lra.
Qed.

Lemma fmt_1f_range (x : Q) (lo hi : Z) :
  (inject_Z lo <= x)%Q -> (x <= inject_Z hi)%Q ->
  (inject_Z lo <= fmt_1f x)%Q /\ (fmt_1f x <= inject_Z hi)%Q.
Proof.
  intros H1 H2. unfold fmt_1f.
  assert (Hlo : 10 * lo <= rne (x * 10)).
  { apply rne_ge. rewrite inject_Z_mult. change (inject_Z 10) with 10%Q. lra. }
  assert (Hhi : rne (x * 10) <= 10 * hi).
  { apply rne_le. rewrite inject_Z_mult. change (inject_Z 10) with 10%Q. lra. }
  rewrite Zle_Qle, inject_Z_mult in Hlo, Hhi.
  change (inject_Z 10) with 10%Q in Hlo, Hhi.
  split.
  - apply Qle_shift_div_l; lra.
  - apply Qle_shift_div_r; lra.
Qed.

Lemma format_speed_cases (b : Q) :
  ((b < 1024)%Q /\ format_speed b = (fmt_0f b, B_s)) \/
  ((1024 <= b)%Q /\ (b < 1024 * 1024)%Q /\
   format_speed b = (fmt_1f (Py.fdiv b 1024), KB_s)) \/
  ((1024 * 1024 <= b)%Q /\ (b < 1024 * 1024 * 1024)%Q /\
   format_speed b = (fmt_1f (Py.fdiv (Py.fdiv b 1024) 1024), MB_s)) \/
  ((1024 * 1024 * 1024 <= b)%Q /\
   format_speed b = (fmt_1f (Py.fdiv (Py.fdiv (Py.fdiv b 1024) 1024) 1024), GB_s)).
Proof.
  unfold format_speed.
  destruct (float_gt 1024 b) eqn:H1.
  { left. apply float_gt_spec in H1. split; [exact H1|reflexivity]. }
  apply float_gt_false in H1.
  destruct (float_gt (1024 * 1024) b) eqn:H2.
  { right; left. apply float_gt_spec in H2. repeat split; assumption. }
  apply float_gt_false in H2.
  destruct (float_gt (1024 * 1024 * 1024) b) eqn:H3.
  { right; right; left. apply float_gt_spec in H3. repeat split; assumption. }
  apply float_gt_false in H3.
  right; right; right. split; [exact H3|reflexivity].
Qed.

(** The sign of a rate is the sign of the change of its counter. *)
Lemma io_rate_nonneg (curr last : Z) (dt : Q) :
  (0 < dt)%Q -> last <= curr -> (0 <= io_rate curr last dt)%Q.
Proof.
  intros Hdt Hle. unfold io_rate, Py.fdiv, Py.float_of_int.
  assert (Hd : (0 <= fl (inject_Z (curr - last)))%Q).
  { apply fl_nonneg. change 0%Q with (inject_Z 0). rewrite <- Zle_Qle. lia. }
  apply fl_nonneg. apply Qle_shift_div_l; [exact Hdt|]. lra.
Qed.

Lemma io_rate_neg (curr last : Z) (dt : Q) :
  (0 < dt)%Q -> (dt <= inject_Z (2 ^ 52))%Q -> curr < last ->
  (io_rate curr last dt < 0)%Q.
Proof.
  intros Hdt Hbound Hlt. unfold io_rate, Py.fdiv, Py.float_of_int.
  assert (Hneg : (inject_Z (curr - last) < 0)%Q).
  { change 0%Q with (inject_Z 0). rewrite <- Zlt_Qlt. lia. }
  assert (H1 : (1 <= fl (- inject_Z (curr - last)))%Q).
  { change 1%Q with (inject_Z 1). apply fl_ge_int; [lia|].
    rewrite <- inject_Z_opp, <- Zle_Qle. lia. }
  rewrite (fl_neg _ Hneg).
  set (a := fl (- inject_Z (curr - last))) in *.
  assert (H52 : (inject_Z (2 ^ 52) == / pow2 (-52))%Q) by reflexivity.
  assert (Hp : (0 < pow2 (-52))%Q) by apply pow2_pos.
  assert (Hq : (pow2 (-52) <= a / dt)%Q).
  { apply Qle_shift_div_l; [exact Hdt|].
    apply Qle_trans with (pow2 (-52) * inject_Z (2 ^ 52))%Q.
    - apply Qmult_le_l; assumption.
    - rewrite H52, Qmult_inv_r by lra. exact H1. }
  assert (Hx : (- a / dt < 0)%Q).
  { assert (He : (- a / dt == - (a / dt))%Q) by (field; lra). rewrite He. lra. }
  rewrite (fl_neg _ Hx).
  assert (He : (- (- a / dt) == a / dt)%Q) by (field; lra).
  rewrite He.
  pose proof (fl_ge_double (a / dt) 1 (-52) ltac:(lia) ltac:(lia)) as Hfl.
  change (inject_Z 1) with 1%Q in Hfl. rewrite Qmult_1_l in Hfl.
  specialize (Hfl Hq). lra.
Qed.

(** A rate is at most ten times the change of its counter. *)
Lemma io_rate_magnitude (curr last : Z) (dt : Q) :
  (1 # 10 <= dt)%Q -> Z.abs (curr - last) <= 2 ^ 49 ->
  (- inject_Z (10 * Z.abs (curr - last)) <= io_rate curr last dt)%Q /\
  (io_rate curr last dt <= inject_Z (10 * Z.abs (curr - last)))%Q.
Proof.
  intros Hdt Hsmall.
  assert (H49 : 10 * 2 ^ 49 < 2 ^ 53) by (vm_compute; reflexivity).
  assert (Hpos : (0 < dt)%Q) by lra.
  assert (Hup : forall n : Z, 0 <= n <= 2 ^ 49 ->
            (0 <= fl (fl (inject_Z n) / dt))%Q /\
            (fl (fl (inject_Z n) / dt) <= inject_Z (10 * n))%Q).
  { intros n Hn.
    assert (Hn0 : (0 <= inject_Z n)%Q).
    { change 0%Q with (inject_Z 0). rewrite <- Zle_Qle. lia. }
    assert (Hfl : (fl (inject_Z n) == inject_Z n)%Q) by (apply fl_int; lia).
    rewrite Hfl. split.
    - apply fl_nonneg. apply Qle_shift_div_l; [exact Hpos|]. lra.
    - apply fl_le_int; [lia|]. apply Qle_shift_div_r; [exact Hpos|].
      rewrite inject_Z_mult. change (inject_Z 10) with 10%Q.
      assert (H1 : (1 * inject_Z n <= (10 * dt) * inject_Z n)%Q).
      { apply Qmult_le_compat_r; [lra|exact Hn0]. }
      lra. }
  unfold io_rate, Py.fdiv, Py.float_of_int.
  destruct (Z.le_gt_cases 0 (curr - last)) as [Hge|Hlt].
  - rewrite Z.abs_eq by lia. rewrite Z.abs_eq in Hsmall by lia.
    destruct (Hup (curr - last)) as [H0 H1]; [lia|].
    assert (Hn0 : (0 <= inject_Z (10 * (curr - last)))%Q).
    { change 0%Q with (inject_Z 0). rewrite <- Zle_Qle. lia. }
    split; lra.
  - rewrite Z.abs_neq by lia. rewrite Z.abs_neq in Hsmall by lia.
    destruct (Hup (- (curr - last))) as [H0 H1]; [lia|].
    assert (Hneg : (inject_Z (curr - last) < 0)%Q).
    { change 0%Q with (inject_Z 0). rewrite <- Zlt_Qlt. lia. }
    rewrite (fl_neg _ Hneg). rewrite <- (inject_Z_opp (curr - last)).
    set (a := fl (inject_Z (- (curr - last)))) in *.
    assert (Ha : (0 <= a)%Q).
    { apply fl_nonneg. change 0%Q with (inject_Z 0). rewrite <- Zle_Qle. lia. }
    destruct (Qeq_dec a 0) as [Hz|Hnz].
    + assert (He : (- a / dt == 0)%Q) by (rewrite Hz; field; lra).
      rewrite (fl_zero _ He).
      assert (Hn0 : (0 <= inject_Z (10 * - (curr - last)))%Q).
      { change 0%Q with (inject_Z 0). rewrite <- Zle_Qle. lia. }
      split; lra.
    + assert (Hx : (- a / dt < 0)%Q).
      { assert (He : (- a / dt == - (a / dt))%Q) by (field; lra). rewrite He.
        assert (0 < a / dt)%Q; [|lra].
        apply Qlt_shift_div_l; [exact Hpos|]. lra. }
      rewrite (fl_neg _ Hx).
      assert (He : (- (- a / dt) == a / dt)%Q) by (field; lra).
      rewrite He. split; lra.
Qed.

(** The rates of the system column.  The time between two frames is
    taken to be at least the double nearest to a tenth of a second, so
    the division is always defined; a rate keeps the sign of the change of
    its counter and is at most ten times that change.  A counter that
    went down, as it does when [psutil] raises and zeros stand in for the
    counters, gives a negative rate, and a negative rate is printed in
    bytes per second whatever its size.  From 1024 bytes per second on,
    the number printed in front of KB/s or MB/s lies between 1 and 1024,
    both included, and in front of GB/s it is at least 1:
    1048575 bytes per second are printed as 1024.0 KB/s. *)
Theorem io_rates_are_defined (current_time last_time : Q) (curr last : Z) :
  let dt := time_delta current_time last_time in
  let r := io_rate curr last dt in
  (0 < dt)%Q /\ (1 # 10 <= dt)%Q /\
  dt = py_max (fl (current_time - last_time)) (fl (1 # 10)) /\
  r = fl (fl (inject_Z (curr - last)) / dt) /\
  (last <= curr -> (0 <= r)%Q) /\
  (Z.abs (curr - last) <= 2 ^ 49 ->
   (- inject_Z (10 * Z.abs (curr - last)) <= r)%Q /\
   (r <= inject_Z (10 * Z.abs (curr - last)))%Q) /\
  ((current_time - last_time <= inject_Z (2 ^ 52))%Q ->
   (curr < last -> (r < 0)%Q /\ format_speed r = (fmt_0f r, B_s)) /\
   (forall e, 0 < last ->
      (io_rate (fst (get_io_counters (Raise e))) last dt < 0)%Q)) /\
  (forall b,
     match snd (format_speed b) with
     | B_s => (b < 1024)%Q
     | KB_s => (1024 <= b)%Q /\ (b < 1024 * 1024)%Q /\
               (1 <= fst (format_speed b))%Q /\ (fst (format_speed b) <= 1024)%Q
     | MB_s => (1024 * 1024 <= b)%Q /\ (b < 1024 * 1024 * 1024)%Q /\
               (1 <= fst (format_speed b))%Q /\ (fst (format_speed b) <= 1024)%Q
     | GB_s => (1024 * 1024 * 1024 <= b)%Q /\ (1 <= fst (format_speed b))%Q
     end) /\
  (snd (format_speed 1048575) = KB_s /\ (fst (format_speed 1048575) == 1024)%Q).
Proof.
  intros dt r.
  destruct (time_delta_bounds current_time last_time) as (Hdt & _ & Hdt52).
  fold dt in Hdt, Hdt52.
  pose proof fl_tenth as [Htenth _].
  assert (Hpos : (0 < dt)%Q) by lra.
  split; [exact Hpos|]. split; [lra|]. split; [reflexivity|]. split; [reflexivity|].
  split; [intros Hle; apply io_rate_nonneg; assumption|].
  split; [intros Hsmall; apply io_rate_magnitude; [lra|exact Hsmall]|].
  split.
  { intros Hb. specialize (Hdt52 Hb). split.
    - intros Hlt. pose proof (io_rate_neg curr last dt Hpos Hdt52 Hlt) as Hneg.
      fold r in Hneg. split; [exact Hneg|].
      destruct (format_speed_cases r) as [[_ H]|[[H _]|[[H _]|[H _]]]];
        [exact H|lra|lra|lra].
    - intros e Hlast. apply io_rate_neg; [exact Hpos|exact Hdt52|exact Hlast]. }
  split; [|split; [reflexivity|vm_compute; reflexivity]].
  intros b.
  destruct (format_speed_cases b) as [[H ->]|[(H1 & H2 & ->)|[(H1 & H2 & ->)|[H ->]]]];
    cbn [fst snd].
  - exact H.
  - split; [exact H1|]. split; [exact H2|].
    destruct (fdiv_1024_range b 1 1024) as [L1 U1].
    + lia.
    + split; [lia|vm_compute; reflexivity].
    + change (inject_Z (1024 * 1)) with 1024%Q. exact H1.
    + change (inject_Z (1024 * 1024)) with (1024 * 1024)%Q. lra.
    + change 1%Q with (inject_Z 1). change 1024%Q with (inject_Z 1024).
      apply fmt_1f_range; assumption.
  - split; [exact H1|]. split; [exact H2|].
    destruct (fdiv_1024_range b 1024 (1024 * 1024)) as [L1 U1].
    + lia.
    + split; [lia|vm_compute; reflexivity].
    + change (inject_Z (1024 * 1024)) with (1024 * 1024)%Q. exact H1.
    + change (inject_Z (1024 * (1024 * 1024))) with (1024 * 1024 * 1024)%Q. lra.
    + destruct (fdiv_1024_range (Py.fdiv b 1024) 1 1024) as [L2 U2].
      * lia.
      * split; [lia|vm_compute; reflexivity].
      * exact L1.
      * exact U1.
      * change 1%Q with (inject_Z 1). change 1024%Q with (inject_Z 1024).
        apply fmt_1f_range; assumption.
  - split; [exact H|].
    assert (G1 : (inject_Z (1024 * 1024) <= Py.fdiv b 1024)%Q).
    { unfold Py.fdiv. apply fl_ge_int; [split; [lia|vm_compute; reflexivity]|].
      change (inject_Z (1024 * 1024)) with (1024 * 1024)%Q.
      apply Qle_shift_div_l; lra. }
    assert (G2 : (inject_Z 1024 <= Py.fdiv (Py.fdiv b 1024) 1024)%Q).
    { unfold Py.fdiv at 1. apply fl_ge_int; [split; [lia|vm_compute; reflexivity]|].
      change (inject_Z (1024 * 1024)) with (1024 * 1024)%Q in G1.
      change (inject_Z 1024) with 1024%Q.
      apply Qle_shift_div_l; lra. }
    assert (G3 : (inject_Z 1 <= Py.fdiv (Py.fdiv (Py.fdiv b 1024) 1024) 1024)%Q).
    { unfold Py.fdiv at 1. apply fl_ge_int; [split; [lia|vm_compute; reflexivity]|].
      change (inject_Z 1024) with 1024%Q in G2.
      change (inject_Z 1) with 1%Q.
      apply Qle_shift_div_l; lra. }
    unfold fmt_1f.
    assert (Hr : 10 * 1 <= rne (Py.fdiv (Py.fdiv (Py.fdiv b 1024) 1024) 1024 * 10)).
    { apply rne_ge. change (inject_Z (10 * 1)) with 10%Q.
      change (inject_Z 1) with 1%Q in G3. lra. }
    rewrite Zle_Qle in Hr. change (inject_Z (10 * 1)) with 10%Q in Hr.
    apply Qle_shift_div_l; lra.
Qed.

(** Two frames a second apart in which the counter grew by 3 MiB, and
    two frames in which it fell back to zero. *)
Lemma io_rates_example :
  (0 <= io_rate 3145728 0 (time_delta 11 10))%Q /\
  (io_rate 0 3145728 (time_delta 11 10) < 0)%Q /\
  format_speed (io_rate 3145728 0 (time_delta 11 10)) = (fmt_1f 3, MB_s) /\
  snd (format_speed (io_rate 0 3145728 (time_delta 11 10))) = B_s.
Proof.
  split; [|split; [|split]].
  - apply (io_rates_are_defined 11 10 3145728 0). lia.
  - apply (io_rates_are_defined 11 10 0 3145728).
    + vm_compute. discriminate.
    + lia.
  - vm_compute. reflexivity.
  - vm_compute. reflexivity.
Defined.

(** ** apple_silicon.py and vtop.py: unknown core counts *)

Lemma apple_soc_core_counts (brand : string) (core_count : Z)
    (e p gpu : option Z) :
  soc_e_core_count (apple_get_soc_info brand core_count e p gpu) = e /\
  soc_p_core_count (apple_get_soc_info brand core_count e p gpu) = p.
Proof.
  unfold apple_get_soc_info, _set_bandwidth_limits, _set_power_limits.
  cbn [soc_name with_power_limits].
  repeat match goal with
         | |- context [if ?c then _ else _] => destruct c
         end; split; reflexivity.
Qed.

Lemma cpu_cores_layout_concat (e p : Z) :
  exists rows,
    cpu_cores_layout (Some e) (Some p) = Ret rows /\
    concat rows = core_charts "E" e ++ core_charts "P" p.
Proof.
  unfold cpu_cores_layout.
  assert (Herow : (if 0 <? e then core_charts "E" e else []) = core_charts "E" e).
  { destruct (Z.ltb_spec 0 e); [reflexivity|].
    unfold core_charts. replace (Z.to_nat e) with 0%nat by lia. reflexivity. }
  rewrite Herow.
  destruct (Z.eqb_spec e 0) as [->|He].
  - destruct (p <=? 8); eexists; (split; [reflexivity|]); simpl;
      rewrite app_nil_r; [reflexivity|apply firstn_skipn].
  - destruct (p <=? 4); eexists; (split; [reflexivity|]); simpl;
      rewrite app_nil_r; [reflexivity|].
    f_equal. apply firstn_skipn.
Qed.

(** The core counts of the Apple profile are both known or both unknown:
    when [sysctl] gave no count for either performance level, both are
    ["?"], the tables of limits leave them as they are, and the session
    ends with a [TypeError] at the layout of the core charts; when both
    counts are there, the layout shows a chart for each core. *)
Theorem unknown_core_counts_end_the_program (core_counts_dict : gmap string Z)
    (brand : string) (core_count : Z) (gpu : option Z) :
  let soc := apple_get_soc_info brand core_count
               (fst (core_counts_of core_counts_dict))
               (snd (core_counts_of core_counts_dict)) gpu in
  (soc_e_core_count soc = None <-> soc_p_core_count soc = None) /\
  (core_counts_dict !! "hw.perflevel1.logicalcpu"%string = None \/
   core_counts_dict !! "hw.perflevel0.logicalcpu"%string = None ->
   cpu_cores_layout (soc_e_core_count soc) (soc_p_core_count soc) = Raise TypeError) /\
  (forall e p,
     core_counts_dict !! "hw.perflevel1.logicalcpu"%string = Some e ->
     core_counts_dict !! "hw.perflevel0.logicalcpu"%string = Some p ->
     exists rows,
       cpu_cores_layout (soc_e_core_count soc) (soc_p_core_count soc) = Ret rows /\
       concat rows = core_charts "E" e ++ core_charts "P" p).
Proof.
  intros soc.
  destruct (apple_soc_core_counts brand core_count
              (fst (core_counts_of core_counts_dict))
              (snd (core_counts_of core_counts_dict)) gpu) as [He Hp].
  fold soc in He, Hp. rewrite He, Hp. unfold core_counts_of.
  destruct (core_counts_dict !! "hw.perflevel1.logicalcpu"%string) as [e|];
    destruct (core_counts_dict !! "hw.perflevel0.logicalcpu"%string) as [p|]; simpl.
  - split; [split; discriminate|].
    split; [intros [H|H]; discriminate|].
    intros e' p' H1 H2. injection H1 as <-. injection H2 as <-.
    apply cpu_cores_layout_concat.
  - split; [split; reflexivity|]. split; [reflexivity|]. intros e' p' _ H. discriminate.
  - split; [split; reflexivity|]. split; [reflexivity|]. intros e' p' H. discriminate.
  - split; [split; reflexivity|]. split; [reflexivity|]. intros e' p' H. discriminate.
Qed.
